(** * claudeoo: the SSE interceptor and the cost calculator

    A shallow embedding of [src/interceptor.ts] (the line demuxer
    [processPendingBuffer], the stream state machine [processSSEEvent], the
    finalizer [finalizeStream], the completion callback of [wrapReader] and
    the exit handler) and of [src/pricing.ts] ([loadPricing],
    [normalizeModelId], [resolvePricing], [calculateCost]); and, around
    them, of the request side of the interceptor ([isAnthropicMessagesCall],
    [trimRequestBody]), the recorder and the two database statements it
    runs, the CSV export, two helpers of the formatter, the command line
    and the environment the launcher hands to the loader.

    The engine is dynamically typed at its boundary: the payload of an event
    is whatever [JSON.parse] returns, and the TypeScript casts ([as string],
    [as number]) check nothing at run time.  The embedding therefore keeps
    JavaScript values where the code stores payload fields unchanged, and
    follows JavaScript's truthiness, [||], [??], [===] and property access.

    What belongs to the host and not to the repository is a parameter of the
    development: [JSON.parse], the [+] operator outside the integers, the
    floating-point cost formula, the [TextDecoder], the clock, the working
    directory and the outcome of a write to the record sink. *)

From Stdlib Require Import String Ascii ZArith List Bool Lia.
From stdpp Require Import gmap.
Import ListNotations.

Local Open Scope string_scope.
Local Open Scope Z_scope.

Set Warnings "-register-all".

(** ** JavaScript values *)

(** Numbers are the integers (token counts, lengths, indices) and [NaN];
    fractions, infinities and the rounding of doubles are not represented.
    A string is its sequence of code units, one [ascii] each. *)
Inductive JsValue : Type :=
| JUndefined
| JNull
| JBool (b : bool)
| JNum (n : Z)
| JNaN
| JStr (s : string)
| JArr (items : list JsValue)
| JObj (fields : list (string * JsValue)).

Module Js.

(** ToBoolean. *)
Definition truthy (v : JsValue) : bool :=
  match v with
  | JUndefined | JNull | JNaN => false
  | JBool b => b
  | JNum n => negb (n =? 0)
  | JStr s => negb (String.eqb s "")
  | JArr _ | JObj _ => true
  end.

(** [a || b]. *)
Definition or (a b : JsValue) : JsValue := if truthy a then a else b.

(** [a ?? b]. *)
Definition nullish (a b : JsValue) : JsValue :=
  match a with
  | JUndefined | JNull => b
  | _ => a
  end.

(** [a === b].  Two objects or arrays are equal only when they are the same
    reference; the engine compares a stored block index with the index of a
    later, separately parsed payload, so they never are. *)
Definition strict_eq (a b : JsValue) : bool :=
  match a, b with
  | JUndefined, JUndefined => true
  | JNull, JNull => true
  | JBool x, JBool y => Bool.eqb x y
  | JNum x, JNum y => x =? y
  | JStr x, JStr y => String.eqb x y
  | _, _ => false
  end.

(** [v === "lit"] for a string literal, as in a [switch] on strings. *)
Definition is_str (lit : string) (v : JsValue) : bool := strict_eq v (JStr lit).

(** Own property of a parsed object; a missing key reads [undefined]. *)
Fixpoint assoc (k : string) (fields : list (string * JsValue)) : JsValue :=
  match fields with
  | [] => JUndefined
  | (k', v) :: rest => if String.eqb k k' then v else assoc k rest
  end.

(** [v.k].  [None] is the TypeError of reading a property of [null] or
    [undefined].  Primitives and arrays answer [undefined] except for
    [length]; this is exact for the keys the engine reads, none of which is
    inherited from a prototype. *)
Definition get (v : JsValue) (k : string) : option JsValue :=
  match v with
  | JUndefined | JNull => None
  | JObj fields => Some (assoc k fields)
  | JStr s => Some (if String.eqb k "length" then JNum (Z.of_nat (String.length s)) else JUndefined)
  | JArr items => Some (if String.eqb k "length" then JNum (Z.of_nat (List.length items)) else JUndefined)
  | JBool _ | JNum _ | JNaN => Some JUndefined
  end.

(** [typeof v === "string"]. *)
Definition is_string (v : JsValue) : bool :=
  match v with JStr _ => true | _ => false end.

End Js.

(** ** Strings: the methods the demuxer and the pricing resolver call *)

Definition LF : ascii := "010"%char.

(** White space and line terminators that [String.prototype.trim] removes,
    among the code units below 256. *)
Definition is_space (c : ascii) : bool :=
  let n := nat_of_ascii c in
  ((9 <=? n) && (n <=? 13) || (n =? 32) || (n =? 160))%nat.

(** [s.startsWith(p)]. *)
Definition startsWith (p s : string) : bool := String.prefix p s.

(** [s.slice(n)] for [n >= 0]. *)
Fixpoint slice (n : nat) (s : string) : string :=
  match n, s with
  | O, _ => s
  | S n', String _ s' => slice n' s'
  | S _, EmptyString => EmptyString
  end.

Fixpoint trimStart (s : string) : string :=
  match s with
  | String c s' => if is_space c then trimStart s' else s
  | EmptyString => EmptyString
  end.

Fixpoint trimEnd (s : string) : string :=
  match s with
  | EmptyString => EmptyString
  | String c s' =>
      match trimEnd s' with
      | EmptyString => if is_space c then EmptyString else String c EmptyString
      | t => String c t
      end
  end.

(** [s.trim()]. *)
Definition trim (s : string) : string := trimEnd (trimStart s).

(** [s.split("\n")]: never empty, [""] splits into [[""]]. *)
Fixpoint split_lines (s : string) : list string :=
  match s with
  | EmptyString => [EmptyString]
  | String c s' =>
      if Ascii.eqb c LF then EmptyString :: split_lines s'
      else match split_lines s' with
           | [] => [String c EmptyString]
           | h :: t => String c h :: t
           end
  end.

(** [s.includes(sub)]. *)
Fixpoint includes (sub s : string) : bool :=
  String.prefix sub s ||
  match s with
  | EmptyString => false
  | String _ s' => includes sub s'
  end.

(** ** The host *)

(** The value of a counter that is only ever updated with [+=]: JavaScript's
    [+] returns a number or a string, never anything else. *)
Inductive Accum : Type :=
| ANum (n : Z)
| ANaN
| AStr (s : string).

Definition of_accum (a : Accum) : JsValue :=
  match a with
  | ANum n => JNum n
  | ANaN => JNaN
  | AStr s => JStr s
  end.

(** What the engine takes from the JavaScript runtime and from the machine.
    [None] stands for a thrown exception. *)
Class Host : Type := {
  (** [JSON.parse]; [None] is its SyntaxError. *)
  JSON_parse : string -> option JsValue;
  (** [acc + v]; [None] is the TypeError of a failing ToPrimitive. *)
  js_add : Accum -> JsValue -> option Accum;
  (** A cost in USD, a double in the source. *)
  Cost : Type;
  cost_zero : Cost;
  cost_add : Cost -> Cost -> Cost;
  (** An entry of the pricing table, four prices per million tokens. *)
  ModelPricing : Type;
  (** The object literal [{ input, output, cacheWrite, cacheRead }] of the
      inline table of [loadPricing]; the four prices are given in
      hundredths of a dollar, the host makes the doubles. *)
  model_pricing : Z -> Z -> Z -> Z -> ModelPricing;
  (** The formula of [calculateCost] once [pricing] is truthy:
      [(inputTokens / M) * pricing.input + ...].  The first argument is
      [None] when [pricing] is a member inherited from [Object.prototype],
      whose price fields read [undefined]. *)
  cost_formula : option ModelPricing -> JsValue -> JsValue -> JsValue -> JsValue -> option Cost;
  (** [TextDecoder]: [decode(bytes, { stream: true })] and the final
      [decode()]. *)
  DecoderState : Type;
  decoder_new : DecoderState;
  decode : DecoderState -> list Byte.byte -> DecoderState * string;
  decode_end : DecoderState -> string
}.

(** What one call of the finalizer reads from the machine. *)
Record Env : Type := {
  now_ms : Z;            (* Date.now() *)
  now_iso : string;      (* new Date().toISOString() *)
  env_cwd : string;      (* process.cwd() *)
  sink_ok : bool         (* false: writeRecord throws *)
}.

(** A statement that completes normally or throws; the mutations made
    before the exception stay. *)
Inductive Completion (A : Type) : Type :=
| Normal (a : A)
| Throw (a : A).
Arguments Normal {A} a.
Arguments Throw {A} a.

Definition outcome {A : Type} (c : Completion A) : A :=
  match c with Normal a | Throw a => a end.

(** ** src/pricing.ts *)

Section PricingModel.
Context `{Host}.

Record PricingConfig : Type := {
  version : string;
  models : list (string * ModelPricing)   (* own keys, in insertion order *)
}.

Definition is_digit (c : ascii) : bool :=
  let n := nat_of_ascii c in ((48 <=? n) && (n <=? 57))%nat.

Fixpoint all_digits (s : string) : bool :=
  match s with
  | EmptyString => true
  | String c s' => is_digit c && all_digits s'
  end.

(** Does [s] match [/^-\d{8}$/]? *)
Definition is_date_suffix (s : string) : bool :=
  match s with
  | String c d => Ascii.eqb c "-"%char && (String.length d =? 8)%nat && all_digits d
  | EmptyString => false
  end.

(** [modelId.replace(/-\d{8}$/, "")]. *)
Fixpoint normalizeModelId (modelId : string) : string :=
  if is_date_suffix modelId then EmptyString
  else match modelId with
       | EmptyString => EmptyString
       | String c s' => String c (normalizeModelId s')
       end.

(** The members every object inherits from [Object.prototype]. *)
Definition object_prototype_keys : list string :=
  [ "constructor"; "__defineGetter__"; "__defineSetter__"; "hasOwnProperty";
    "__lookupGetter__"; "__lookupSetter__"; "isPrototypeOf";
    "propertyIsEnumerable"; "toString"; "valueOf"; "__proto__";
    "toLocaleString" ].

Fixpoint own_entry (key : string) (ms : list (string * ModelPricing)) : option ModelPricing :=
  match ms with
  | [] => None
  | (k, p) :: rest => if String.eqb key k then Some p else own_entry key rest
  end.

(** [config.models[key]]: [None] is [undefined]; [Some None] is an inherited
    member, which is truthy but is no pricing entry. *)
Definition models_get (config : PricingConfig) (key : string) : option (option ModelPricing) :=
  match own_entry key (models config) with
  | Some p => Some (Some p)
  | None =>
      if existsb (String.eqb key) object_prototype_keys then Some None else None
  end.

(** The inner loop over [Object.entries(config.models)]. *)
Fixpoint first_of_family (family : string) (ms : list (string * ModelPricing)) : option ModelPricing :=
  match ms with
  | [] => None
  | (key, pricing) :: rest =>
      if includes family key then Some pricing else first_of_family family rest
  end.

Definition families : list string := ["opus"; "sonnet"; "haiku"].

(** The outer loop over [families]. *)
Fixpoint family_match (fams : list string) (normalized : string)
    (ms : list (string * ModelPricing)) : option ModelPricing :=
  match fams with
  | [] => None
  | family :: rest =>
      if includes family normalized then
        match first_of_family family ms with
        | Some pricing => Some pricing
        | None => family_match rest normalized ms
        end
      else family_match rest normalized ms
  end.

(** [resolvePricing] from its second line on, [config] being the table
    that [loadPricing] returned; the outer [None] is [null]. *)
Definition resolve_in_table (config : PricingConfig) (modelId : string)
    : option (option ModelPricing) :=
  let normalized := normalizeModelId modelId in
  match models_get config normalized with
  | Some p => Some p
  | None =>
      match models_get config modelId with
      | Some p => Some p
      | None =>
          match family_match families normalized (models config) with
          | Some p => Some (Some p)
          | None => None
          end
      end
  end.

(** What [JSON.parse] makes of a pricing file that parses: an object whose
    [models] is an object of entries (any order, any keys), or a value
    whose [models] cannot be indexed ([null], a number, a string, an object
    without [models]), of which only the truthiness matters.  A [models]
    that is a string, a number or an array, and an entry that is falsy, are
    not represented. *)
Inductive PricingValue : Type :=
| Table (config : PricingConfig)
| NoTable (truthy : bool).

Definition pricing_truthy (value : PricingValue) : bool :=
  match value with
  | Table _ => true
  | NoTable truthy => truthy
  end.

(** What the file system answers for one of the two pricing files: no such
    file, a file that cannot be read or parsed, or a file that parses. *)
Inductive PricingFile : Type :=
| FileAbsent
| FileBroken
| FileHolds (value : PricingValue).

(** The inline table of [loadPricing]. *)
Definition inline_fallback : PricingConfig :=
  {| version := "2026-02-21-fallback";
     models := [("claude-opus-4-6", model_pricing 500 2500 625 50);
                ("claude-sonnet-4-6", model_pricing 300 1500 375 30);
                ("claude-haiku-4-5", model_pricing 100 500 125 10)] |}.

(** [pricingConfig = value; return pricingConfig!]: what the module-level
    cache holds after the assignment, [None] being [null] and every other
    falsy value, which [if (pricingConfig)] treats alike. *)
Definition remember (value : PricingValue) : option PricingValue :=
  if pricing_truthy value then Some value else None.

(** [loadPricing]: the first component is what the call returns ([None]:
    it throws), the second the module-level cache [pricingConfig]
    afterwards.  The user file is read inside a try/catch, the bundled file
    is not. *)
Definition loadPricing (user bundled : PricingFile) (cache : option PricingValue)
    : option PricingValue * option PricingValue :=
  let from_files :=
    match user with
    | FileHolds value => (Some value, remember value)
    | FileAbsent | FileBroken =>
        match bundled with
        | FileHolds value => (Some value, remember value)
        | FileBroken => (None, cache)
        | FileAbsent => (Some (Table inline_fallback), Some (Table inline_fallback))
        end
    end in
  match cache with
  | Some value => if pricing_truthy value then (Some value, cache) else from_files
  | None => from_files
  end.

(** [clearPricingCache]. *)
Definition clearPricingCache (_ : option PricingValue) : option PricingValue := None.

(** [resolvePricing]: the table is loaded first; then [normalizeModelId]
    calls [replace] on [modelId], which throws unless that is a string (the
    cast in the caller checks nothing); then [config.models[normalized]]
    throws on a value without [models].  The outermost [None] is the
    exception, in whichever of the three places. *)
Definition resolvePricing (user bundled : PricingFile) (cache : option PricingValue)
    (modelId : JsValue) : option (option (option ModelPricing)) * option PricingValue :=
  let (loaded, cache') := loadPricing user bundled cache in
  (match loaded, modelId with
   | Some (Table config), JStr m => Some (resolve_in_table config m)
   | _, _ => None
   end,
   cache').

(** [calculateCost]: the cost, [None] when the call throws, and the cache
    of [loadPricing] afterwards. *)
Definition calculateCost (user bundled : PricingFile) (cache : option PricingValue)
    (modelId inputTokens outputTokens cacheWriteTokens cacheReadTokens : JsValue)
    : option Cost * option PricingValue :=
  let (pricing, cache') := resolvePricing user bundled cache modelId in
  (match pricing with
   | None => None
   | Some None => Some cost_zero
   | Some (Some entry) =>
       cost_formula entry inputTokens outputTokens cacheWriteTokens cacheReadTokens
   end,
   cache').

End PricingModel.

(** ** src/interceptor.ts: data *)

Section InterceptorModel.
Context `{Host}.

(** [ApiUsage]; the two cache counters are optional and read [undefined]
    when absent. *)
Record ApiUsage : Type := {
  input_tokens : JsValue;
  output_tokens : JsValue;
  cache_creation_input_tokens : JsValue;
  cache_read_input_tokens : JsValue
}.

Record TrackedBlock : Type := {
  index : JsValue;
  type : JsValue;
  charCount : Accum
}.

Record StreamState : Type := {
  messageId : JsValue;
  model : JsValue;
  usage : ApiUsage;
  stopReason : JsValue;
  contentBlocks : list TrackedBlock
}.

Record PendingStream : Type := {
  state : StreamState;
  requestModel : JsValue;
  turnNum : nat;
  startTime : Z;
  buffer : string;
  eventType : string
}.

Record ApiCallRecord : Type := {
  session_id : string;
  message_id : JsValue;
  rec_model : JsValue;
  timestamp : string;
  rec_input_tokens : JsValue;
  rec_output_tokens : JsValue;
  rec_cache_creation_input_tokens : JsValue;
  rec_cache_read_input_tokens : JsValue;
  thinking_chars : Accum;
  text_chars : Accum;
  tool_use_chars : Accum;
  stop_reason : JsValue;
  cost_usd : Cost;
  cwd : string;
  turn_number : nat;
  duration_ms : Z
}.

(** The module-level [session] object. *)
Record Session : Type := {
  totalCost : Cost;
  totalInput : Accum;
  totalOutput : Accum;
  totalCacheRead : Accum;
  totalCacheWrite : Accum;
  turns : Z;
  lastModel : JsValue;
  lastTurnCost : Cost
}.

(** The module-level state.  A [PendingStream] is a mutable object shared by
    the [pendingStreams] map and by the closures of the wrapped reader and
    iterator; [heap] holds the objects under their turn number, which is
    unique, and [pendingStreams] lists the keys of the map in insertion
    order.  [records] is the in-memory array, [sink] the JSONL file that
    [writeRecord] appends to.  [pricingConfig] is the module-level cache of
    [loadPricing]; the two pricing files are on the disk, which the engine
    only reads. *)
Record World : Type := {
  sessionId : string;
  turnCounter : nat;
  heap : gmap nat PendingStream;
  pendingStreams : list nat;
  records : list ApiCallRecord;
  session : Session;
  sink : list ApiCallRecord;
  pricingConfig : option PricingValue;   (* the cache of src/pricing.ts *)
  userPricing : PricingFile;             (* ~/.claudeoo/pricing.json *)
  bundledPricing : PricingFile           (* pricing.json next to the code *)
}.

Definition set_usage (u : ApiUsage) (s : StreamState) : StreamState :=
  {| messageId := messageId s; model := model s; usage := u;
     stopReason := stopReason s; contentBlocks := contentBlocks s |}.

Definition set_messageId (v : JsValue) (s : StreamState) : StreamState :=
  {| messageId := v; model := model s; usage := usage s;
     stopReason := stopReason s; contentBlocks := contentBlocks s |}.

Definition set_model (v : JsValue) (s : StreamState) : StreamState :=
  {| messageId := messageId s; model := v; usage := usage s;
     stopReason := stopReason s; contentBlocks := contentBlocks s |}.

Definition set_stopReason (v : JsValue) (s : StreamState) : StreamState :=
  {| messageId := messageId s; model := model s; usage := usage s;
     stopReason := v; contentBlocks := contentBlocks s |}.

Definition set_contentBlocks (bs : list TrackedBlock) (s : StreamState) : StreamState :=
  {| messageId := messageId s; model := model s; usage := usage s;
     stopReason := stopReason s; contentBlocks := bs |}.

Definition set_output_tokens (v : JsValue) (u : ApiUsage) : ApiUsage :=
  {| input_tokens := input_tokens u; output_tokens := v;
     cache_creation_input_tokens := cache_creation_input_tokens u;
     cache_read_input_tokens := cache_read_input_tokens u |}.

Definition set_charCount (a : Accum) (b : TrackedBlock) : TrackedBlock :=
  {| index := index b; type := type b; charCount := a |}.

Definition set_lastModel (v : JsValue) (s : Session) : Session :=
  {| totalCost := totalCost s; totalInput := totalInput s;
     totalOutput := totalOutput s; totalCacheRead := totalCacheRead s;
     totalCacheWrite := totalCacheWrite s; turns := turns s;
     lastModel := v; lastTurnCost := lastTurnCost s |}.

Definition set_state (st : StreamState) (p : PendingStream) : PendingStream :=
  {| state := st; requestModel := requestModel p; turnNum := turnNum p;
     startTime := startTime p; buffer := buffer p; eventType := eventType p |}.

Definition set_buffer (b : string) (p : PendingStream) : PendingStream :=
  {| state := state p; requestModel := requestModel p; turnNum := turnNum p;
     startTime := startTime p; buffer := b; eventType := eventType p |}.

Definition set_eventType (e : string) (p : PendingStream) : PendingStream :=
  {| state := state p; requestModel := requestModel p; turnNum := turnNum p;
     startTime := startTime p; buffer := buffer p; eventType := e |}.

(** ** The stream state machine *)

(** [updateLiveStatus]: it only writes the terminal title, inside a
    try/catch of its own, but formats first, and [displayModel] calls
    [replace] on [session.lastModel], which throws unless that is a string.
    The result says whether the call returns. *)
Definition updateLiveStatus (ses : Session) : bool := Js.is_string (lastModel ses).

(** [state.contentBlocks.find((b) => b.index === index)]. *)
Definition find_block (idx : JsValue) (bs : list TrackedBlock) : option TrackedBlock :=
  List.find (fun b => Js.strict_eq (index b) idx) bs.

(** The in-place update of the block that [find] returned: the first one
    with that index. *)
Fixpoint update_block (idx : JsValue) (a : Accum) (bs : list TrackedBlock) : list TrackedBlock :=
  match bs with
  | [] => []
  | b :: rest =>
      if Js.strict_eq (index b) idx then set_charCount a b :: rest
      else b :: update_block idx a rest
  end.

(** [delta.text || delta.thinking || delta.partial_json || ""], for a truthy
    [delta]. *)
Definition delta_text (delta : JsValue) : JsValue :=
  let field k := default JUndefined (Js.get delta k) in
  Js.or (Js.or (Js.or (field "text") (field "thinking")) (field "partial_json")) (JStr "").

(** [text.length]; [text] is truthy or [""], so the read never throws. *)
Definition text_length (text : JsValue) : JsValue :=
  match Js.get text "length" with
  | Some n => n
  | None => JUndefined
  end.

Definition on_message_start (data : JsValue) (st : StreamState) (ses : Session)
    : Completion (StreamState * Session) :=
  match Js.get data "message" with
  | None => Throw (st, ses)
  | Some msg =>
      if Js.truthy msg then
        let id := default JUndefined (Js.get msg "id") in
        let st1 := if Js.truthy id then set_messageId id st else st in
        let m := default JUndefined (Js.get msg "model") in
        let st2 := if Js.truthy m then set_model m st1 else st1 in
        let u := default JUndefined (Js.get msg "usage") in
        let field k := Js.or (default JUndefined (Js.get u k)) (JNum 0) in
        let st3 :=
          if Js.truthy u then
            set_usage
              {| input_tokens := field "input_tokens";
                 output_tokens := field "output_tokens";
                 cache_creation_input_tokens := field "cache_creation_input_tokens";
                 cache_read_input_tokens := field "cache_read_input_tokens" |} st2
          else st2 in
        let ses' := set_lastModel (model st3) ses in
        if updateLiveStatus ses' then Normal (st3, ses') else Throw (st3, ses')
      else Normal (st, ses)
  end.

Definition on_content_block_start (data : JsValue) (st : StreamState) (ses : Session)
    : Completion (StreamState * Session) :=
  match Js.get data "content_block", Js.get data "index" with
  | Some block, Some i =>
      let idx := Js.nullish i (JNum (Z.of_nat (List.length (contentBlocks st)))) in
      if Js.truthy block then
        let ty := Js.or (default JUndefined (Js.get block "type")) (JStr "text") in
        Normal (set_contentBlocks
                  (contentBlocks st ++ [ {| index := idx; type := ty; charCount := ANum 0 |} ]) st,
                ses)
      else Normal (st, ses)
  | _, _ => Throw (st, ses)
  end.

Definition on_content_block_delta (data : JsValue) (st : StreamState) (ses : Session)
    : Completion (StreamState * Session) :=
  match Js.get data "index", Js.get data "delta" with
  | Some idx, Some delta =>
      if Js.truthy delta && negb (Js.strict_eq idx JUndefined) then
        match find_block idx (contentBlocks st) with
        | Some block =>
            match js_add (charCount block) (text_length (delta_text delta)) with
            | Some a => Normal (set_contentBlocks (update_block idx a (contentBlocks st)) st, ses)
            | None => Throw (st, ses)
            end
        | None => Normal (st, ses)
        end
      else Normal (st, ses)
  | _, _ => Throw (st, ses)
  end.

Definition on_message_delta (data : JsValue) (st : StreamState) (ses : Session)
    : Completion (StreamState * Session) :=
  match Js.get data "usage", Js.get data "delta" with
  | Some deltaUsage, Some d =>
      let st1 :=
        if Js.truthy deltaUsage then
          set_usage
            (set_output_tokens
               (Js.nullish (default JUndefined (Js.get deltaUsage "output_tokens"))
                           (output_tokens (usage st)))
               (usage st)) st
        else st in
      let st2 :=
        if Js.truthy d then
          let sr := default JUndefined (Js.get d "stop_reason") in
          if Js.truthy sr then set_stopReason sr st1 else st1
        else st1 in
      Normal (st2, ses)
  | _, _ => Throw (st, ses)
  end.

(** [processSSEEvent]; the [switch] compares [eventType] with [===]. *)
Definition processSSEEvent (evtType : JsValue) (data : JsValue)
    (st : StreamState) (ses : Session) : Completion (StreamState * Session) :=
  if Js.is_str "message_start" evtType then on_message_start data st ses
  else if Js.is_str "content_block_start" evtType then on_content_block_start data st ses
  else if Js.is_str "content_block_delta" evtType then on_content_block_delta data st ses
  else if Js.is_str "message_delta" evtType then on_message_delta data st ses
  else Normal (st, ses).

(** ** The event demuxer *)

(** One iteration of the loop of [processPendingBuffer].  The calls of
    [writeLog] are left out: each sits in a try/catch of its own and writes
    to the log file only.  The outer try/catch swallows the SyntaxError of
    [JSON.parse], the TypeError of [parsed.type] on [null] and whatever
    [processSSEEvent] throws; the mutations made before stay. *)
Definition processLine (line : string) (acc : PendingStream * Session)
    : PendingStream * Session :=
  let (pending, ses) := acc in
  if startsWith "event: " line then
    (set_eventType (trim (slice 7 line)) pending, ses)
  else if startsWith "data: " line then
    let data := slice 6 line in
    if String.eqb data "[DONE]" then (pending, ses)
    else
      match JSON_parse data with
      | None => (pending, ses)
      | Some parsed =>
          let evtType :=
            if Js.truthy (JStr (eventType pending)) then Some (JStr (eventType pending))
            else Js.get parsed "type" in
          match evtType with
          | None => (pending, ses)
          | Some evt =>
              let (st, ses') := outcome (processSSEEvent evt parsed (state pending) ses) in
              (set_state st pending, ses')
          end
      end
  else if String.eqb (trim line) "" then (set_eventType "" pending, ses)
  else (pending, ses).

(** [processPendingBuffer]: [lines.pop() || ""] keeps the text after the
    last line break; the lines before it are processed in order. *)
Definition processPendingBuffer (pending : PendingStream) (ses : Session)
    : PendingStream * Session :=
  let lines := split_lines (buffer pending) in
  let pending' := set_buffer (List.last lines "") pending in
  fold_left (fun acc line => processLine line acc) (removelast lines) (pending', ses).

(** ** The finalizer *)

(** One iteration of the loop over [state.contentBlocks]. *)
Definition add_chars (acc : Accum * Accum * Accum) (block : TrackedBlock)
    : option (Accum * Accum * Accum) :=
  let '(thinkingChars, textChars, toolUseChars) := acc in
  if Js.is_str "thinking" (type block) then
    match js_add thinkingChars (of_accum (charCount block)) with
    | Some a => Some (a, textChars, toolUseChars)
    | None => None
    end
  else if Js.is_str "text" (type block) then
    match js_add textChars (of_accum (charCount block)) with
    | Some a => Some (thinkingChars, a, toolUseChars)
    | None => None
    end
  else if Js.is_str "tool_use" (type block) then
    match js_add toolUseChars (of_accum (charCount block)) with
    | Some a => Some (thinkingChars, textChars, a)
    | None => None
    end
  else Some acc.

Fixpoint sum_chars (blocks : list TrackedBlock) (acc : Accum * Accum * Accum)
    : option (Accum * Accum * Accum) :=
  match blocks with
  | [] => Some acc
  | block :: rest =>
      match add_chars acc block with
      | Some acc' => sum_chars rest acc'
      | None => None
      end
  end.

(** The update of the cumulative totals, statement by statement. *)
Definition update_session (cost : Cost) (st : StreamState) (s : Session) : Completion Session :=
  let u := usage st in
  let s1 := {| totalCost := cost_add (totalCost s) cost; totalInput := totalInput s;
               totalOutput := totalOutput s; totalCacheRead := totalCacheRead s;
               totalCacheWrite := totalCacheWrite s; turns := turns s;
               lastModel := lastModel s; lastTurnCost := lastTurnCost s |} in
  match js_add (totalInput s1) (input_tokens u) with
  | None => Throw s1
  | Some a =>
  let s2 := {| totalCost := totalCost s1; totalInput := a;
               totalOutput := totalOutput s1; totalCacheRead := totalCacheRead s1;
               totalCacheWrite := totalCacheWrite s1; turns := turns s1;
               lastModel := lastModel s1; lastTurnCost := lastTurnCost s1 |} in
  match js_add (totalOutput s2) (output_tokens u) with
  | None => Throw s2
  | Some b =>
  let s3 := {| totalCost := totalCost s2; totalInput := totalInput s2;
               totalOutput := b; totalCacheRead := totalCacheRead s2;
               totalCacheWrite := totalCacheWrite s2; turns := turns s2;
               lastModel := lastModel s2; lastTurnCost := lastTurnCost s2 |} in
  match js_add (totalCacheRead s3) (Js.or (cache_read_input_tokens u) (JNum 0)) with
  | None => Throw s3
  | Some c =>
  let s4 := {| totalCost := totalCost s3; totalInput := totalInput s3;
               totalOutput := totalOutput s3; totalCacheRead := c;
               totalCacheWrite := totalCacheWrite s3; turns := turns s3;
               lastModel := lastModel s3; lastTurnCost := lastTurnCost s3 |} in
  match js_add (totalCacheWrite s4) (Js.or (cache_creation_input_tokens u) (JNum 0)) with
  | None => Throw s4
  | Some d =>
      Normal {| totalCost := totalCost s4; totalInput := totalInput s4;
                totalOutput := totalOutput s4; totalCacheRead := totalCacheRead s4;
                totalCacheWrite := d; turns := turns s4 + 1;
                lastModel := model st; lastTurnCost := cost |}
  end end end end.

Definition set_session (s : Session) (w : World) : World :=
  {| sessionId := sessionId w; turnCounter := turnCounter w; heap := heap w;
     pendingStreams := pendingStreams w; records := records w; session := s;
     sink := sink w; pricingConfig := pricingConfig w;
     userPricing := userPricing w; bundledPricing := bundledPricing w |}.

Definition push_record (r : ApiCallRecord) (w : World) : World :=
  {| sessionId := sessionId w; turnCounter := turnCounter w; heap := heap w;
     pendingStreams := pendingStreams w; records := records w ++ [r];
     session := session w; sink := sink w; pricingConfig := pricingConfig w;
     userPricing := userPricing w; bundledPricing := bundledPricing w |}.

(** [writeRecord] appends a line to the JSONL file. *)
Definition append_sink (r : ApiCallRecord) (w : World) : World :=
  {| sessionId := sessionId w; turnCounter := turnCounter w; heap := heap w;
     pendingStreams := pendingStreams w; records := records w;
     session := session w; sink := sink w ++ [r]; pricingConfig := pricingConfig w;
     userPricing := userPricing w; bundledPricing := bundledPricing w |}.

(** The record literal of [finalizeStream]. *)
Definition make_record (env : Env) (w : World) (pending : PendingStream)
    (chars : Accum * Accum * Accum) (cost : Cost) : ApiCallRecord :=
  let st := state pending in
  let '(thinkingChars, textChars, toolUseChars) := chars in
  {| session_id := sessionId w;
     message_id := messageId st;
     rec_model := model st;
     timestamp := now_iso env;
     rec_input_tokens := input_tokens (usage st);
     rec_output_tokens := output_tokens (usage st);
     rec_cache_creation_input_tokens := Js.or (cache_creation_input_tokens (usage st)) (JNum 0);
     rec_cache_read_input_tokens := Js.or (cache_read_input_tokens (usage st)) (JNum 0);
     thinking_chars := thinkingChars;
     text_chars := textChars;
     tool_use_chars := toolUseChars;
     stop_reason := stopReason st;
     cost_usd := cost;
     cwd := env_cwd env;
     turn_number := turnNum pending;
     duration_ms := now_ms env - startTime pending |}.

Definition set_pricingConfig (cache : option PricingValue) (w : World) : World :=
  {| sessionId := sessionId w; turnCounter := turnCounter w; heap := heap w;
     pendingStreams := pendingStreams w; records := records w;
     session := session w; sink := sink w; pricingConfig := cache;
     userPricing := userPricing w; bundledPricing := bundledPricing w |}.

(** The call of [calculateCost] in [finalizeStream]: the cost, [None] when
    the call throws, and the cache of [loadPricing] afterwards. *)
Definition stream_cost (w : World) (st : StreamState) : option Cost * option PricingValue :=
  calculateCost (userPricing w) (bundledPricing w) (pricingConfig w) (model st)
    (input_tokens (usage st)) (output_tokens (usage st))
    (Js.or (cache_creation_input_tokens (usage st)) (JNum 0))
    (Js.or (cache_read_input_tokens (usage st)) (JNum 0)).

(** [finalizeStream].  It reads the stream and neither looks at nor changes
    [pendingStreams].  An exception of [calculateCost] comes before
    [records.push]; the table [loadPricing] has read by then stays in its
    cache.  The run is one without [--coo-verbose], so nothing is written
    to stderr; the [stream_end] log entry is left out: it sits in a
    try/catch of its own and writes to the log file only.  [process.cwd()]
    is taken to return. *)
Definition finalizeStream (env : Env) (pending : PendingStream) (w : World) : Completion World :=
  let st := state pending in
  match sum_chars (contentBlocks st) (ANum 0, ANum 0, ANum 0) with
  | None => Throw w
  | Some chars =>
      let w0 := set_pricingConfig (snd (stream_cost w st)) w in
      match fst (stream_cost w st) with
      | None => Throw w0
      | Some cost =>
          let record := make_record env w pending chars cost in
          let w1 := push_record record w0 in
          match update_session cost st (session w1) with
          | Throw s => Throw (set_session s w1)
          | Normal s =>
              let w2 := set_session s w1 in
              if updateLiveStatus s then
                Normal (if sink_ok env then append_sink record w2 else w2)
              else Throw w2
          end
      end
  end.

(** ** The interception shim and the exit handler *)

Definition set_heap (t : nat) (p : PendingStream) (w : World) : World :=
  {| sessionId := sessionId w; turnCounter := turnCounter w;
     heap := <[t := p]> (heap w);
     pendingStreams := pendingStreams w; records := records w;
     session := session w; sink := sink w; pricingConfig := pricingConfig w;
     userPricing := userPricing w; bundledPricing := bundledPricing w |}.

Definition set_pendingStreams (l : list nat) (w : World) : World :=
  {| sessionId := sessionId w; turnCounter := turnCounter w; heap := heap w;
     pendingStreams := l; records := records w;
     session := session w; sink := sink w; pricingConfig := pricingConfig w;
     userPricing := userPricing w; bundledPricing := bundledPricing w |}.

(** [pendingStreams.delete(turnNum)]. *)
Definition pending_delete (t : nat) (w : World) : World :=
  set_pendingStreams (List.filter (fun k => negb (Nat.eqb k t)) (pendingStreams w)) w.

(** [pendingStreams.set(turnNum, pending)]: a new key goes last. *)
Definition pending_set (t : nat) (w : World) : World :=
  if existsb (Nat.eqb t) (pendingStreams w) then w
  else set_pendingStreams (pendingStreams w ++ [t]) w.

Definition new_pending (requestModel : JsValue) (t : nat) (start : Z) : PendingStream :=
  {| state := {| messageId := JNull; model := requestModel;
                 usage := {| input_tokens := JNum 0; output_tokens := JNum 0;
                             cache_creation_input_tokens := JUndefined;
                             cache_read_input_tokens := JUndefined |};
                 stopReason := JNull; contentBlocks := [] |};
     requestModel := requestModel; turnNum := t; startTime := start;
     buffer := ""; eventType := "" |}.

(** [interceptedFetch] for a call that matches the messages endpoint:
    [turnCounter++] always, and a pending stream when the response is an
    event stream.  Returns the turn number. *)
Definition interceptedFetch (requestModel : JsValue) (start : Z) (is_event_stream : bool)
    (w : World) : World * nat :=
  let t := S (turnCounter w) in
  let w1 := {| sessionId := sessionId w; turnCounter := t; heap := heap w;
               pendingStreams := pendingStreams w; records := records w;
               session := session w; sink := sink w; pricingConfig := pricingConfig w;
     userPricing := userPricing w; bundledPricing := bundledPricing w |} in
  if is_event_stream then
    (pending_set t (set_heap t (new_pending requestModel t start) w1), t)
  else (w1, t).

(** [processPendingBuffer(pending)] on the object of turn [t]. *)
Definition process_in_heap (t : nat) (w : World) : World :=
  match heap w !! t with
  | None => w
  | Some pending =>
      let (pending', ses) := processPendingBuffer pending (session w) in
      set_session ses (set_heap t pending' w)
  end.

(** [pending.buffer += text; processPendingBuffer(pending)]. *)
Definition feed (t : nat) (text : string) (w : World) : World :=
  match heap w !! t with
  | None => w
  | Some pending =>
      process_in_heap t (set_heap t (set_buffer (buffer pending ++ text) pending) w)
  end.

(** The body of [if (result.done)]: on an exception of [finalizeStream] the
    [delete] is skipped. *)
Definition on_done (t : nat) (tail : string) (env : Env) (w : World) : World :=
  let w1 := feed t tail w in
  match heap w1 !! t with
  | None => w1
  | Some pending =>
      match finalizeStream env pending w1 with
      | Normal w2 => pending_delete t w2
      | Throw w2 => w2
      end
  end.

(** What [wrapReader] and the wrapped async iterator close over. *)
Record Reader : Type := {
  reader_turn : nat;
  reader_decoder : DecoderState
}.

Definition wrapReader (t : nat) : Reader :=
  {| reader_turn := t; reader_decoder := decoder_new |}.

(** The result of the original [read()] or [next()]. *)
Record ReadResult : Type := {
  value : option (list Byte.byte);
  done : bool
}.

(** The wrapped [read] (and, with the same body, the wrapped [next]).  The
    final [decode()] flushes the decoder and leaves it as new. *)
Definition read (result : ReadResult) (env : Env) (r : Reader) (w : World) : Reader * World :=
  let (r1, w1) :=
    match value result with
    | Some bytes =>
        let (d, text) := decode (reader_decoder r) bytes in
        ({| reader_turn := reader_turn r; reader_decoder := d |},
         feed (reader_turn r) text w)
    | None => (r, w)
    end in
  if done result then
    ({| reader_turn := reader_turn r1; reader_decoder := decoder_new |},
     on_done (reader_turn r1) (decode_end (reader_decoder r1)) env w1)
  else (r1, w1).

(** One iteration of the loop of the exit handler. *)
Definition flush_one (env_at : nat -> Env) (w : World) (t : nat) : World :=
  let w1 := process_in_heap t w in
  match heap w1 !! t with
  | None => w1
  | Some pending => outcome (finalizeStream (env_at t) pending w1)
  end.

(** The handler of [process.on("exit")]; [env_at t] is what the machine
    answers while stream [t] is finalized. *)
Definition exitHandler (env_at : nat -> Env) (w : World) : World :=
  set_pendingStreams [] (fold_left (flush_one env_at) (pendingStreams w) w).

(** ** Notions the statements below use *)

(** The loop of [processPendingBuffer] over the complete lines. *)
Definition process_lines (ls : list string) (acc : PendingStream * Session)
    : PendingStream * Session :=
  fold_left (fun a l => processLine l a) ls acc.

(** [pending.buffer += text; processPendingBuffer(pending)] on the object
    itself. *)
Definition absorb (text : string) (acc : PendingStream * Session) : PendingStream * Session :=
  processPendingBuffer (set_buffer (buffer (fst acc) ++ text) (fst acc)) (snd acc).

(** The events of one stream applied in arrival order, as the loop of
    [processPendingBuffer] applies them: an exception ends one event only. *)
Definition run_events (events : list (JsValue * JsValue)) (acc : StreamState * Session)
    : StreamState * Session :=
  fold_left (fun a e => outcome (processSSEEvent (fst e) (snd e) (fst a) (snd a))) events acc.

(** The event types [processSSEEvent] has a case for. *)
Definition event_types : list string :=
  ["message_start"; "content_block_start"; "content_block_delta"; "message_delta"].

(** The host delivers the chunks one [read()] at a time. *)
Definition stream_chunks (chunks : list (list Byte.byte)) (env : Env) (rw : Reader * World)
    : Reader * World :=
  fold_left (fun a bytes => read {| value := Some bytes; done := false |} env (fst a) (snd a))
            chunks rw.

(** The transport signals completion: [{ value: undefined, done: true }]. *)
Definition end_of_stream (env : Env) (rw : Reader * World) : Reader * World :=
  read {| value := None; done := true |} env (fst rw) (snd rw).

(** The record [finalizeStream] builds for a stream, when it gets as far as
    building one. *)
Definition record_of (env : Env) (w : World) (pending : PendingStream) : option ApiCallRecord :=
  let st := state pending in
  match sum_chars (contentBlocks st) (ANum 0, ANum 0, ANum 0) with
  | None => None
  | Some chars =>
      match fst (stream_cost w st) with
      | None => None
      | Some cost => Some (make_record env w pending chars cost)
      end
  end.

(** What [loadPricing] returns in this state of the cache and the disk;
    [None] when it throws. *)
Definition loaded_pricing (w : World) : option PricingValue :=
  fst (loadPricing (userPricing w) (bundledPricing w) (pricingConfig w)).

(** The characters of the blocks of one type, added up: what the three
    totals of a record are meant to be. *)
Fixpoint chars_of (kind : string) (blocks : list TrackedBlock) : Z :=
  match blocks with
  | [] => 0
  | block :: rest =>
      (if Js.is_str kind (type block)
       then match charCount block with ANum n => n | _ => 0 end
       else 0) + chars_of kind rest
  end.

Definition record_for (env_at : nat -> Env) (w : World) (t : nat) : option ApiCallRecord :=
  match heap w !! t with
  | Some pending => record_of (env_at t) w pending
  | None => None
  end.

(** A buffer between two callbacks holds an incomplete line. *)
Fixpoint no_line_break (s : string) : bool :=
  match s with
  | EmptyString => true
  | String c s' => negb (Ascii.eqb c LF) && no_line_break s'
  end.

Definition buffers_ok (w : World) : Prop :=
  forall t p, heap w !! t = Some p -> no_line_break (buffer p) = true.

(** Every object of the heap sits under its own turn number. *)
Definition heap_ok (w : World) : Prop :=
  forall t p, heap w !! t = Some p -> turnNum p = t.

(** The values have the types the TypeScript interfaces declare. *)
Definition is_num (v : JsValue) : bool :=
  match v with JNum _ => true | _ => false end.

Definition is_opt_num (v : JsValue) : bool :=
  match v with JNum _ | JUndefined => true | _ => false end.

Definition is_anum (a : Accum) : bool :=
  match a with ANum _ => true | _ => false end.

Definition typed_usage (u : ApiUsage) : bool :=
  is_num (input_tokens u) && is_num (output_tokens u) &&
  is_opt_num (cache_creation_input_tokens u) && is_opt_num (cache_read_input_tokens u).

Definition typed_state (st : StreamState) : bool :=
  Js.is_string (model st) && typed_usage (usage st) &&
  forallb (fun b => is_anum (charCount b)) (contentBlocks st).

Definition typed_session (s : Session) : bool :=
  is_anum (totalInput s) && is_anum (totalOutput s) &&
  is_anum (totalCacheRead s) && is_anum (totalCacheWrite s).

(** A payload field that is a number, or absent, or [null]. *)
Definition num_or_absent (v : JsValue) : bool :=
  match v with JNum _ | JUndefined | JNull => true | _ => false end.

(** A payload field that is a string, or absent, or [null]. *)
Definition str_or_absent (v : JsValue) : bool :=
  match v with JStr _ | JUndefined | JNull => true | _ => false end.

(** The payload has the shape the wire format gives the event: a string
    model and numeric usage counters in [message_start], a numeric output
    count in [message_delta], text of a countable length in
    [content_block_delta]. *)
Definition typed_payload (evt data : JsValue) : bool :=
  let field v k := default JUndefined (Js.get v k) in
  if Js.is_str "message_start" evt then
    let msg := field data "message" in
    if Js.truthy msg then
      str_or_absent (field msg "model") &&
      (let u := field msg "usage" in
       if Js.truthy u then
         num_or_absent (field u "input_tokens") && num_or_absent (field u "output_tokens") &&
         num_or_absent (field u "cache_creation_input_tokens") &&
         num_or_absent (field u "cache_read_input_tokens")
       else true)
    else true
  else if Js.is_str "content_block_delta" evt then
    let delta := field data "delta" in
    if Js.truthy delta then is_num (text_length (delta_text delta)) else true
  else if Js.is_str "message_delta" evt then
    let du := field data "usage" in
    if Js.truthy du then num_or_absent (field du "output_tokens") else true
  else true.

End InterceptorModel.

(** The complete lines of a text and the fragment after the last line
    break, computed together. *)
Fixpoint cut (s : string) : list string * string :=
  match s with
  | EmptyString => ([], EmptyString)
  | String c s' =>
      let (ls, f) := cut s' in
      if Ascii.eqb c LF then (EmptyString :: ls, f)
      else match ls with
           | [] => ([], String c f)
           | h :: t => (String c h :: t, f)
           end
  end.

(** ** src/interceptor.ts: the request side of [interceptedFetch] *)

(** [isAnthropicMessagesCall]. *)
Definition isAnthropicMessagesCall (url : string) : bool :=
  includes "/v1/messages" url && negb (includes "/v1/messages/batches" url).







Section RequestModel.
Context `{Host}.

(** The [if (init?.body) { try { ... } catch {} }] block of
    [interceptedFetch], for a body that is a string or decodes to one;
    [None] is a call without a body.  The result is [requestModel] and
    [requestBody]; the assignment to [requestBody] is made before [.model]
    is read and stays when that read throws. *)
Definition parse_request (body : option string) : JsValue * JsValue :=
  match body with
  | None => (JStr "unknown", JNull)
  | Some text =>
      match JSON_parse text with
      | None => (JStr "unknown", JNull)
      | Some parsed =>
          match Js.get parsed "model" with
          | None => (JStr "unknown", parsed)
          | Some m => (Js.or m (JStr "unknown"), parsed)
          end
      end
  end.

(** ** src/recorder.ts and src/db.ts: where a record goes *)

(** A row of the table [sessions]. *)
Record SessionRow : Type := {
  row_session_id : string;
  first_seen : string;
  last_seen : string;
  row_cwd : string;
  total_calls : Z;
  total_cost : Cost
}.

(** The two tables of [usage.db]. *)
Record Database : Type := {
  api_calls : list ApiCallRecord;
  sessions : list SessionRow
}.

(** [insertApiCall]: one [INSERT INTO api_calls]. *)
Definition insertApiCall (record : ApiCallRecord) (db : Database) : Database :=
  {| api_calls := api_calls db ++ [record]; sessions := sessions db |}.

(** [SELECT ... FROM sessions WHERE session_id = ?]. *)
Definition select_session (sid : string) (db : Database) : option SessionRow :=
  List.find (fun row => String.eqb (row_session_id row) sid) (sessions db).

(** [upsertSession]: an [UPDATE] of the rows with that id when the [SELECT]
    finds one, an [INSERT] otherwise.  The sum of costs is the host's, as
    in the live totals. *)
Definition upsertSession (record : ApiCallRecord) (db : Database) : Database :=
  match select_session (session_id record) db with
  | Some _ =>
      {| api_calls := api_calls db;
         sessions :=
           List.map (fun row =>
             if String.eqb (row_session_id row) (session_id record) then
               {| row_session_id := row_session_id row;
                  first_seen := first_seen row;
                  last_seen := timestamp record;
                  row_cwd := row_cwd row;
                  total_calls := total_calls row + 1;
                  total_cost := cost_add (total_cost row) (cost_usd record) |}
             else row) (sessions db) |}
  | None =>
      {| api_calls := api_calls db;
         sessions := sessions db ++
           [ {| row_session_id := session_id record;
                first_seen := timestamp record;
                last_seen := timestamp record;
                row_cwd := cwd record;
                total_calls := 1;
                total_cost := cost_usd record |} ] |}
  end.

(** The JSONL files under [~/.claudeoo/sessions], every line with the
    session it belongs to, and the database. *)
Record Store : Type := {
  jsonl : list ApiCallRecord;
  database : Database
}.

(** What the machine does to one call of [writeRecord]: whether the
    directories and the JSONL file can be written, and whether each of the
    two SQLite calls returns. *)
Record Faults : Type := {
  fs_ok : bool;
  insert_ok : bool;
  upsert_ok : bool
}.

(** [writeRecord]. *)
Definition writeRecord (record : ApiCallRecord) (noDb : bool) (faults : Faults) (s : Store)
    : Completion Store :=
  if fs_ok faults then
    let s1 := {| jsonl := jsonl s ++ [record]; database := database s |} in
    if noDb then Normal s1
    else if insert_ok faults then
      let db1 := insertApiCall record (database s1) in
      if upsert_ok faults then
        Normal {| jsonl := jsonl s1; database := upsertSession record db1 |}
      else Normal {| jsonl := jsonl s1; database := db1 |}
    else Normal s1
  else Throw s.

(** The rows of [api_calls] of one session, oldest first. *)
Definition session_calls (sid : string) (db : Database) : list ApiCallRecord :=
  List.filter (fun r => String.eqb (session_id r) sid) (api_calls db).

(** The summary the calls of a session add up to, in the order
    [upsertSession] adds them up. *)
Definition summary_of (sid : string) (calls : list ApiCallRecord) : option SessionRow :=
  match calls with
  | [] => None
  | first :: rest =>
      Some {| row_session_id := sid;
              first_seen := timestamp first;
              last_seen := timestamp (List.last rest first);
              row_cwd := cwd first;
              total_calls := Z.of_nat (List.length calls);
              total_cost := fold_left (fun c r => cost_add c (cost_usd r)) rest (cost_usd first) |}
  end.

(** Every session with calls has exactly one row, and the row is the
    summary of its calls. *)
Definition db_consistent (db : Database) : Prop :=
  NoDup (List.map row_session_id (sessions db)) /\
  (forall row, In row (sessions db) ->
     summary_of (row_session_id row) (session_calls (row_session_id row) db) = Some row) /\
  (forall r, In r (api_calls db) -> In (session_id r) (List.map row_session_id (sessions db))).

(** ** src/interceptor.ts: invariants of the module state *)


(** A block after some more events: same index, same type, and a count that
    has not gone down. *)
Definition block_le (b b' : TrackedBlock) : Prop :=
  index b' = index b /\ type b' = type b /\
  exists c c', charCount b = ANum c /\ charCount b' = ANum c' /\ c <= c'.

(** The block list after some more events: the old blocks in place, new
    ones behind them. *)
Definition blocks_extend (bs bs' : list TrackedBlock) : Prop :=
  exists kept extra, bs' = (kept ++ extra)%list /\ Forall2 block_le bs kept.

(** The text of a delta is a string or an array, whose [length] is a
    natural number. *)
Definition countable_delta (evt data : JsValue) : bool :=
  if Js.is_str "content_block_delta" evt then
    let delta := default JUndefined (Js.get data "delta") in
    if Js.truthy delta then
      match delta_text delta with
      | JStr _ | JArr _ => true
      | _ => false
      end
    else true
  else true.

(** A value a record can carry for a token count: it is there. *)
Definition present (v : JsValue) : bool :=
  match v with JUndefined | JNull => false | _ => true end.

(** The fields of the state that go into a record unchecked are there: a
    truthy model and both token counts. *)
Definition fields_present (st : StreamState) : bool :=
  Js.truthy (model st) && present (input_tokens (usage st)) &&
  present (output_tokens (usage st)).

(** The number a record carries in a counter, [0] for what is no number. *)
Definition num_of (v : JsValue) : Z :=
  match v with JNum n => n | _ => 0 end.

Definition sum_of (f : ApiCallRecord -> JsValue) (rs : list ApiCallRecord) : Z :=
  fold_right (fun r acc => num_of (f r) + acc) 0 rs.

(** The live totals of the session are the sums over the records emitted so
    far; the cost is added up from [start] in emission order. *)
Definition ledger_matches (start : Cost) (w : World) : Prop :=
  totalInput (session w) = ANum (sum_of rec_input_tokens (records w)) /\
  totalOutput (session w) = ANum (sum_of rec_output_tokens (records w)) /\
  totalCacheRead (session w) = ANum (sum_of rec_cache_read_input_tokens (records w)) /\
  totalCacheWrite (session w) = ANum (sum_of rec_cache_creation_input_tokens (records w)) /\
  turns (session w) = Z.of_nat (List.length (records w)) /\
  totalCost (session w) = fold_left (fun c r => cost_add c (cost_usd r)) (records w) start.

(** Chunks of several streams in the order the callbacks deliver them,
    each with the turn it belongs to. *)
Definition feed_chunks (chunks : list (nat * string)) (w : World) : World :=
  fold_left (fun w' chunk => feed (fst chunk) (snd chunk) w') chunks w.

(** Two values of the session object with the same totals; the model shown
    in the title may differ. *)
Definition same_totals (s s' : Session) : Prop :=
  totalCost s' = totalCost s /\ totalInput s' = totalInput s /\
  totalOutput s' = totalOutput s /\ totalCacheRead s' = totalCacheRead s /\
  totalCacheWrite s' = totalCacheWrite s /\ turns s' = turns s /\
  lastTurnCost s' = lastTurnCost s.

End RequestModel.

(** ** src/format.ts *)

(** [" ".repeat(n)]. *)
Fixpoint spaces (n : nat) : string :=
  match n with
  | O => EmptyString
  | S n' => String " " (spaces n')
  end.

(** [padRight], for an integral [len]. *)
Definition padRight (s : string) (len : Z) : string :=
  if Z.of_nat (String.length s) >=? len then s
  else s ++ spaces (Z.to_nat (len - Z.of_nat (String.length s))).



(** ** src/export.ts *)




Section ExportModel.

(** [String(v)] of the host, called on what is neither [null], [undefined]
    nor a string that needs quotes; on a string it is the identity. *)
Variable js_String : JsValue -> string.



End ExportModel.

(** ** The command line (the entry script) *)

Inductive Command : Type :=
| CmdRun | CmdVersion | CmdHelp | CmdStats | CmdSessions | CmdSession | CmdExport | CmdPricing.

Inductive StatsRange : Type := RangeToday | RangeWeek | RangeAll.

Inductive ExportFormat : Type := FormatCsv | FormatJson.

Record CliOptions : Type := {
  command : Command;
  claudeArgs : list string;
  verbose : bool;
  noDb : bool;
  statsRange : StatsRange;
  sessionsLimit : Z;
  opt_sessionId : option string;     (* [None] is [null] *)
  exportFormat : ExportFormat;
  exportOutput : option string;      (* [None] is [null] *)
  pricingShow : bool
}.

(** The digits at the head of [s], read in base ten; [acc] is [None] until
    the first digit. *)
Fixpoint digits_prefix (s : string) (acc : option Z) : option Z :=
  match s with
  | String c s' =>
      if is_digit c then
        digits_prefix s' (Some (10 * default 0 acc + (Z.of_nat (nat_of_ascii c) - 48)))
      else acc
  | EmptyString => acc
  end.

(** [parseInt(s, 10)]; [None] is [NaN].  Exact where the double is, below
    2^53. *)
Definition parseInt (s : string) : option Z :=
  match trimStart s with
  | String c rest =>
      if Ascii.eqb c "-"%char then option_map Z.opp (digits_prefix rest None)
      else if Ascii.eqb c "+"%char then digits_prefix rest None
      else digits_prefix (String c rest) None
  | EmptyString => None
  end.

(** [parseInt(s, 10) || 10]. *)
Definition parse_limit (s : string) : Z :=
  match parseInt s with
  | Some n => if n =? 0 then 10 else n
  | None => 10
  end.

(** The first loop of [parseArgs]: what is left without claudeoo's own
    flags. *)
Fixpoint strip_flags (args : list string) : list string :=
  match args with
  | [] => []
  | arg :: rest =>
      if String.eqb arg "--coo-verbose" then strip_flags rest
      else if String.eqb arg "--coo-no-db" then strip_flags rest
      else arg :: strip_flags rest
  end.

(** The loop of the [stats] branch, from [i = 1] on. *)
Fixpoint stats_loop (rest : list string) (range : StatsRange) : StatsRange :=
  match rest with
  | [] => range
  | arg :: rest' =>
      stats_loop rest'
        (if String.eqb arg "--today" then RangeToday
         else if String.eqb arg "--week" then RangeWeek
         else if String.eqb arg "--all" then RangeAll
         else range)
  end.

(** The loop of the [sessions] branch: [remaining[i + 1]] is truthy when it
    is there and not empty, and [++i] skips it. *)
Fixpoint sessions_loop (rest : list string) (limit : Z) : Z :=
  match rest with
  | [] => limit
  | arg :: rest' =>
      match rest' with
      | next :: rest'' =>
          if String.eqb arg "--limit" && negb (String.eqb next "") then
            sessions_loop rest'' (parse_limit next)
          else sessions_loop rest' limit
      | [] => limit
      end
  end.

(** The loop of the [export] branch. *)
Fixpoint export_loop (rest : list string) (acc : ExportFormat * option string)
    : ExportFormat * option string :=
  match rest with
  | [] => acc
  | arg :: rest' =>
      match rest' with
      | next :: rest'' =>
          if String.eqb arg "--format" && negb (String.eqb next "") then
            export_loop rest''
              (if String.eqb next "csv" then FormatCsv
               else if String.eqb next "json" then FormatJson
               else fst acc,
               snd acc)
          else if String.eqb arg "--output" && negb (String.eqb next "") then
            export_loop rest'' (fst acc, Some next)
          else export_loop rest' acc
      | [] => acc
      end
  end.

(** [parseArgs]. *)
Definition parseArgs (argv : list string) : CliOptions :=
  let args := skipn 2 argv in
  let opts cmd cargs range limit sid fmt out show :=
    {| command := cmd; claudeArgs := cargs;
       verbose := existsb (String.eqb "--coo-verbose") args;
       noDb := existsb (String.eqb "--coo-no-db") args;
       statsRange := range; sessionsLimit := limit; opt_sessionId := sid;
       exportFormat := fmt; exportOutput := out; pricingShow := show |} in
  let remaining := strip_flags args in
  match remaining with
  | [] => opts CmdRun [] RangeToday 10 None FormatCsv None false
  | first :: rest =>
      if String.eqb first "--version" || String.eqb first "-v" then
        opts CmdVersion [] RangeToday 10 None FormatCsv None false
      else if String.eqb first "--help" || String.eqb first "-h" then
        opts CmdHelp [] RangeToday 10 None FormatCsv None false
      else if String.eqb first "stats" then
        opts CmdStats [] (stats_loop rest RangeToday) 10 None FormatCsv None false
      else if String.eqb first "sessions" then
        opts CmdSessions [] RangeToday (sessions_loop rest 10) None FormatCsv None false
      else if String.eqb first "session" then
        opts CmdSession [] RangeToday 10
          (match rest with
           | id :: _ => if String.eqb id "" then None else Some id
           | [] => None
           end)
          FormatCsv None false
      else if String.eqb first "export" then
        let (fmt, out) := export_loop rest (FormatCsv, None) in
        opts CmdExport [] RangeToday 10 None fmt out false
      else if String.eqb first "pricing" then
        opts CmdPricing [] RangeToday 10 None FormatCsv None
          (existsb (String.eqb "--show") remaining)
      else opts CmdRun remaining RangeToday 10 None FormatCsv None false
  end.

(** ** src/run.ts and src/interceptor-loader.js: the environment hand-off *)

(** [process.env]; a variable that is not set reads [undefined]. *)
Definition EnvVars : Type := string -> option string.

(** The [env] that [runClaude] passes to [spawn]: the launcher's own
    variables, the three of claudeoo over them, [CLAUDECODE] deleted. *)
Definition child_env (parent : EnvVars) (sessionId : string) (verbose noDb : bool) : EnvVars :=
  fun name =>
    if String.eqb name "CLAUDECODE" then None
    else if String.eqb name "CLAUDEOO_NO_DB" then Some (if noDb then "1" else "0")
    else if String.eqb name "CLAUDEOO_VERBOSE" then Some (if verbose then "1" else "0")
    else if String.eqb name "CLAUDEOO_SESSION_ID" then Some sessionId
    else parent name.

(** What the loader passes to [initInterceptor]: [sessionId], [verbose],
    [noDb]. *)
Definition loader_options (env : EnvVars) : string * bool * bool :=
  (match env "CLAUDEOO_SESSION_ID" with
   | Some id => if String.eqb id "" then "unknown" else id
   | None => "unknown"
   end,
   match env "CLAUDEOO_VERBOSE" with Some v => String.eqb v "1" | None => false end,
   match env "CLAUDEOO_NO_DB" with Some v => String.eqb v "1" | None => false end).

(** ** A host and a stream to run the model on *)

Module Sample.

(** Sample texts are written with apostrophes; [quote] turns them into the
    double quotes of JSON. *)
Fixpoint quote (s : string) : string :=
  match s with
  | EmptyString => EmptyString
  | String c s' => String (if Ascii.eqb c "'"%char then "034"%char else c) (quote s')
  end.

(** [+] on a counter: exact when both operands are integers, and when the
    right one is [undefined] or [NaN]; the examples add nothing else. *)
Definition add (a : Accum) (v : JsValue) : option Accum :=
  match a, v with
  | ANum x, JNum y => Some (ANum (x + y))
  | _, _ => Some ANaN
  end.

(** Prices in hundredths of a dollar per million tokens. *)
Record Prices : Type := {
  p_input : Z;
  p_output : Z;
  p_cacheWrite : Z;
  p_cacheRead : Z
}.

(** The cost in units of 1e-8 dollar, computed exactly; [None] is [NaN]. *)
Definition formula (pricing : option Prices) (i o cw cr : JsValue) : option (option Z) :=
  match pricing, i, o, cw, cr with
  | Some p, JNum a, JNum b, JNum c, JNum d =>
      Some (Some (a * p_input p + b * p_output p + c * p_cacheWrite p + d * p_cacheRead p))
  | _, _, _, _, _ => Some None
  end.

Definition cost_sum (a b : option Z) : option Z :=
  match a, b with
  | Some x, Some y => Some (x + y)
  | _, _ => None
  end.

Definition message_start_json : JsValue :=
  JObj [("type", JStr "message_start");
        ("message",
         JObj [("id", JStr "msg_1"); ("model", JStr "claude-opus-4-6");
               ("usage", JObj [("input_tokens", JNum 100); ("output_tokens", JNum 0)])])].

Definition block_start_json : JsValue :=
  JObj [("type", JStr "content_block_start"); ("index", JNum 0);
        ("content_block", JObj [("type", JStr "text"); ("text", JStr "")])].

Definition delta_json (text : string) : JsValue :=
  JObj [("type", JStr "content_block_delta"); ("index", JNum 0);
        ("delta", JObj [("type", JStr "text_delta"); ("text", JStr text)])].

Definition message_delta_json : JsValue :=
  JObj [("type", JStr "message_delta");
        ("delta", JObj [("stop_reason", JStr "end_turn")]);
        ("usage", JObj [("output_tokens", JNum 50)])].

Definition ping_json : JsValue := JObj [("type", JStr "ping")].

Definition message_start_text : string :=
  quote "{'type':'message_start','message':{'id':'msg_1','model':'claude-opus-4-6','usage':{'input_tokens':100,'output_tokens':0}}}".

Definition block_start_text : string :=
  quote "{'type':'content_block_start','index':0,'content_block':{'type':'text','text':''}}".

Definition delta1_text : string :=
  quote "{'type':'content_block_delta','index':0,'delta':{'type':'text_delta','text':'Hello'}}".

Definition delta2_text : string :=
  quote "{'type':'content_block_delta','index':0,'delta':{'type':'text_delta','text':', world'}}".

Definition message_delta_text : string :=
  quote "{'type':'message_delta','delta':{'stop_reason':'end_turn'},'usage':{'output_tokens':50}}".

Definition ping_text : string := quote "{'type':'ping'}".

(** A payload cut short: [JSON.parse] rejects it. *)
Definition broken_text : string := quote "{'type':'content_block_delta','index':0,'del".

(** [JSON.parse] on the payloads of the sample stream; any other text of
    the examples is no JSON. *)
Definition parse (s : string) : option JsValue :=
  if String.eqb s message_start_text then Some message_start_json
  else if String.eqb s block_start_text then Some block_start_json
  else if String.eqb s delta1_text then Some (delta_json "Hello")
  else if String.eqb s delta2_text then Some (delta_json ", world")
  else if String.eqb s message_delta_text then Some message_delta_json
  else if String.eqb s ping_text then Some ping_json
  else None.

(** A decoder for single-byte text: one code unit per byte, no state. *)
Definition host : Host :=
  {| JSON_parse := parse;
     js_add := add;
     Cost := option Z;
     cost_zero := Some 0;
     cost_add := cost_sum;
     ModelPricing := Prices;
     model_pricing := Build_Prices;
     cost_formula := formula;
     DecoderState := unit;
     decoder_new := tt;
     decode := fun _ bytes => (tt, string_of_list_byte bytes);
     decode_end := fun _ => EmptyString |}.

Definition opus : Prices :=
  {| p_input := 500; p_output := 2500; p_cacheWrite := 625; p_cacheRead := 50 |}.

Definition sonnet : Prices :=
  {| p_input := 300; p_output := 1500; p_cacheWrite := 375; p_cacheRead := 30 |}.

Definition haiku : Prices :=
  {| p_input := 100; p_output := 500; p_cacheWrite := 125; p_cacheRead := 10 |}.

Definition usd (c : option Z) : Cost (Host := host) := c.

Definition session0 : Session (H := host) :=
  {| totalCost := usd (Some 0); totalInput := ANum 0; totalOutput := ANum 0;
     totalCacheRead := ANum 0; totalCacheWrite := ANum 0; turns := 0;
     lastModel := JStr "unknown"; lastTurnCost := usd (Some 0) |}.

(** The module-level state after [initInterceptor]: nothing priced yet, and
    no pricing file on the disk, so that the inline table is used. *)
Definition world0 : World (H := host) :=
  {| sessionId := "session-1"; turnCounter := 0; heap := ∅; pendingStreams := [];
     records := []; session := session0; sink := []; pricingConfig := None;
     userPricing := FileAbsent; bundledPricing := FileAbsent |}.

Definition env0 : Env :=
  {| now_ms := 1500; now_iso := "2026-02-21T00:00:01.500Z"; env_cwd := "/work"; sink_ok := true |}.

Definition line (s : string) : string := s ++ String LF "".

Definition event (name payload : string) : string :=
  line ("event: " ++ name) ++ line ("data: " ++ payload) ++ line "".

(** A stream cut off after [message_start] and two deltas. *)
Definition partial_transcript : string :=
  event "message_start" message_start_text ++
  event "content_block_delta" delta1_text ++
  event "content_block_delta" delta2_text.

Definition full_transcript : string :=
  event "message_start" message_start_text ++
  event "content_block_start" block_start_text ++
  event "content_block_delta" delta1_text ++
  event "ping" ping_text ++
  event "content_block_delta" delta2_text ++
  event "message_delta" message_delta_text.

(** A state with one text block open at index 0. *)
Definition state1 : StreamState :=
  {| messageId := JStr "msg_1"; model := JStr "claude-opus-4-6";
     usage := {| input_tokens := JNum 100; output_tokens := JNum 0;
                 cache_creation_input_tokens := JNum 0; cache_read_input_tokens := JNum 0 |};
     stopReason := JNull;
     contentBlocks := [ {| index := JNum 0; type := JStr "text"; charCount := ANum 3 |} ] |}.

Definition bytes (s : string) : list Byte.byte := list_byte_of_string s.

(** After the first intercepted call: one pending stream, turn 1. *)
Definition started : World (H := host) :=
  fst (interceptedFetch (H := host) (JStr "claude-opus-4-6") 1000 true world0).

Definition reader1 : Reader (H := host) := wrapReader (H := host) 1.

(** The full transcript cut inside the first line and inside a payload. *)
Definition three_chunks : list (list Byte.byte) :=
  let bs := bytes full_transcript in
  [firstn 10 bs; firstn 57 (skipn 10 bs); skipn 67 bs].

(** Turn 1 after the whole transcript, completion not yet signalled. *)
Definition streamed : World (H := host) :=
  snd (stream_chunks (H := host) [bytes full_transcript] env0 (reader1, started)).

(** Turn 1 cut off after [message_start] and two deltas. *)
Definition cut_off : World (H := host) :=
  snd (stream_chunks (H := host) [bytes partial_transcript] env0 (reader1, started)).

(** A stream of a model the pricing table does not know. *)
Definition unknown_stream : PendingStream := new_pending (JStr "gpt-4o") 1 1000.

Definition usage_without_output : JsValue :=
  JObj [("type", JStr "message_delta"); ("usage", JObj [("input_tokens", JNum 7)])].

(** A chunk with a broken data line in the middle. *)
Definition before_broken : string :=
  event "message_start" message_start_text ++ line "event: content_block_delta".

Definition broken_line : string := "data: " ++ broken_text.

Definition after_broken : string :=
  line "" ++ event "message_delta" message_delta_text.

(** The events of a stream that reports 100 input tokens at its start and
    corrects the output count to 50 at its end. *)
Definition corrected_events : list (JsValue * JsValue) :=
  (JStr "message_start", message_start_json) ::
  [(JStr "content_block_start", block_start_json);
   (JStr "content_block_delta", delta_json "Hello")] ++
  (JStr "message_delta", message_delta_json) ::
  [(JStr "message_stop", JObj [("type", JStr "message_stop")])].

(** Turn 1 after these events. *)
Definition corrected_stream : PendingStream :=
  set_state (fst (run_events (H := host) corrected_events
                    (state (new_pending (JStr "claude-opus-4-6") 1 1000), session0)))
            (new_pending (JStr "claude-opus-4-6") 1 1000).

(** A stream cut off inside its first text block. *)
Definition open_block_transcript : string :=
  event "message_start" message_start_text ++
  event "content_block_start" block_start_text ++
  event "content_block_delta" delta1_text ++
  event "content_block_delta" delta2_text.

(** Three calls in flight at exit: turn 1 was requested with the model [5]
    and has received nothing; turn 2 is cut off after [message_start] and
    two deltas for a block that was never opened; turn 3 is cut off inside
    its first text block. *)
Definition three_pending : World (H := host) :=
  let w1 := fst (interceptedFetch (H := host) (JNum 5) 900 true world0) in
  let w2 := fst (interceptedFetch (H := host) (JStr "claude-opus-4-6") 1000 true w1) in
  let w3 := fst (interceptedFetch (H := host) (JStr "claude-opus-4-6") 1100 true w2) in
  let fed := snd (stream_chunks (H := host) [bytes partial_transcript] env0
                    (wrapReader (H := host) 2, w3)) in
  snd (stream_chunks (H := host) [bytes open_block_transcript] env0
         (wrapReader (H := host) 3, fed)).


(** The record of the first turn of a session, and a store with nothing
    in it yet. *)
Definition first_record : ApiCallRecord (H := host) :=
  make_record (H := host) env0 world0 unknown_stream (ANum 0, ANum 0, ANum 0) (usd (Some 0)).

Definition empty_store : Store (H := host) :=
  {| jsonl := []; database := {| api_calls := []; sessions := [] |} |}.

Definition no_faults : Faults := {| fs_ok := true; insert_ok := true; upsert_ok := true |}.

(** A stream that reports a model named like a member every object
    inherits. *)
Definition constructor_stream : PendingStream :=
  set_state
    {| messageId := JStr "msg_2"; model := JStr "constructor";
       usage := {| input_tokens := JNum 100; output_tokens := JNum 50;
                   cache_creation_input_tokens := JNum 0;
                   cache_read_input_tokens := JNum 0 |};
       stopReason := JStr "end_turn"; contentBlocks := [] |}
    (new_pending (JStr "constructor") 1 1000).

(** The bundled pricing file is there but does not parse, and there is no
    user file. *)
Definition broken_bundle : World (H := host) :=
  {| sessionId := "session-1"; turnCounter := 0; heap := ∅; pendingStreams := [];
     records := []; session := session0; sink := []; pricingConfig := None;
     userPricing := FileAbsent; bundledPricing := FileBroken |}.

End Sample.

(** * Properties *)

(** [String.append] is kept folded by [simpl]; these are its two equations. *)
Ltac append_step :=
  repeat match goal with
         | |- context [(String ?c ?a ++ ?b)%string] =>
             change (String c a ++ b)%string with (String c (a ++ b)%string)
         | |- context [(EmptyString ++ ?b)%string] =>
             change (EmptyString ++ b)%string with b
         end.

Section Properties.
Context `{Host}.

(** The host's [+] adds two integers. *)
Hypothesis js_add_int : forall a b, js_add (ANum a) (JNum b) = Some (ANum (a + b)).

(** ** JavaScript values *)

Lemma get_defined_is_object v k x :
  Js.get v k = Some x -> x <> JUndefined -> k <> "length" ->
  exists fields, v = JObj fields.
Proof.
  intros Hget Hx Hk.
  destruct v as [| | b | n | | s | items | fields]; simpl in Hget; try discriminate.
  - inversion Hget; congruence.
  - inversion Hget; congruence.
  - inversion Hget; congruence.
  - destruct (String.eqb_spec k "length"); [contradiction|]. inversion Hget; congruence.
  - destruct (String.eqb_spec k "length"); [contradiction|]. inversion Hget; congruence.
  - eauto.
Qed.

Lemma get_some_not_nullish v k x :
  Js.get v k = Some x -> v <> JUndefined /\ v <> JNull.
Proof. destruct v; simpl; intros; split; congruence. Qed.

Lemma get_total v k : v <> JUndefined -> v <> JNull -> exists x, Js.get v k = Some x.
Proof. destruct v; simpl; intros; try congruence; eauto. Qed.

Lemma get_same_receiver v k k' x : Js.get v k = Some x -> exists y, Js.get v k' = Some y.
Proof.
  intros Hget. destruct (get_some_not_nullish _ _ _ Hget). now apply get_total.
Qed.

Lemma truthy_get v k : Js.truthy v = true -> exists x, Js.get v k = Some x.
Proof. destruct v; simpl; intros; try discriminate; eauto. Qed.

Lemma is_str_JStr lit s : Js.is_str lit (JStr s) = String.eqb s lit.
Proof. reflexivity. Qed.

Lemma is_str_false lit v : v <> JStr lit -> Js.is_str lit v = false.
Proof.
  intros Hne. destruct v; try reflexivity.
  rewrite is_str_JStr. destruct (String.eqb_spec s lit); [subst; contradiction | reflexivity].
Qed.

(** ** The four cases of the state machine and the default *)

Lemma processSSEEvent_message_start data st ses :
  processSSEEvent (JStr "message_start") data st ses = on_message_start data st ses.
Proof. reflexivity. Qed.

Lemma processSSEEvent_content_block_start data st ses :
  processSSEEvent (JStr "content_block_start") data st ses = on_content_block_start data st ses.
Proof. reflexivity. Qed.

Lemma processSSEEvent_content_block_delta data st ses :
  processSSEEvent (JStr "content_block_delta") data st ses = on_content_block_delta data st ses.
Proof. reflexivity. Qed.

Lemma processSSEEvent_message_delta data st ses :
  processSSEEvent (JStr "message_delta") data st ses = on_message_delta data st ses.
Proof. reflexivity. Qed.

Lemma processSSEEvent_other evt data st ses :
  (forall name, In name event_types -> evt <> JStr name) ->
  processSSEEvent evt data st ses = Normal (st, ses).
Proof.
  intros Hother. unfold processSSEEvent.
  rewrite !is_str_false; [reflexivity | | | |]; apply Hother; simpl; auto.
Qed.

Lemma run_events_app evs1 evs2 acc :
  run_events (evs1 ++ evs2) acc = run_events evs2 (run_events evs1 acc).
Proof. unfold run_events. apply fold_left_app. Qed.

Lemma run_events_cons evt data evs st ses :
  run_events ((evt, data) :: evs) (st, ses) =
  run_events evs (outcome (processSSEEvent evt data st ses)).
Proof. reflexivity. Qed.

(** Every event other than [message_start] and [message_delta] leaves the
    usage snapshot, the message id, the model and the stop reason alone. *)
Lemma content_event_frame evt data st ses :
  evt <> JStr "message_start" -> evt <> JStr "message_delta" ->
  let st' := fst (outcome (processSSEEvent evt data st ses)) in
  usage st' = usage st /\ messageId st' = messageId st /\
  model st' = model st /\ stopReason st' = stopReason st.
Proof.
  intros Hms Hmd. unfold processSSEEvent.
  rewrite (is_str_false "message_start") by assumption.
  rewrite (is_str_false "message_delta") by assumption.
  destruct (Js.is_str "content_block_start" evt).
  - unfold on_content_block_start.
    destruct (Js.get data "content_block") as [block|]; [|simpl; auto].
    destruct (Js.get data "index") as [i|]; [|simpl; auto].
    destruct (Js.truthy block); simpl; auto.
  - destruct (Js.is_str "content_block_delta" evt); [|simpl; auto].
    unfold on_content_block_delta.
    destruct (Js.get data "index") as [idx|]; [|simpl; auto].
    destruct (Js.get data "delta") as [delta|]; [|simpl; auto].
    destruct (Js.truthy delta && negb (Js.strict_eq idx JUndefined)); [|simpl; auto].
    destruct (find_block idx (contentBlocks st)) as [block|]; [|simpl; auto].
    destruct (js_add (charCount block) (text_length (delta_text delta))); simpl; auto.
Qed.

Lemma content_events_frame evs : forall st ses,
  Forall (fun e => fst e <> JStr "message_start" /\ fst e <> JStr "message_delta") evs ->
  usage (fst (run_events evs (st, ses))) = usage st.
Proof.
  induction evs as [|[evt data] evs IH]; intros st ses Hall; [reflexivity|].
  inversion Hall as [|? ? [Hms Hmd] Hrest]; subst; simpl in Hms, Hmd.
  rewrite run_events_cons.
  destruct (content_event_frame evt data st ses Hms Hmd) as [Hu _].
  destruct (outcome (processSSEEvent evt data st ses)) as [st1 ses1]; simpl in Hu.
  rewrite IH by assumption. exact Hu.
Qed.

(** ** The block list *)

Lemma find_block_app idx bs extra b :
  find_block idx bs = Some b -> find_block idx (bs ++ extra) = Some b.
Proof.
  unfold find_block. induction bs as [|x bs IH]; simpl; [discriminate|].
  destruct (Js.strict_eq (index x) idx); auto.
Qed.

Lemma find_block_index idx bs b :
  find_block idx bs = Some b -> Js.strict_eq (index b) idx = true.
Proof.
  unfold find_block. intros Hf. apply find_some in Hf. tauto.
Qed.

Lemma find_block_update idx a bs b :
  find_block idx bs = Some b ->
  find_block idx (update_block idx a bs) = Some (set_charCount a b).
Proof.
  unfold find_block. induction bs as [|x bs IH]; simpl; [discriminate|].
  destruct (Js.strict_eq (index x) idx) eqn:E; simpl.
  - intros Hx; inversion Hx; subst. now rewrite E.
  - rewrite E. exact IH.
Qed.

Lemma update_block_twice idx a1 a2 bs :
  update_block idx a2 (update_block idx a1 bs) = update_block idx a2 bs.
Proof.
  induction bs as [|x bs IH]; simpl; [reflexivity|].
  destruct (Js.strict_eq (index x) idx) eqn:E; simpl; rewrite E; [reflexivity|].
  now rewrite IH.
Qed.

Lemma update_block_length idx a bs : List.length (update_block idx a bs) = List.length bs.
Proof.
  induction bs as [|x bs IH]; simpl; [reflexivity|].
  destruct (Js.strict_eq (index x) idx); simpl; congruence.
Qed.

(** ** Unknown events *)

(** C9.  An event whose type is none of the four the state machine knows
    leaves the whole stream state (message id, model, the four token
    counts, stop reason, every block and its character count) and the
    session unchanged, and throws nothing; so a run of events with such an
    event anywhere inside ends in the state of the run without it. *)
Theorem unknown_event_ignored (evt data : JsValue) (st : StreamState) (ses : Session)
    (before after : list (JsValue * JsValue)) :
  (forall name, In name event_types -> evt <> JStr name) ->
  processSSEEvent evt data st ses = Normal (st, ses) /\
  run_events (before ++ (evt, data) :: after) (st, ses) =
  run_events (before ++ after) (st, ses).
Proof.
  intros Hother. split.
  - now apply processSSEEvent_other.
  - rewrite !run_events_app.
    destruct (run_events before (st, ses)) as [st1 ses1].
    rewrite run_events_cons, processSSEEvent_other by assumption. reflexivity.
Qed.

(** ** message_delta *)

Lemma message_delta_keeps_input data st ses :
  input_tokens (usage (fst (outcome (processSSEEvent (JStr "message_delta") data st ses)))) =
  input_tokens (usage st).
Proof.
  rewrite processSSEEvent_message_delta. unfold on_message_delta.
  destruct (Js.get data "usage") as [deltaUsage|]; [|reflexivity].
  destruct (Js.get data "delta") as [d|]; [|reflexivity].
  cbn [outcome fst].
  destruct (Js.truthy deltaUsage), (Js.truthy d); try reflexivity;
    destruct (Js.truthy (default JUndefined (Js.get d "stop_reason"))); reflexivity.
Qed.

(** C10.  A [message_delta] event changes nothing but the output token
    count and the stop reason: the input and the two cache token counts,
    the message id, the model, the block list and the session stay, whether
    the event completes or throws; and when its usage object has no
    [output_tokens] field the output token count stays too. *)
Theorem message_delta_frame (data : JsValue) (st : StreamState) (ses : Session) :
  let r := outcome (processSSEEvent (JStr "message_delta") data st ses) in
  snd r = ses /\
  messageId (fst r) = messageId st /\
  model (fst r) = model st /\
  contentBlocks (fst r) = contentBlocks st /\
  input_tokens (usage (fst r)) = input_tokens (usage st) /\
  cache_creation_input_tokens (usage (fst r)) = cache_creation_input_tokens (usage st) /\
  cache_read_input_tokens (usage (fst r)) = cache_read_input_tokens (usage st) /\
  (forall u, Js.get data "usage" = Some u -> Js.get u "output_tokens" = Some JUndefined ->
     output_tokens (usage (fst r)) = output_tokens (usage st)).
Proof.
  rewrite processSSEEvent_message_delta. unfold on_message_delta.
  destruct (Js.get data "usage") as [deltaUsage|]; [|simpl; repeat split; intros; discriminate].
  destruct (Js.get data "delta") as [d|]; [|simpl; repeat split; auto].
  assert (Hsr : forall s1 : StreamState,
             let s2 := if Js.truthy d
                       then (let sr := default JUndefined (Js.get d "stop_reason") in
                             if Js.truthy sr then set_stopReason sr s1 else s1)
                       else s1 in
             messageId s2 = messageId s1 /\ model s2 = model s1 /\
             contentBlocks s2 = contentBlocks s1 /\ usage s2 = usage s1).
  { intros s1. simpl. destruct (Js.truthy d); [|auto].
    destruct (Js.truthy (default JUndefined (Js.get d "stop_reason"))); simpl; auto. }
  cbv zeta. simpl outcome. simpl fst. simpl snd.
  match goal with |- context [if Js.truthy d then ?a else ?b] =>
    destruct (Hsr b) as (Hid & Hmodel & Hblocks & Husage) end.
  cbv zeta in Hid, Hmodel, Hblocks, Husage.
  rewrite Hid, Hmodel, Hblocks, Husage.
  destruct (Js.truthy deltaUsage); simpl; repeat split; auto.
  intros u Hu Hout. inversion Hu; subst u. rewrite Hout. reflexivity.
Qed.

(** A [message_delta] whose usage carries an output token count overwrites
    the stored one with it: the last write wins. *)
Lemma message_delta_writes (st : StreamState) (ses : Session) (data du v : JsValue) :
  Js.get data "usage" = Some du -> Js.get du "output_tokens" = Some v ->
  v <> JUndefined -> v <> JNull ->
  output_tokens (usage (fst (outcome (processSSEEvent (JStr "message_delta") data st ses)))) = v.
Proof.
  intros Hdu Hv Hundef Hnull.
  rewrite processSSEEvent_message_delta. unfold on_message_delta. rewrite Hdu.
  destruct (get_same_receiver _ _ "delta" _ Hdu) as [d Hd]. rewrite Hd.
  assert (Htruthy : Js.truthy du = true).
  { destruct (get_defined_is_object _ _ _ Hv Hundef) as [fields ->]; [discriminate | reflexivity]. }
  rewrite Htruthy, Hv. simpl default.
  replace (Js.nullish v (output_tokens (usage st))) with v
    by (destruct v; try reflexivity; congruence).
  simpl. destruct (Js.truthy d); [|reflexivity].
  destruct (Js.truthy (default JUndefined (Js.get d "stop_reason"))); reflexivity.
Qed.

(** A [message_delta] stores a stop reason that is present (truthy). *)
Lemma message_delta_stop_reason (st : StreamState) (ses : Session) (data d reason : JsValue) :
  Js.get data "delta" = Some d -> Js.get d "stop_reason" = Some reason ->
  Js.truthy reason = true ->
  stopReason (fst (outcome (processSSEEvent (JStr "message_delta") data st ses))) = reason.
Proof.
  intros Hd Hreason Htruthy.
  rewrite processSSEEvent_message_delta. unfold on_message_delta.
  destruct (get_same_receiver _ _ "usage" _ Hd) as [du Hdu]. rewrite Hdu, Hd.
  assert (Hd_truthy : Js.truthy d = true).
  { destruct (get_defined_is_object _ _ _ Hreason) as [fields ->];
      [destruct reason; discriminate | discriminate | reflexivity]. }
  rewrite Hd_truthy, Hreason. simpl default. rewrite Htruthy.
  destruct (Js.truthy du); reflexivity.
Qed.

(** The state after a [message_start] with usage 100/0, content events, a
    [message_delta] with usage 50 and further content events. *)
Lemma correction_events (st : StreamState) (ses : Session)
    (start_data msg u delta_data du : JsValue) (between after : list (JsValue * JsValue)) :
  Js.get start_data "message" = Some msg ->
  Js.get msg "usage" = Some u ->
  Js.get u "input_tokens" = Some (JNum 100) ->
  Js.get u "output_tokens" = Some (JNum 0) ->
  Js.get delta_data "usage" = Some du ->
  Js.get du "output_tokens" = Some (JNum 50) ->
  Forall (fun e => fst e <> JStr "message_start" /\ fst e <> JStr "message_delta") between ->
  Forall (fun e => fst e <> JStr "message_start" /\ fst e <> JStr "message_delta") after ->
  let final :=
    fst (run_events ((JStr "message_start", start_data) :: between ++
                     (JStr "message_delta", delta_data) :: after) (st, ses)) in
  input_tokens (usage final) = JNum 100 /\ output_tokens (usage final) = JNum 50.
Proof.
  intros Hmsg Hu Hin Hout Hdu Hdout Hbetween Hafter.
  assert (Hobj_u : exists fields, u = JObj fields).
  { eapply get_defined_is_object; [exact Hin | discriminate | discriminate]. }
  assert (Hobj_msg : exists fields, msg = JObj fields).
  { destruct Hobj_u as [fields ->].
    eapply get_defined_is_object; [exact Hu | discriminate | discriminate]. }
  cbv zeta. rewrite run_events_cons, run_events_app.
  assert (Hstart : usage (fst (outcome (processSSEEvent (JStr "message_start") start_data st ses)))
                   = {| input_tokens := JNum 100; output_tokens := JNum 0;
                        cache_creation_input_tokens :=
                          Js.or (default JUndefined (Js.get u "cache_creation_input_tokens")) (JNum 0);
                        cache_read_input_tokens :=
                          Js.or (default JUndefined (Js.get u "cache_read_input_tokens")) (JNum 0) |}).
  { rewrite processSSEEvent_message_start. unfold on_message_start. rewrite Hmsg.
    assert (Htm : Js.truthy msg = true) by (destruct Hobj_msg as [mf ->]; reflexivity).
    assert (Htu : Js.truthy u = true) by (destruct Hobj_u as [uf ->]; reflexivity).
    rewrite Htm, Hu. cbv zeta. simpl default. rewrite Htu, Hin, Hout. simpl default.
    match goal with |- context [if updateLiveStatus ?s then _ else _] =>
      destruct (updateLiveStatus s) end; reflexivity. }
  destruct (outcome (processSSEEvent (JStr "message_start") start_data st ses)) as [st1 ses1].
  simpl fst in Hstart.
  pose proof (content_events_frame between st1 ses1 Hbetween) as Hframe.
  destruct (run_events between (st1, ses1)) as [st2 ses2]. simpl fst in Hframe.
  rewrite run_events_cons.
  pose proof (content_events_frame after
                (fst (outcome (processSSEEvent (JStr "message_delta") delta_data st2 ses2)))
                (snd (outcome (processSSEEvent (JStr "message_delta") delta_data st2 ses2)))
                Hafter) as Hlater.
  rewrite <- surjective_pairing in Hlater.
  pose proof (message_delta_keeps_input delta_data st2 ses2) as Hinput.
  pose proof (message_delta_writes st2 ses2 delta_data du (JNum 50) Hdu Hdout) as Houtput.
  set (final := fst (run_events after
                       (outcome (processSSEEvent (JStr "message_delta") delta_data st2 ses2)))) in *.
  split.
  - rewrite Hlater, Hinput, Hframe, Hstart. reflexivity.
  - rewrite Hlater. apply Houtput; discriminate.
Qed.

(** ** Content blocks *)

(** C8, as the code has it.  A [content_block_start] with a block always
    appends a new [TrackedBlock] with character count 0, also when a block
    with that index exists: the blocks already tracked stay as they are, in
    place, and a lookup by index still finds the earlier block. *)
Theorem content_block_start_appends (data block i : JsValue) (st : StreamState) (ses : Session) :
  Js.get data "content_block" = Some block ->
  Js.truthy block = true ->
  Js.get data "index" = Some i ->
  let fresh :=
    {| index := Js.nullish i (JNum (Z.of_nat (List.length (contentBlocks st))));
       type := Js.or (default JUndefined (Js.get block "type")) (JStr "text");
       charCount := ANum 0 |} in
  processSSEEvent (JStr "content_block_start") data st ses =
    Normal (set_contentBlocks (contentBlocks st ++ [fresh]) st, ses) /\
  (forall j b, find_block j (contentBlocks st) = Some b ->
     find_block j (contentBlocks st ++ [fresh]) = Some b).
Proof.
  intros Hblock Htruthy Hindex. cbv zeta. split.
  - rewrite processSSEEvent_content_block_start. unfold on_content_block_start.
    rewrite Hblock, Hindex, Htruthy. reflexivity.
  - intros j b. apply find_block_app.
Qed.

Lemma or_undefined v : Js.or JUndefined v = v.
Proof. reflexivity. Qed.

Lemma or_str s v : Js.or (JStr s) v = if String.eqb s "" then v else JStr s.
Proof. unfold Js.or. simpl. destruct (String.eqb s ""); reflexivity. Qed.

Lemma text_length_str s : text_length (JStr s) = JNum (Z.of_nat (String.length s)).
Proof. reflexivity. Qed.

Lemma delta_text_single (delta : JsValue) (field s : string) :
  In field ["text"; "thinking"; "partial_json"] ->
  Js.get delta field = Some (JStr s) ->
  (forall other, In other ["text"; "thinking"; "partial_json"] -> other <> field ->
     Js.get delta other = Some JUndefined) ->
  text_length (delta_text delta) = JNum (Z.of_nat (String.length s)).
Proof.
  intros Hin Hfield Hothers. unfold delta_text. cbv zeta. simpl in Hin.
  destruct Hin as [<- | [<- | [<- | []]]].
  - rewrite Hfield, (Hothers "thinking"), (Hothers "partial_json")
      by (simpl; auto; discriminate).
    simpl default.
    destruct (String.eqb_spec s "") as [-> | Hne]; [reflexivity|].
    apply String.eqb_neq in Hne. repeat rewrite or_str, Hne. reflexivity.
  - rewrite (Hothers "text"), Hfield, (Hothers "partial_json")
      by (simpl; auto; discriminate).
    simpl default. rewrite or_undefined.
    destruct (String.eqb_spec s "") as [-> | Hne]; [reflexivity|].
    apply String.eqb_neq in Hne. repeat rewrite or_str, Hne. reflexivity.
  - rewrite (Hothers "text"), (Hothers "thinking"), Hfield
      by (simpl; auto; discriminate).
    simpl default. rewrite !or_undefined.
    destruct (String.eqb_spec s "") as [-> | Hne]; [reflexivity|].
    apply String.eqb_neq in Hne. repeat rewrite or_str, Hne. reflexivity.
Qed.

Lemma delta_text_first (delta : JsValue) (s : string) :
  Js.get delta "text" = Some (JStr s) -> s <> "" ->
  text_length (delta_text delta) = JNum (Z.of_nat (String.length s)).
Proof.
  intros Hfield Hne. unfold delta_text. cbv zeta. rewrite Hfield. simpl default.
  apply String.eqb_neq in Hne. repeat rewrite or_str, Hne. reflexivity.
Qed.

(** One [content_block_delta] on a block whose count is a number. *)
Lemma delta_adds (data idx delta : JsValue) (st : StreamState) (ses : Session)
    (b : TrackedBlock) (c n : Z) :
  Js.get data "index" = Some idx -> Js.strict_eq idx JUndefined = false ->
  Js.get data "delta" = Some delta -> Js.truthy delta = true ->
  find_block idx (contentBlocks st) = Some b -> charCount b = ANum c ->
  text_length (delta_text delta) = JNum n ->
  processSSEEvent (JStr "content_block_delta") data st ses =
    Normal (set_contentBlocks (update_block idx (ANum (c + n)) (contentBlocks st)) st, ses).
Proof using js_add_int.
  intros Hidx Hdef Hdelta Htruthy Hfind Hcount Hlen.
  rewrite processSSEEvent_content_block_delta. unfold on_content_block_delta.
  rewrite Hidx, Hdelta, Htruthy, Hdef, Hfind, Hcount, Hlen, js_add_int. reflexivity.
Qed.

(** C5.  With a block tracked at index [idx] whose count is the number
    [c]: two [content_block_delta] events on that index with texts of 5 and
    7 code units leave the block with count [c + 12]; a delta that carries
    one of [text], [thinking], [partial_json] adds the length of that field;
    and a delta for an index with no block changes nothing and throws
    nothing. *)
Theorem block_accumulation :
  (forall (st : StreamState) (ses : Session) (idx d1 d2 delta1 delta2 : JsValue)
          (s1 s2 : string) (b : TrackedBlock) (c : Z),
     find_block idx (contentBlocks st) = Some b -> charCount b = ANum c ->
     Js.strict_eq idx JUndefined = false ->
     Js.get d1 "index" = Some idx -> Js.get d1 "delta" = Some delta1 ->
     Js.get delta1 "text" = Some (JStr s1) -> String.length s1 = 5%nat ->
     Js.get d2 "index" = Some idx -> Js.get d2 "delta" = Some delta2 ->
     Js.get delta2 "text" = Some (JStr s2) -> String.length s2 = 7%nat ->
     let final :=
       fst (run_events [(JStr "content_block_delta", d1); (JStr "content_block_delta", d2)]
                       (st, ses)) in
     find_block idx (contentBlocks final) = Some (set_charCount (ANum (c + 12)) b)) /\
  (forall (st : StreamState) (ses : Session) (idx data delta : JsValue)
          (field s : string) (b : TrackedBlock) (c : Z),
     find_block idx (contentBlocks st) = Some b -> charCount b = ANum c ->
     Js.strict_eq idx JUndefined = false ->
     Js.get data "index" = Some idx -> Js.get data "delta" = Some delta ->
     In field ["text"; "thinking"; "partial_json"] ->
     Js.get delta field = Some (JStr s) ->
     (forall other, In other ["text"; "thinking"; "partial_json"] -> other <> field ->
        Js.get delta other = Some JUndefined) ->
     processSSEEvent (JStr "content_block_delta") data st ses =
       Normal (set_contentBlocks
                 (update_block idx (ANum (c + Z.of_nat (String.length s))) (contentBlocks st)) st,
               ses) /\
     find_block idx (update_block idx (ANum (c + Z.of_nat (String.length s))) (contentBlocks st))
       = Some (set_charCount (ANum (c + Z.of_nat (String.length s))) b)) /\
  (forall (st : StreamState) (ses : Session) (idx data : JsValue),
     Js.get data "index" = Some idx ->
     find_block idx (contentBlocks st) = None ->
     processSSEEvent (JStr "content_block_delta") data st ses = Normal (st, ses)).
Proof using js_add_int.
  split; [|split].
  - intros st ses idx d1 d2 delta1 delta2 s1 s2 b c Hfind Hcount Hdef
           Hi1 Hd1 Ht1 Hl1 Hi2 Hd2 Ht2 Hl2.
    assert (Hne : forall s n, String.length s = S n -> s <> "")
      by (intros s n Hs ->; discriminate).
    assert (Hobj : forall delta s n, Js.get delta "text" = Some (JStr s) ->
                     String.length s = S n -> Js.truthy delta = true).
    { intros delta s n Hg Hs.
      destruct (get_defined_is_object _ _ _ Hg) as [fields ->];
        [discriminate | discriminate | reflexivity]. }
    cbv zeta. rewrite run_events_cons.
    rewrite (delta_adds d1 idx delta1 st ses b c 5); try assumption;
      [| eapply Hobj; eassumption
       | rewrite (delta_text_first delta1 s1 Ht1 (Hne _ _ Hl1)), Hl1; reflexivity].
    simpl outcome. rewrite run_events_cons.
    rewrite (delta_adds d2 idx delta2 _ ses (set_charCount (ANum (c + 5)) b) (c + 5) 7);
      try assumption; try reflexivity;
      [| eapply Hobj; eassumption
       | simpl; now apply find_block_update
       | rewrite (delta_text_first delta2 s2 Ht2 (Hne _ _ Hl2)), Hl2; reflexivity].
    simpl. rewrite update_block_twice. replace (c + 5 + 7) with (c + 12) by lia.
    now apply find_block_update.
  - intros st ses idx data delta field s b c Hfind Hcount Hdef Hidx Hdelta Hin Hfield Hothers.
    split; [|now apply find_block_update].
    apply delta_adds with (delta := delta) (b := b); try assumption.
    + assert (Hfl : field <> "length")
        by (simpl in Hin; destruct Hin as [<- | [<- | [<- | []]]]; discriminate).
      destruct (get_defined_is_object _ _ _ Hfield) as [fields ->];
        [discriminate | exact Hfl | reflexivity].
    + now apply delta_text_single with (field := field).
  - intros st ses idx data Hidx Hnone.
    rewrite processSSEEvent_content_block_delta. unfold on_content_block_delta. rewrite Hidx.
    destruct (Js.get data "delta") as [delta|] eqn:Hdelta.
    + rewrite Hnone. destruct (Js.truthy delta && negb (Js.strict_eq idx JUndefined)); reflexivity.
    + destruct (get_same_receiver _ _ "delta" _ Hidx) as [y Hy]. congruence.
Qed.

(** ** Lines *)

Lemma split_lines_nonempty s : split_lines s <> [].
Proof.
  destruct s as [|c s]; simpl; [discriminate|].
  destruct (Ascii.eqb c LF); [discriminate|].
  destruct (split_lines s); discriminate.
Qed.

(** [cut] is [split("\n")] followed by [pop()]. *)
Lemma cut_split s :
  cut s = (removelast (split_lines s), List.last (split_lines s) EmptyString).
Proof.
  induction s as [|c s IH]; [reflexivity|].
  cbn [cut split_lines]. rewrite IH.
  pose proof (split_lines_nonempty s) as Hne.
  destruct (Ascii.eqb c LF).
  - destruct (split_lines s) as [|h t]; [contradiction | reflexivity].
  - destruct (split_lines s) as [|h [|x t]]; [contradiction | reflexivity | reflexivity].
Qed.

Lemma cut_app a b :
  cut (a ++ b) =
  ((fst (cut a) ++ fst (cut (snd (cut a) ++ b)))%list, snd (cut (snd (cut a) ++ b))).
Proof.
  induction a as [|c a IH].
  - change ("" ++ b)%string with b. cbn [cut fst snd].
    change ("" ++ b)%string with b. now destruct (cut b).
  - change (String c a ++ b)%string with (String c (a ++ b)).
    cbn [cut]. rewrite IH.
    destruct (cut a) as [la fa]. cbn [fst snd].
    destruct (Ascii.eqb c LF) eqn:E.
    + cbn [fst snd]. reflexivity.
    + destruct la as [|h t]; cbn [fst snd].
      * change (String c fa ++ b)%string with (String c (fa ++ b)).
        cbn [cut]. rewrite E. cbn [app].
        destruct (cut (fa ++ b)) as [[|h t] f]; reflexivity.
      * reflexivity.
Qed.

Lemma cut_no_line_break s : no_line_break s = true -> cut s = ([], s).
Proof.
  induction s as [|c s IH]; [reflexivity|].
  cbn [no_line_break cut]. intros Hs. apply andb_prop in Hs as [Hc Hs].
  rewrite (IH Hs). apply negb_true_iff in Hc. now rewrite Hc.
Qed.

Lemma cut_fragment s : no_line_break (snd (cut s)) = true.
Proof.
  induction s as [|c s IH]; [reflexivity|].
  cbn [cut]. destruct (cut s) as [ls f]. cbn [snd] in IH.
  destruct (Ascii.eqb c LF) eqn:E; [exact IH|].
  destruct ls; cbn [snd no_line_break]; [now rewrite E, IH | exact IH].
Qed.

Lemma cut_line bad post :
  no_line_break bad = true ->
  cut (bad ++ String LF post) = (bad :: fst (cut post), snd (cut post)).
Proof.
  induction bad as [|c bad IH]; intros Hbad; append_step; cbn [cut].
  - change (Ascii.eqb LF LF) with true. now destruct (cut post).
  - cbn [no_line_break] in Hbad. apply andb_prop in Hbad as [Hc Hbad].
    apply negb_true_iff in Hc. rewrite (IH Hbad), Hc. reflexivity.
Qed.

(** ** The demuxer *)

Lemma processPendingBuffer_cut pending ses :
  processPendingBuffer pending ses =
  process_lines (fst (cut (buffer pending)))
                (set_buffer (snd (cut (buffer pending))) pending, ses).
Proof. unfold processPendingBuffer, process_lines. now rewrite cut_split. Qed.

Lemma processLine_set_buffer l b pending ses :
  processLine l (set_buffer b pending, ses) =
  (set_buffer b (fst (processLine l (pending, ses))), snd (processLine l (pending, ses))).
Proof.
  unfold processLine. cbn [eventType set_buffer state].
  destruct (startsWith "event: " l); [reflexivity|].
  destruct (startsWith "data: " l).
  - destruct (String.eqb (slice 6 l) "[DONE]"); [reflexivity|].
    destruct (JSON_parse (slice 6 l)) as [parsed|]; [|reflexivity].
    destruct (if Js.truthy (JStr (eventType pending))
              then Some (JStr (eventType pending)) else Js.get parsed "type") as [evt|];
      [|reflexivity].
    destruct (outcome (processSSEEvent evt parsed (state pending) ses)); reflexivity.
  - destruct (String.eqb (trim l) ""); reflexivity.
Qed.

Lemma process_lines_set_buffer ls : forall b pending ses,
  process_lines ls (set_buffer b pending, ses) =
  (set_buffer b (fst (process_lines ls (pending, ses))), snd (process_lines ls (pending, ses))).
Proof.
  induction ls as [|l ls IH]; intros b pending ses; [reflexivity|].
  unfold process_lines in *. cbn [fold_left].
  rewrite processLine_set_buffer.
  destruct (processLine l (pending, ses)) as [p1 s1]. cbn [fst snd]. apply IH.
Qed.

Lemma process_lines_app ls1 ls2 acc :
  process_lines (ls1 ++ ls2) acc = process_lines ls2 (process_lines ls1 acc).
Proof. apply fold_left_app. Qed.

Lemma set_buffer_set_buffer b b' pending :
  set_buffer b (set_buffer b' pending) = set_buffer b pending.
Proof. reflexivity. Qed.

Lemma absorb_cut text pending ses :
  absorb text (pending, ses) =
  (set_buffer (snd (cut (buffer pending ++ text)))
     (fst (process_lines (fst (cut (buffer pending ++ text))) (pending, ses))),
   snd (process_lines (fst (cut (buffer pending ++ text))) (pending, ses))).
Proof.
  unfold absorb. cbn [fst snd]. rewrite processPendingBuffer_cut.
  cbn [buffer set_buffer]. rewrite <- process_lines_set_buffer. reflexivity.
Qed.

Lemma string_app_assoc (a b c : string) : ((a ++ b) ++ c = a ++ (b ++ c))%string.
Proof. induction a as [|x a IH]; append_step; [reflexivity | now rewrite IH]. Qed.

(** Two chunks fed one after the other are one chunk. *)
Lemma absorb_app a b acc : absorb b (absorb a acc) = absorb (a ++ b) acc.
Proof.
  destruct acc as [pending ses]. rewrite (absorb_cut (a ++ b)).
  rewrite <- string_app_assoc, (cut_app (buffer pending ++ a) b), (absorb_cut a).
  destruct (cut (buffer pending ++ a)) as [la fa]. cbn [fst snd].
  rewrite process_lines_app.
  destruct (process_lines la (pending, ses)) as [p1 s1]. cbn [fst snd].
  rewrite absorb_cut. cbn [buffer set_buffer].
  rewrite process_lines_set_buffer. reflexivity.
Qed.

Lemma absorb_nothing pending ses :
  no_line_break (buffer pending) = true -> absorb "" (pending, ses) = (pending, ses).
Proof.
  intros Hb. rewrite absorb_cut.
  replace (buffer pending ++ "")%string with (buffer pending)
    by (clear; induction (buffer pending) as [|c s IH]; append_step;
        [reflexivity | now rewrite <- IH]).
  rewrite (cut_no_line_break _ Hb). cbn. now destruct pending.
Qed.

(** ** Chunks *)

Lemma world_eta (w : World) :
  {| sessionId := sessionId w; turnCounter := turnCounter w; heap := heap w;
     pendingStreams := pendingStreams w; records := records w; session := session w;
     sink := sink w; pricingConfig := pricingConfig w;
     userPricing := userPricing w; bundledPricing := bundledPricing w |} = w.
Proof. now destruct w. Qed.

Lemma feed_none t text w : heap w !! t = None -> feed t text w = w.
Proof. unfold feed. now intros ->. Qed.

Lemma feed_spec t text w pending :
  heap w !! t = Some pending ->
  feed t text w =
  set_session (snd (absorb text (pending, session w)))
              (set_heap t (fst (absorb text (pending, session w))) w).
Proof.
  intros Hp. unfold feed, process_in_heap. rewrite Hp.
  cbn [heap set_heap]. rewrite lookup_insert_eq. unfold absorb. cbn [fst snd session set_heap].
  destruct (processPendingBuffer (set_buffer (buffer pending ++ text) pending) (session w))
    as [p1 s1].
  unfold set_session, set_heap. cbn. now rewrite insert_insert_eq.
Qed.

Lemma feed_feed t a b w : feed t b (feed t a w) = feed t (a ++ b) w.
Proof.
  destruct (heap w !! t) as [pending|] eqn:Hp.
  - rewrite (feed_spec t a w pending Hp), (feed_spec t (a ++ b) w pending Hp).
    rewrite <- absorb_app.
    destruct (absorb a (pending, session w)) as [p1 s1]. cbn [fst snd].
    rewrite (feed_spec t b _ p1) by (cbn; apply lookup_insert_eq).
    cbn [session set_session].
    destruct (absorb b (p1, s1)) as [p2 s2]. cbn [fst snd].
    unfold set_session, set_heap. cbn. now rewrite insert_insert_eq.
  - now rewrite !feed_none by (rewrite ?feed_none; assumption).
Qed.

Section Decoder.

(** The contract of a streaming [TextDecoder]: decoding two chunks one
    after the other yields the text of decoding them joined. *)
Hypothesis decode_app : forall d a b,
  decode d (a ++ b)%list =
  (fst (decode (fst (decode d a)) b),
   (snd (decode d a) ++ snd (decode (fst (decode d a)) b))%string).

Lemma read_read env r w a b :
  read {| value := Some b; done := false |} env
       (fst (read {| value := Some a; done := false |} env r w))
       (snd (read {| value := Some a; done := false |} env r w)) =
  read {| value := Some (a ++ b)%list; done := false |} env r w.
Proof using decode_app.
  unfold read. cbn [value done]. rewrite decode_app.
  destruct (decode (reader_decoder r) a) as [d1 s1]. cbn [fst snd reader_turn reader_decoder].
  destruct (decode d1 b) as [d2 s2]. cbn [fst snd]. now rewrite feed_feed.
Qed.

Lemma stream_chunks_join env rest : forall first r w,
  stream_chunks (first :: rest) env (r, w) =
  stream_chunks [(first ++ List.concat rest)%list] env (r, w).
Proof using decode_app.
  induction rest as [|c rest IH]; intros first r w.
  - cbn [List.concat]. now rewrite app_nil_r.
  - change (stream_chunks (first :: c :: rest) env (r, w))
      with (stream_chunks (c :: rest) env
              (read {| value := Some first; done := false |} env r w)).
    destruct (read {| value := Some first; done := false |} env r w) as [r1 w1] eqn:Hfirst.
    rewrite IH. cbn [List.concat stream_chunks fold_left fst snd].
    rewrite <- (read_read env r w first (c ++ List.concat rest)%list), Hfirst. reflexivity.
Qed.

(** C2.  A transcript delivered in any number of chunks, cut anywhere, and
    then completed, leaves the reader and the whole module state (the
    stream, the ledger, the records, the sink) exactly as the transcript
    delivered in one chunk and then completed; the records are the same. *)
Theorem chunk_boundary_invariance (env : Env) (r : Reader) (w : World)
    (transcript : list Byte.byte) (chunks : list (list Byte.byte)) :
  chunks <> [] -> List.concat chunks = transcript ->
  end_of_stream env (stream_chunks chunks env (r, w)) =
  end_of_stream env (stream_chunks [transcript] env (r, w)) /\
  records (snd (end_of_stream env (stream_chunks chunks env (r, w)))) =
  records (snd (end_of_stream env (stream_chunks [transcript] env (r, w)))).
Proof using decode_app.
  intros Hne <-. destruct chunks as [|first rest]; [contradiction|].
  cbn [List.concat]. rewrite stream_chunks_join. split; reflexivity.
Qed.

End Decoder.

(** ** Payloads that fail to parse *)

Lemma data_line_is_no_event_line l :
  startsWith "data: " l = true -> startsWith "event: " l = false.
Proof.
  unfold startsWith. destruct l as [|c l]; [discriminate|].
  cbn [String.prefix].
  destruct (ascii_dec "d" c) as [<- | _]; [reflexivity | discriminate].
Qed.

Lemma processLine_unparseable l acc :
  startsWith "data: " l = true -> JSON_parse (slice 6 l) = None ->
  processLine l acc = acc.
Proof.
  intros Hdata Hparse. destruct acc as [pending ses]. unfold processLine.
  rewrite (data_line_is_no_event_line l Hdata), Hdata, Hparse.
  now destruct (String.eqb (slice 6 l) "[DONE]").
Qed.

(** C7.  A complete data line whose payload [JSON.parse] rejects is
    skipped and the lines after it are processed as usual: feeding a chunk
    that contains the line leaves the stream, and the whole module state,
    as feeding the chunk without that line.  The line [bad] starts where a
    line starts: the text before it in the chunk, joined to what was
    buffered, is empty or ends in a line break. *)
Theorem unparseable_line_skipped (t : nat) (w : World) (pending : PendingStream)
    (pre bad post : string) :
  heap w !! t = Some pending ->
  snd (cut (buffer pending ++ pre)) = EmptyString ->
  no_line_break bad = true ->
  startsWith "data: " bad = true ->
  JSON_parse (slice 6 bad) = None ->
  feed t (pre ++ (bad ++ String LF post)) w = feed t (pre ++ post) w.
Proof.
  intros Hp Hstart Hbad Hdata Hparse.
  rewrite (feed_spec t _ w pending Hp), (feed_spec t (pre ++ post) w pending Hp).
  rewrite !absorb_cut.
  rewrite <- (string_app_assoc (buffer pending) pre (bad ++ String LF post)).
  rewrite <- (string_app_assoc (buffer pending) pre post).
  rewrite (cut_app (buffer pending ++ pre) (bad ++ String LF post)).
  rewrite (cut_app (buffer pending ++ pre) post).
  rewrite Hstart. append_step. rewrite (cut_line bad post Hbad). cbn [fst snd].
  rewrite !process_lines_app.
  change (process_lines (bad :: fst (cut post)) ?acc)
    with (process_lines (fst (cut post)) (processLine bad acc)).
  now rewrite processLine_unparseable.
Qed.

(** ** The finalizer *)

(** The cost depends on the cache and the disk only through what
    [loadPricing] returns. *)
Lemma calculateCost_fst user bundled cache m i o cw cr :
  fst (calculateCost user bundled cache m i o cw cr) =
  match fst (loadPricing user bundled cache), m with
  | Some (Table config), JStr id =>
      match resolve_in_table config id with
      | None => Some cost_zero
      | Some entry => cost_formula entry i o cw cr
      end
  | _, _ => None
  end.
Proof.
  unfold calculateCost, resolvePricing.
  destruct (loadPricing user bundled cache) as [[[config|truthy]|] cache']; cbn [fst].
  - destruct m; reflexivity.
  - now destruct m.
  - now destruct m.
Qed.

Lemma calculateCost_snd user bundled cache m i o cw cr :
  snd (calculateCost user bundled cache m i o cw cr) = snd (loadPricing user bundled cache).
Proof.
  unfold calculateCost, resolvePricing. now destruct (loadPricing user bundled cache).
Qed.

(** Loading again with the cache the first load left returns the same. *)
Lemma loadPricing_again user bundled cache :
  fst (loadPricing user bundled (snd (loadPricing user bundled cache))) =
  fst (loadPricing user bundled cache).
Proof.
  destruct cache as [[config|[|]]|], user as [| |[cu|[|]]], bundled as [| |[cb|[|]]];
    reflexivity.
Qed.

Lemma loaded_pricing_after (w w' : World) (st : StreamState) :
  userPricing w' = userPricing w -> bundledPricing w' = bundledPricing w ->
  pricingConfig w' = snd (stream_cost w st) ->
  loaded_pricing w' = loaded_pricing w.
Proof.
  intros Hu Hb Hc. unfold loaded_pricing, stream_cost in *.
  rewrite Hu, Hb, Hc, calculateCost_snd. apply loadPricing_again.
Qed.

Lemma stream_cost_same (w w' : World) (st : StreamState) :
  userPricing w' = userPricing w -> bundledPricing w' = bundledPricing w ->
  loaded_pricing w' = loaded_pricing w ->
  fst (stream_cost w' st) = fst (stream_cost w st).
Proof.
  unfold loaded_pricing, stream_cost. intros Hu Hb Hl.
  rewrite !calculateCost_fst, Hu, Hb in *. now rewrite Hl.
Qed.

(** What [finalizeStream] leaves alone, whether it returns or throws: the
    heap, the pending set, what [loadPricing] returns, the session id, the
    turn counter and the pricing files. *)
Lemma finalizeStream_frame env pending w :
  let w' := outcome (finalizeStream env pending w) in
  heap w' = heap w /\ pendingStreams w' = pendingStreams w /\
  loaded_pricing w' = loaded_pricing w /\ sessionId w' = sessionId w /\
  turnCounter w' = turnCounter w /\
  userPricing w' = userPricing w /\ bundledPricing w' = bundledPricing w.
Proof.
  cbv zeta. unfold finalizeStream.
  destruct (sum_chars _ _) as [chars|]; [|cbn; auto 10].
  assert (Hl : forall w', userPricing w' = userPricing w -> bundledPricing w' = bundledPricing w ->
                          pricingConfig w' = snd (stream_cost w (state pending)) ->
                          loaded_pricing w' = loaded_pricing w)
    by (intros; now apply (loaded_pricing_after w _ (state pending))).
  destruct (fst (stream_cost w (state pending))) as [cost|];
    [|cbn [outcome]; repeat split; now apply Hl].
  destruct (update_session cost (state pending) _) as [s|s];
    [|cbn [outcome]; repeat split; now apply Hl].
  destruct (updateLiveStatus s); [|cbn [outcome]; repeat split; now apply Hl].
  destruct (sink_ok env); cbn [outcome]; repeat split; now apply Hl.
Qed.

(** [finalizeStream] does not look at the pending set. *)
Lemma finalizeStream_pending_blind env pending w l :
  finalizeStream env pending (set_pendingStreams l w) =
  match finalizeStream env pending w with
  | Normal w' => Normal (set_pendingStreams l w')
  | Throw w' => Throw (set_pendingStreams l w')
  end.
Proof.
  unfold finalizeStream.
  destruct (sum_chars _ _) as [chars|]; [|reflexivity].
  change (stream_cost (set_pendingStreams l w) (state pending))
    with (stream_cost w (state pending)).
  destruct (fst (stream_cost w (state pending))) as [cost|]; [|reflexivity].
  cbv zeta. change (session (push_record ?r (set_pricingConfig ?c (set_pendingStreams l w))))
    with (session w).
  change (session (push_record ?r (set_pricingConfig ?c w))) with (session w).
  destruct (update_session cost (state pending) (session w)) as [s|s]; [|reflexivity].
  destruct (updateLiveStatus s); [|reflexivity].
  destruct (sink_ok env); reflexivity.
Qed.

(** The records after [finalizeStream]: the record of the stream is pushed
    as soon as it is built, whatever happens afterwards. *)
Lemma finalizeStream_records env pending w :
  records (outcome (finalizeStream env pending w)) =
  (records w ++ match record_of env w pending with Some r => [r] | None => [] end)%list.
Proof.
  unfold finalizeStream, record_of.
  destruct (sum_chars _ _) as [chars|]; [|cbn; now rewrite app_nil_r].
  destruct (fst (stream_cost w (state pending))) as [cost|]; [|cbn; now rewrite app_nil_r].
  destruct (update_session cost (state pending) _) as [s|s]; [|reflexivity].
  destruct (updateLiveStatus s); [|reflexivity].
  destruct (sink_ok env); reflexivity.
Qed.

(** The sink after [finalizeStream]: at most the record of the stream is
    added, and only when the finalizer returns. *)
Lemma finalizeStream_sink env pending w :
  sink (outcome (finalizeStream env pending w)) = sink w \/
  exists r, record_of env w pending = Some r /\
            sink (outcome (finalizeStream env pending w)) = (sink w ++ [r])%list.
Proof.
  unfold finalizeStream, record_of.
  destruct (sum_chars _ _) as [chars|]; [|now left].
  destruct (fst (stream_cost w (state pending))) as [cost|]; [|now left].
  destruct (update_session cost (state pending) _) as [s|s]; [|now left].
  destruct (updateLiveStatus s); [|now left].
  destruct (sink_ok env); [|now left]. right. eexists. split; reflexivity.
Qed.

Lemma record_of_turn env w pending r :
  record_of env w pending = Some r -> turn_number r = turnNum pending.
Proof.
  unfold record_of. destruct (sum_chars _ _) as [[[th tx] tu]|]; [|discriminate].
  destruct (fst (stream_cost w (state pending))) as [cost|]; [|discriminate].
  intros Hr; inversion Hr; reflexivity.
Qed.

(** A stream whose model is not a string has no record: [calculateCost]
    throws before the record is built. *)
Lemma record_of_bad_model env w pending :
  Js.is_string (model (state pending)) = false -> record_of env w pending = None.
Proof.
  intros Hm. unfold record_of. destruct (sum_chars _ _); [|reflexivity].
  unfold stream_cost. rewrite calculateCost_fst.
  destruct (model (state pending)); try discriminate;
    now destruct (fst (loadPricing _ _ _)) as [[|]|].
Qed.

(** When [loadPricing] throws, or returns a value without a table, no
    stream has a record. *)
Lemma record_of_no_table env w pending :
  (forall table, loaded_pricing w <> Some (Table table)) -> record_of env w pending = None.
Proof.
  intros Hno. unfold record_of. destruct (sum_chars _ _); [|reflexivity].
  unfold stream_cost. rewrite calculateCost_fst. fold (loaded_pricing w).
  destruct (loaded_pricing w) as [[table|]|]; try reflexivity. now destruct (Hno table).
Qed.

Lemma is_str_true lit v : Js.is_str lit v = true -> v = JStr lit.
Proof.
  unfold Js.is_str. destruct v; try discriminate. cbn. intros Heq.
  apply String.eqb_eq in Heq. now subst.
Qed.

Lemma add_chars_typed acc block :
  is_anum (charCount block) = true ->
  is_anum (fst (fst acc)) && is_anum (snd (fst acc)) && is_anum (snd acc) = true ->
  exists acc', add_chars acc block = Some acc' /\
    is_anum (fst (fst acc')) && is_anum (snd (fst acc')) && is_anum (snd acc') = true.
Proof using js_add_int.
  destruct acc as [[[th| |] [tx| |]] [tu| |]]; cbn; try discriminate.
  destruct (charCount block) as [c| |]; try discriminate. intros _ _.
  unfold add_chars. cbn [of_accum]. rewrite !js_add_int.
  destruct (Js.is_str "thinking" (type block)); [eexists; split; [reflexivity|reflexivity]|].
  destruct (Js.is_str "text" (type block)); [eexists; split; [reflexivity|reflexivity]|].
  destruct (Js.is_str "tool_use" (type block)); eexists; split; reflexivity.
Qed.

Lemma sum_chars_typed blocks : forall acc,
  forallb (fun b => is_anum (charCount b)) blocks = true ->
  is_anum (fst (fst acc)) && is_anum (snd (fst acc)) && is_anum (snd acc) = true ->
  exists acc', sum_chars blocks acc = Some acc'.
Proof using js_add_int.
  induction blocks as [|b blocks IH]; intros acc Hall Hacc; [eexists; reflexivity|].
  cbn [forallb] in Hall. apply andb_prop in Hall as [Hb Hall].
  destruct (add_chars_typed acc b Hb Hacc) as (acc1 & Hadd & Hacc1).
  cbn [sum_chars]. rewrite Hadd. now apply IH.
Qed.

(** The three totals of the loop over the blocks are the characters of the
    blocks of each type, added up. *)
Lemma sum_chars_totals blocks : forall a b c,
  forallb (fun b => is_anum (charCount b)) blocks = true ->
  sum_chars blocks (ANum a, ANum b, ANum c) =
  Some (ANum (a + chars_of "thinking" blocks), ANum (b + chars_of "text" blocks),
        ANum (c + chars_of "tool_use" blocks)).
Proof using js_add_int.
  induction blocks as [|block blocks IH]; intros a b c Hall.
  - cbn. now rewrite !Z.add_0_r.
  - cbn [forallb] in Hall. apply andb_prop in Hall as [Hb Hall].
    destruct (charCount block) as [n| |] eqn:Hn; try discriminate.
    cbn [sum_chars chars_of]. unfold add_chars. rewrite Hn. cbn [of_accum].
    rewrite !js_add_int.
    assert (Hgoal : forall x y z x' y' z' : Z,
              x = x' -> y = y' -> z = z' ->
              Some (ANum x, ANum y, ANum z) = Some (ANum x', ANum y', ANum z'))
      by (intros; subst; reflexivity).
    destruct (Js.is_str "thinking" (type block)) eqn:E1.
    { rewrite (is_str_true _ _ E1).
      change (Js.is_str "thinking" (JStr "thinking")) with true.
      change (Js.is_str "text" (JStr "thinking")) with false.
      change (Js.is_str "tool_use" (JStr "thinking")) with false.
      rewrite IH by assumption. apply Hgoal; lia. }
    destruct (Js.is_str "text" (type block)) eqn:E2.
    { rewrite (is_str_true _ _ E2).
      change (Js.is_str "text" (JStr "text")) with true.
      change (Js.is_str "tool_use" (JStr "text")) with false.
      rewrite IH by assumption. apply Hgoal; lia. }
    destruct (Js.is_str "tool_use" (type block)) eqn:E3;
      rewrite IH by assumption; apply Hgoal; lia.
Qed.

Lemma or_zero_num v : is_opt_num v = true -> exists n, Js.or v (JNum 0) = JNum n.
Proof.
  destruct v as [| | | n | | | |]; try discriminate; intros _.
  - exists 0. reflexivity.
  - unfold Js.or. cbn. destruct (n =? 0); eauto.
Qed.

Lemma update_session_typed cost st s :
  typed_usage (usage st) = true -> typed_session s = true ->
  exists s', update_session cost st s = Normal s' /\ typed_session s' = true /\
             lastModel s' = model st.
Proof using js_add_int.
  unfold typed_usage, typed_session. intros Hu Hs.
  apply andb_prop in Hu as [Hu Hcr]. apply andb_prop in Hu as [Hu Hcw].
  apply andb_prop in Hu as [Hi Ho].
  apply andb_prop in Hs as [Hs Hs4]. apply andb_prop in Hs as [Hs Hs3].
  apply andb_prop in Hs as [Hs1 Hs2].
  destruct (or_zero_num _ Hcr) as [cr Ecr]. destruct (or_zero_num _ Hcw) as [cw Ecw].
  destruct s as [tc ti to tr tw tn lm lc]. cbn in Hs1, Hs2, Hs3, Hs4.
  destruct ti as [ti| |]; try discriminate. destruct to as [to| |]; try discriminate.
  destruct tr as [tr| |]; try discriminate. destruct tw as [tw| |]; try discriminate.
  unfold update_session. cbn.
  destruct (input_tokens (usage st)) as [| | | i | | | |]; try discriminate.
  destruct (output_tokens (usage st)) as [| | | o | | | |]; try discriminate.
  rewrite Ecr, Ecw, !js_add_int. eexists. split; [reflexivity|]. split; reflexivity.
Qed.

(** A well-typed stream in a well-typed session, once its cost is computed,
    is finalized without an exception: the record goes to [records] and,
    when the write succeeds, to the sink. *)
Lemma finalizeStream_typed env pending w chars cost :
  typed_state (state pending) = true -> typed_session (session w) = true ->
  sum_chars (contentBlocks (state pending)) (ANum 0, ANum 0, ANum 0) = Some chars ->
  fst (stream_cost w (state pending)) = Some cost ->
  let r := make_record env w pending chars cost in
  exists w', finalizeStream env pending w = Normal w' /\
    records w' = (records w ++ [r])%list /\
    sink w' = (if sink_ok env then (sink w ++ [r])%list else sink w) /\
    typed_session (session w') = true.
Proof using js_add_int.
  intros Hst Hses Hchars Hcost. cbv zeta. unfold typed_state in Hst.
  apply andb_prop in Hst as [Hst Hblocks]. apply andb_prop in Hst as [Hmodel Husage].
  unfold finalizeStream. rewrite Hchars, Hcost.
  destruct (update_session_typed cost (state pending) (session w) Husage Hses)
    as (s' & Hupd & Htyped & Hlast).
  cbv zeta. cbn [session push_record set_pricingConfig]. rewrite Hupd.
  unfold updateLiveStatus. rewrite Hlast, Hmodel.
  eexists. split; [reflexivity|].
  destruct (sink_ok env); cbn; auto.
Qed.

(** ** Pricing *)

(** The three steps of [resolvePricing] find nothing exactly when the table
    has no property under the normalized id, none under the raw id, and no
    entry of a family the id names. *)
Lemma resolve_in_table_null config m :
  resolve_in_table config m = None <->
  models_get config (normalizeModelId m) = None /\
  models_get config m = None /\
  family_match families (normalizeModelId m) (models config) = None.
Proof.
  unfold resolve_in_table.
  destruct (models_get config (normalizeModelId m)); [split; [discriminate | intros [? _]; discriminate]|].
  destruct (models_get config m); [split; [discriminate | intros (_ & ? & _); discriminate]|].
  destruct (family_match families (normalizeModelId m) (models config));
    [split; [discriminate | intros (_ & _ & ?); discriminate] | tauto].
Qed.

(** For a model id that the three steps resolve to nothing in the table
    that is loaded, the cost is 0 and the record is pushed with it. *)
Lemma unknown_model_record (env : Env) (pending : PendingStream) (w : World)
    (table : PricingConfig) (m : string) chars :
  model (state pending) = JStr m ->
  loaded_pricing w = Some (Table table) ->
  resolve_in_table table m = None ->
  sum_chars (contentBlocks (state pending)) (ANum 0, ANum 0, ANum 0) = Some chars ->
  fst (stream_cost w (state pending)) = Some cost_zero /\
  records (outcome (finalizeStream env pending w)) =
    (records w ++ [make_record env w pending chars cost_zero])%list.
Proof.
  intros Hmodel Hload Hnone Hchars.
  assert (Hcost : fst (stream_cost w (state pending)) = Some cost_zero).
  { unfold stream_cost. rewrite calculateCost_fst. fold (loaded_pricing w).
    now rewrite Hload, Hmodel, Hnone. }
  split; [exact Hcost|].
  rewrite finalizeStream_records. unfold record_of. now rewrite Hchars, Hcost.
Qed.

(** ** The exit handler *)

Lemma processLine_turnNum l pending ses :
  turnNum (fst (processLine l (pending, ses))) = turnNum pending.
Proof.
  unfold processLine.
  destruct (startsWith "event: " l); [reflexivity|].
  destruct (startsWith "data: " l).
  - destruct (String.eqb (slice 6 l) "[DONE]"); [reflexivity|].
    destruct (JSON_parse (slice 6 l)) as [parsed|]; [|reflexivity].
    destruct (if Js.truthy (JStr (eventType pending))
              then Some (JStr (eventType pending)) else Js.get parsed "type") as [evt|];
      [|reflexivity].
    destruct (outcome (processSSEEvent evt parsed (state pending) ses)); reflexivity.
  - destruct (String.eqb (trim l) ""); reflexivity.
Qed.

Lemma process_lines_turnNum ls : forall pending ses,
  turnNum (fst (process_lines ls (pending, ses))) = turnNum pending.
Proof.
  induction ls as [|l ls IH]; intros pending ses; [reflexivity|].
  unfold process_lines in *. cbn [fold_left].
  pose proof (processLine_turnNum l pending ses) as Hl.
  destruct (processLine l (pending, ses)) as [p1 s1]. cbn [fst] in Hl.
  now rewrite IH.
Qed.

Lemma absorb_turnNum text pending ses :
  turnNum (fst (absorb text (pending, ses))) = turnNum pending.
Proof. rewrite absorb_cut. cbn [fst set_buffer turnNum]. apply process_lines_turnNum. Qed.

Lemma feed_frame t text w :
  records (feed t text w) = records w /\
  pendingStreams (feed t text w) = pendingStreams w /\
  sink (feed t text w) = sink w /\
  (heap_ok w -> heap_ok (feed t text w)).
Proof.
  destruct (heap w !! t) as [pending|] eqn:Hp.
  - rewrite (feed_spec t text w pending Hp). repeat split.
    intros Hok k p. cbn [heap set_session set_heap].
    destruct (decide (t = k)) as [<- | Hne].
    + rewrite lookup_insert_eq. intros Hk; inversion Hk; subst p.
      rewrite absorb_turnNum. now apply Hok.
    + rewrite lookup_insert_ne by assumption. apply Hok.
  - rewrite (feed_none t text w Hp). auto.
Qed.

Lemma string_app_nil_r (s : string) : (s ++ "")%string = s.
Proof. induction s as [|c s IH]; append_step; [reflexivity | now rewrite IH]. Qed.

(** [processPendingBuffer] without a new chunk is a feed of nothing. *)
Lemma process_in_heap_feed t w : process_in_heap t w = feed t "" w.
Proof.
  unfold feed, process_in_heap. destruct (heap w !! t) as [pending|] eqn:Hp; [|reflexivity].
  cbn [heap set_heap session]. rewrite lookup_insert_eq, string_app_nil_r.
  replace (set_buffer (buffer pending) pending) with pending by now destruct pending.
  destruct (processPendingBuffer pending (session w)) as [p1 s1].
  unfold set_session, set_heap. cbn. now rewrite insert_insert_eq.
Qed.

(** With only incomplete lines buffered, the exit handler's call of
    [processPendingBuffer] finds nothing to process. *)
Lemma process_in_heap_idle t w : buffers_ok w -> process_in_heap t w = w.
Proof.
  intros Hok. rewrite process_in_heap_feed.
  destruct (heap w !! t) as [pending|] eqn:Hp; [|now apply feed_none].
  rewrite (feed_spec t "" w pending Hp), (absorb_nothing _ _ (Hok t pending Hp)).
  unfold set_session, set_heap. cbn. rewrite (insert_id _ _ _ Hp). apply world_eta.
Qed.

Lemma record_of_same_base env (w w' : World) pending :
  loaded_pricing w' = loaded_pricing w -> userPricing w' = userPricing w ->
  bundledPricing w' = bundledPricing w -> sessionId w' = sessionId w ->
  record_of env w' pending = record_of env w pending.
Proof.
  intros Hl Hu Hb Hs. unfold record_of, make_record.
  rewrite (stream_cost_same w w' _ Hu Hb Hl), Hs. reflexivity.
Qed.

Lemma record_for_same_base env_at (w w' : World) t :
  heap w' = heap w -> loaded_pricing w' = loaded_pricing w ->
  userPricing w' = userPricing w -> bundledPricing w' = bundledPricing w ->
  sessionId w' = sessionId w ->
  record_for env_at w' t = record_for env_at w t.
Proof.
  intros Hh Hl Hu Hb Hs. unfold record_for. rewrite Hh.
  destruct (heap w !! t); [|reflexivity]. now apply record_of_same_base.
Qed.

Lemma flush_one_idle env_at w t :
  buffers_ok w ->
  let w' := flush_one env_at w t in
  records w' = (records w ++ match record_for env_at w t with Some r => [r] | None => [] end)%list /\
  heap w' = heap w /\ loaded_pricing w' = loaded_pricing w /\ sessionId w' = sessionId w /\
  userPricing w' = userPricing w /\ bundledPricing w' = bundledPricing w /\
  (sink w' = sink w \/
   exists r, record_for env_at w t = Some r /\ sink w' = (sink w ++ [r])%list).
Proof.
  intros Hok. cbv zeta. unfold flush_one, record_for. rewrite (process_in_heap_idle t w Hok).
  destruct (heap w !! t) as [pending|]; [|rewrite app_nil_r; auto 10].
  rewrite finalizeStream_records.
  destruct (finalizeStream_frame (env_at t) pending w) as (? & _ & ? & ? & _ & ? & ?).
  pose proof (finalizeStream_sink (env_at t) pending w). auto 10.
Qed.

Lemma omap_cons {A B : Type} (f : A -> option B) (x : A) (l : list A) :
  omap f (x :: l) = (match f x with Some y => [y] | None => [] end ++ omap f l)%list.
Proof. cbn. now destruct (f x). Qed.

Lemma omap_pointwise {A B : Type} (f g : A -> option B) (l : list A) :
  (forall x, f x = g x) -> omap f l = omap g l.
Proof.
  intros Hfg. induction l as [|x l IH]; [reflexivity|].
  rewrite !omap_cons, Hfg, IH. reflexivity.
Qed.

Lemma flush_all_records env_at l : forall w,
  buffers_ok w ->
  records (fold_left (flush_one env_at) l w) =
  (records w ++ omap (record_for env_at w) l)%list.
Proof.
  induction l as [|t l IH]; intros w Hok; [cbn; now rewrite app_nil_r|].
  cbn [fold_left].
  destruct (flush_one_idle env_at w t Hok) as (Hrec & Hheap & Hcfg & Hsid & Hu & Hb & _).
  rewrite IH by (intros k p; rewrite Hheap; apply Hok).
  rewrite Hrec, <- app_assoc, omap_cons. f_equal. f_equal.
  apply omap_pointwise. intros k. now apply record_for_same_base.
Qed.

(** The sink receives, in order, some of the records the exit handler
    builds, and nothing else. *)
Lemma flush_all_sink_sublist env_at l : forall w,
  buffers_ok w ->
  exists sunk,
    sink (fold_left (flush_one env_at) l w) = (sink w ++ sunk)%list /\
    sublist sunk (omap (record_for env_at w) l).
Proof.
  induction l as [|t l IH]; intros w Hok.
  - exists []. cbn. rewrite app_nil_r. split; [reflexivity|constructor].
  - cbn [fold_left].
    destruct (flush_one_idle env_at w t Hok) as (_ & Hheap & Hcfg & Hsid & Hu & Hb & Hsink).
    destruct (IH (flush_one env_at w t)) as (sunk & Hs & Hsub).
    { intros k p. rewrite Hheap. apply Hok. }
    rewrite (omap_pointwise _ (record_for env_at w)) in Hsub
      by (intros k; now apply record_for_same_base).
    rewrite omap_cons, Hs.
    destruct Hsink as [Hsame|(r & Hr & Hadd)].
    + exists sunk. rewrite Hsame. split; [reflexivity|].
      destruct (record_for env_at w t); [now apply sublist_cons|exact Hsub].
    + exists (r :: sunk). rewrite Hadd, <- app_assoc, Hr. split; [reflexivity|].
      now apply sublist_skip.
Qed.

Section CostLaw.

(** On integer token counts the cost formula is plain arithmetic: it
    returns a number and throws nothing. *)
Hypothesis cost_formula_int : forall pricing a b c d,
  exists cost, cost_formula pricing (JNum a) (JNum b) (JNum c) (JNum d) = Some cost.

(** Adding a number to a counter throws nothing, whatever the counter has
    become: [+] throws only when an operand is an object that cannot be
    converted. *)
Hypothesis js_add_number : forall a n, exists a', js_add a (JNum n) = Some a'.

Lemma stream_cost_typed (w : World) table st :
  typed_state st = true -> loaded_pricing w = Some (Table table) ->
  exists cost, fst (stream_cost w st) = Some cost.
Proof using cost_formula_int.
  unfold typed_state, typed_usage. intros Hst Hload.
  apply andb_prop in Hst as [Hst _]. apply andb_prop in Hst as [Hmodel Hu].
  apply andb_prop in Hu as [Hu Hcr]. apply andb_prop in Hu as [Hu Hcw].
  apply andb_prop in Hu as [Hi Ho].
  unfold stream_cost. rewrite calculateCost_fst. fold (loaded_pricing w). rewrite Hload.
  destruct (or_zero_num _ Hcr) as [cr ->]. destruct (or_zero_num _ Hcw) as [cw ->].
  destruct (model st) as [| | | | | m | |]; try discriminate.
  destruct (input_tokens (usage st)) as [| | | i | | | |]; try discriminate.
  destruct (output_tokens (usage st)) as [| | | o | | | |]; try discriminate.
  destruct (resolve_in_table table m); eauto.
Qed.

(** A well-typed stream has a record as soon as the pricing table loads;
    its three character totals are those of its blocks. *)
Lemma record_of_typed env w table pending :
  typed_state (state pending) = true -> loaded_pricing w = Some (Table table) ->
  exists cost,
    fst (stream_cost w (state pending)) = Some cost /\
    record_of env w pending =
      Some (make_record env w pending
              (ANum (chars_of "thinking" (contentBlocks (state pending))),
               ANum (chars_of "text" (contentBlocks (state pending))),
               ANum (chars_of "tool_use" (contentBlocks (state pending)))) cost).
Proof using js_add_int cost_formula_int.
  intros Hst Hload.
  assert (Hblocks : forallb (fun b => is_anum (charCount b)) (contentBlocks (state pending)) = true).
  { unfold typed_state in Hst. now apply andb_prop in Hst as [_ ?]. }
  pose proof (sum_chars_totals _ 0 0 0 Hblocks) as Hchars. rewrite !Z.add_0_l in Hchars.
  destruct (stream_cost_typed w table _ Hst Hload) as [cost Hcost].
  exists cost. split; [exact Hcost|]. unfold record_of. now rewrite Hchars, Hcost.
Qed.

Lemma update_session_numbers cost st s :
  typed_usage (usage st) = true ->
  exists s', update_session cost st s = Normal s' /\ lastModel s' = model st.
Proof using js_add_number.
  unfold typed_usage. intros Hu.
  apply andb_prop in Hu as [Hu Hcr]. apply andb_prop in Hu as [Hu Hcw].
  apply andb_prop in Hu as [Hi Ho].
  destruct (or_zero_num _ Hcr) as [cr Ecr]. destruct (or_zero_num _ Hcw) as [cw Ecw].
  destruct (input_tokens (usage st)) as [| | | i | | | |] eqn:Ei; try discriminate.
  destruct (output_tokens (usage st)) as [| | | o | | | |] eqn:Eo; try discriminate.
  unfold update_session. rewrite Ei, Eo, Ecr, Ecw.
  cbn [totalInput totalOutput totalCacheRead totalCacheWrite].
  destruct (js_add_number (totalInput s) i) as [a ->].
  cbn [totalInput totalOutput totalCacheRead totalCacheWrite].
  destruct (js_add_number (totalOutput s) o) as [b ->].
  cbn [totalInput totalOutput totalCacheRead totalCacheWrite].
  destruct (js_add_number (totalCacheRead s) cr) as [c ->].
  cbn [totalInput totalOutput totalCacheRead totalCacheWrite].
  destruct (js_add_number (totalCacheWrite s) cw) as [d ->].
  eexists. split; reflexivity.
Qed.

(** A well-typed stream whose record can be built is finalized without an
    exception, whatever the session totals have become: the record goes to
    [records] and, when the write succeeds, to the sink. *)
Lemma finalizeStream_numbers env pending w r :
  typed_state (state pending) = true ->
  record_of env w pending = Some r ->
  exists w', finalizeStream env pending w = Normal w' /\
    records w' = (records w ++ [r])%list /\
    sink w' = (if sink_ok env then (sink w ++ [r])%list else sink w).
Proof using js_add_number.
  intros Hst Hrec. unfold typed_state in Hst.
  apply andb_prop in Hst as [Hst Hblocks]. apply andb_prop in Hst as [Hmodel Husage].
  unfold record_of in Hrec. unfold finalizeStream.
  destruct (sum_chars _ _) as [chars|]; [|discriminate].
  destruct (fst (stream_cost w (state pending))) as [cost|]; [|discriminate].
  injection Hrec as <-. cbv zeta.
  destruct (update_session_numbers cost (state pending)
              (session (push_record (make_record env w pending chars cost)
                          (set_pricingConfig (snd (stream_cost w (state pending))) w))) Husage)
    as (s' & Hupd & Hlast).
  rewrite Hupd. unfold updateLiveStatus. rewrite Hlast, Hmodel.
  eexists. split; [reflexivity|]. destruct (sink_ok env); cbn; auto.
Qed.

Lemma flush_one_typed env_at w t table pending :
  buffers_ok w -> heap w !! t = Some pending ->
  typed_state (state pending) = true -> loaded_pricing w = Some (Table table) ->
  sink_ok (env_at t) = true ->
  exists r, record_for env_at w t = Some r /\
    sink (flush_one env_at w t) = (sink w ++ [r])%list.
Proof using js_add_int js_add_number cost_formula_int.
  intros Hok Hp Hst Hload Hsink.
  destruct (record_of_typed (env_at t) w table pending Hst Hload) as (cost & _ & Hrec).
  destruct (finalizeStream_numbers (env_at t) pending w _ Hst Hrec) as (w' & Hfin & _ & Hs).
  eexists. unfold record_for, flush_one. rewrite (process_in_heap_idle t w Hok), Hp, Hfin.
  split; [exact Hrec|]. cbn [outcome]. now rewrite Hs, Hsink.
Qed.

(** The record of a well-typed pending stream whose write succeeds is in
    the sink after the loop of the exit handler, whatever the other
    streams are and whatever happens to them. *)
Lemma flush_all_sunk env_at l : forall w t table pending,
  buffers_ok w -> In t l -> heap w !! t = Some pending ->
  typed_state (state pending) = true -> loaded_pricing w = Some (Table table) ->
  sink_ok (env_at t) = true ->
  exists r, record_for env_at w t = Some r /\
            In r (sink (fold_left (flush_one env_at) l w)).
Proof using js_add_int js_add_number cost_formula_int.
  induction l as [|t0 l IH]; intros w t table pending Hok Hin Hp Hst Hload Hsink;
    [destruct Hin|].
  cbn [fold_left].
  destruct (flush_one_idle env_at w t0 Hok) as (_ & Hheap & Hcfg & Hsid & Hu & Hb & _).
  assert (Hok' : buffers_ok (flush_one env_at w t0))
    by (intros k p; rewrite Hheap; apply Hok).
  destruct (in_dec Nat.eq_dec t l) as [Hl|Hl].
  - destruct (IH (flush_one env_at w t0) t table pending Hok' Hl) as (r & Hr & Hinr);
      try assumption; [now rewrite Hheap|now rewrite Hcfg|].
    exists r. split; [|exact Hinr].
    rewrite <- Hr. symmetry. now apply record_for_same_base.
  - destruct Hin as [->|Hin]; [|contradiction].
    destruct (flush_one_typed env_at w t table pending Hok Hp Hst Hload Hsink) as (r & Hr & Hs).
    exists r. split; [exact Hr|].
    destruct (flush_all_sink_sublist env_at l (flush_one env_at w t) Hok') as (sunk & Hsunk & _).
    rewrite Hsunk, Hs. apply in_or_app. left. apply in_or_app. right. now left.
Qed.

Lemma flush_all_sink env_at l : forall w table,
  buffers_ok w -> loaded_pricing w = Some (Table table) ->
  (forall t, In t l -> exists pending,
      heap w !! t = Some pending /\ typed_state (state pending) = true /\
      sink_ok (env_at t) = true) ->
  sink (fold_left (flush_one env_at) l w) = (sink w ++ omap (record_for env_at w) l)%list.
Proof using js_add_int js_add_number cost_formula_int.
  induction l as [|t l IH]; intros w table Hok Hload Hall; [cbn; now rewrite app_nil_r|].
  destruct (Hall t (or_introl eq_refl)) as (pending & Hp & Hst & Hsink).
  destruct (flush_one_typed env_at w t table pending Hok Hp Hst Hload Hsink) as (r & Hr & Hs).
  destruct (flush_one_idle env_at w t Hok) as (_ & Hheap & Hcfg & Hsid & Hu & Hb & _).
  cbn [fold_left]. rewrite omap_cons, Hr, (IH _ table).
  - rewrite (omap_pointwise _ (record_for env_at w))
      by (intros k; now apply record_for_same_base).
    now rewrite Hs, <- app_assoc.
  - intros k p. rewrite Hheap. apply Hok.
  - now rewrite Hcfg.
  - intros k Hk. rewrite Hheap. apply Hall. now right.
Qed.

Lemma typed_streams_all_recorded env_at w table l :
  loaded_pricing w = Some (Table table) ->
  (forall t, In t l -> exists pending,
      heap w !! t = Some pending /\ typed_state (state pending) = true) ->
  List.length (omap (record_for env_at w) l) = List.length l.
Proof using js_add_int cost_formula_int.
  intros Hload. induction l as [|t l IH]; intros Hall; [reflexivity|].
  destruct (Hall t (or_introl eq_refl)) as (pending & Hp & Hst).
  destruct (record_of_typed (env_at t) w table pending Hst Hload) as (cost & _ & Hrec).
  rewrite omap_cons. unfold record_for at 1. rewrite Hp, Hrec. cbn.
  rewrite IH; [reflexivity|]. intros k Hk. apply Hall. now right.
Qed.

(** C4.  With streams still pending at exit (each buffer holding at most
    an incomplete line), the exit handler empties the pending set and
    appends to the records, in order, the record of every pending stream
    for which one can be built, one each, whatever happened to the others;
    the sink receives, in order, records among these and nothing else.  A
    stream whose finalization throws (one whose model is no string, say)
    adds nothing and blocks nothing.  Once the pricing table loads, every
    well-typed stream has such a record, and it carries the state the
    stream had reached: its turn, message id, model, four token counts and
    stop reason, and as character totals the characters of its blocks of
    each type, added up; when its write succeeds this record is in the sink
    afterwards, whatever the other streams are.  So when all pending
    streams are well typed there is exactly one record per pending stream,
    and when moreover the writes succeed the sink receives exactly these
    records. *)
Theorem exit_flush (env_at : nat -> Env) (w : World) :
  buffers_ok w ->
  pendingStreams (exitHandler env_at w) = [] /\
  records (exitHandler env_at w) =
    (records w ++ omap (record_for env_at w) (pendingStreams w))%list /\
  (exists sunk,
     sink (exitHandler env_at w) = (sink w ++ sunk)%list /\
     sublist sunk (omap (record_for env_at w) (pendingStreams w))) /\
  (forall t pending table,
     heap w !! t = Some pending -> typed_state (state pending) = true ->
     loaded_pricing w = Some (Table table) ->
     exists r, record_for env_at w t = Some r /\
       turn_number r = turnNum pending /\
       message_id r = messageId (state pending) /\
       rec_model r = model (state pending) /\
       rec_input_tokens r = input_tokens (usage (state pending)) /\
       rec_output_tokens r = output_tokens (usage (state pending)) /\
       rec_cache_creation_input_tokens r =
         Js.or (cache_creation_input_tokens (usage (state pending))) (JNum 0) /\
       rec_cache_read_input_tokens r =
         Js.or (cache_read_input_tokens (usage (state pending))) (JNum 0) /\
       stop_reason r = stopReason (state pending) /\
       thinking_chars r = ANum (chars_of "thinking" (contentBlocks (state pending))) /\
       text_chars r = ANum (chars_of "text" (contentBlocks (state pending))) /\
       tool_use_chars r = ANum (chars_of "tool_use" (contentBlocks (state pending))) /\
       (In t (pendingStreams w) -> sink_ok (env_at t) = true ->
        In r (sink (exitHandler env_at w)))) /\
  (forall t pending,
     heap w !! t = Some pending -> Js.is_string (model (state pending)) = false ->
     record_for env_at w t = None) /\
  (forall table,
     loaded_pricing w = Some (Table table) ->
     (forall t, In t (pendingStreams w) -> exists pending,
         heap w !! t = Some pending /\ typed_state (state pending) = true) ->
     List.length (omap (record_for env_at w) (pendingStreams w)) =
       List.length (pendingStreams w)) /\
  (forall table,
     loaded_pricing w = Some (Table table) ->
     (forall t, In t (pendingStreams w) -> exists pending,
         heap w !! t = Some pending /\ typed_state (state pending) = true /\
         sink_ok (env_at t) = true) ->
     sink (exitHandler env_at w) =
       (sink w ++ omap (record_for env_at w) (pendingStreams w))%list).
Proof using js_add_int js_add_number cost_formula_int.
  intros Hok. unfold exitHandler. cbn [pendingStreams records sink set_pendingStreams].
  split; [reflexivity|]. split; [now apply flush_all_records|].
  split; [now apply flush_all_sink_sublist|]. split; [|split; [|split]].
  - intros t pending table Hp Hst Hload.
    destruct (record_of_typed (env_at t) w table pending Hst Hload) as (cost & _ & Hrec).
    eexists. unfold record_for. rewrite Hp. split; [exact Hrec|].
    do 11 (split; [reflexivity|]).
    intros Hin Hsink.
    destruct (flush_all_sunk env_at (pendingStreams w) w t table pending Hok Hin Hp Hst Hload Hsink)
      as (r & Hr & Hinr).
    unfold record_for in Hr. rewrite Hp, Hrec in Hr. injection Hr as <-. exact Hinr.
  - intros t pending Hp Hbad. unfold record_for. rewrite Hp.
    now apply record_of_bad_model.
  - intros table Hload. now apply (typed_streams_all_recorded env_at w table).
  - intros table Hload Hall. now apply (flush_all_sink env_at _ w table).
Qed.

(** ** Invariants of the module state *)

Lemma absorb_buffer text pending ses :
  no_line_break (buffer (fst (absorb text (pending, ses)))) = true.
Proof. rewrite absorb_cut. cbn [fst buffer set_buffer]. apply cut_fragment. Qed.

(** After every callback each buffer holds an incomplete line only. *)
Lemma buffers_ok_feed t text w : buffers_ok w -> buffers_ok (feed t text w).
Proof.
  intros Hok. destruct (heap w !! t) as [pending|] eqn:Hp.
  - rewrite (feed_spec t text w pending Hp). intros k p. cbn [heap set_session set_heap].
    destruct (decide (t = k)) as [<- | Hne].
    + rewrite lookup_insert_eq. intros Hk; inversion Hk; subst p. apply absorb_buffer.
    + rewrite lookup_insert_ne by assumption. apply Hok.
  - now rewrite (feed_none t text w Hp).
Qed.

Lemma buffers_ok_fetch requestModel start is_event_stream w :
  buffers_ok w -> buffers_ok (fst (interceptedFetch requestModel start is_event_stream w)).
Proof.
  intros Hok. unfold interceptedFetch. destruct is_event_stream; [|exact Hok].
  cbn [fst]. unfold pending_set.
  match goal with |- context [if ?c then _ else _] => destruct c end;
    intros k p; cbn [heap set_heap set_pendingStreams];
    (destruct (decide (S (turnCounter w) = k)) as [<- | Hne];
     [ rewrite lookup_insert_eq; intros Hk; inversion Hk; reflexivity
     | rewrite lookup_insert_ne by assumption; apply Hok ]).
Qed.

Lemma heap_ok_fetch requestModel start is_event_stream w :
  heap_ok w -> heap_ok (fst (interceptedFetch requestModel start is_event_stream w)).
Proof.
  intros Hok. unfold interceptedFetch. destruct is_event_stream; [|exact Hok].
  cbn [fst]. unfold pending_set.
  match goal with |- context [if ?c then _ else _] => destruct c end;
    intros k p; cbn [heap set_heap set_pendingStreams];
    (destruct (decide (S (turnCounter w) = k)) as [<- | Hne];
     [ rewrite lookup_insert_eq; intros Hk; inversion Hk; reflexivity
     | rewrite lookup_insert_ne by assumption; apply Hok ]).
Qed.

Lemma read_chunk_invariants bytes env r w :
  (buffers_ok w -> buffers_ok (snd (read {| value := Some bytes; done := false |} env r w))) /\
  (heap_ok w -> heap_ok (snd (read {| value := Some bytes; done := false |} env r w))).
Proof.
  unfold read. cbn [value done]. destruct (decode (reader_decoder r) bytes) as [d text].
  cbn [snd reader_turn]. split; [apply buffers_ok_feed | apply feed_frame].
Qed.

Lemma stream_chunks_invariants env chunks : forall r w,
  (buffers_ok w -> buffers_ok (snd (stream_chunks chunks env (r, w)))) /\
  (heap_ok w -> heap_ok (snd (stream_chunks chunks env (r, w)))).
Proof.
  induction chunks as [|c chunks IH]; intros r w; [cbn; auto|].
  change (stream_chunks (c :: chunks) env (r, w))
    with (stream_chunks chunks env (read {| value := Some c; done := false |} env r w)).
  destruct (read_chunk_invariants c env r w) as [Hb Hh].
  destruct (read {| value := Some c; done := false |} env r w) as [r1 w1].
  destruct (IH r1 w1) as [IHb IHh]. cbn [snd] in Hb, Hh. split; auto.
Qed.

Lemma empty_heap_invariants (w : World) : heap w = ∅ -> buffers_ok w /\ heap_ok w.
Proof.
  intros Hempty. split; intros t p; rewrite Hempty, lookup_empty; discriminate.
Qed.

(** ** Well-typed streams *)

Lemma or_zero_is_num v : num_or_absent v = true -> is_num (Js.or v (JNum 0)) = true.
Proof.
  destruct v as [| | | n | | | |]; try discriminate; intros _; try reflexivity.
  unfold Js.or. cbn. now destruct (n =? 0).
Qed.

Lemma update_block_typed idx n bs :
  forallb (fun b => is_anum (charCount b)) bs = true ->
  forallb (fun b => is_anum (charCount b)) (update_block idx (ANum n) bs) = true.
Proof.
  induction bs as [|x bs IH]; [reflexivity|]. cbn [forallb update_block].
  intros Hall. apply andb_prop in Hall as [Hx Hall].
  destruct (Js.strict_eq (index x) idx); cbn [forallb set_charCount charCount is_anum].
  - exact Hall.
  - now rewrite Hx, IH.
Qed.

Lemma find_block_typed idx bs b :
  forallb (fun b => is_anum (charCount b)) bs = true ->
  find_block idx bs = Some b -> exists c, charCount b = ANum c.
Proof.
  intros Hall Hfind. apply find_some in Hfind as [Hin _].
  rewrite forallb_forall in Hall. specialize (Hall b Hin).
  destruct (charCount b) as [c| |]; try discriminate. eauto.
Qed.

(** An event with a payload of the expected shape keeps a well-typed state
    well typed: the states the typed statements speak of are the ones a
    conforming stream produces. *)
Lemma processSSEEvent_typed evt data st ses :
  typed_state st = true -> typed_payload evt data = true ->
  typed_state (fst (outcome (processSSEEvent evt data st ses))) = true.
Proof using js_add_int.
  intros Hst Hpay. unfold processSSEEvent. unfold typed_payload in Hpay. cbv zeta in Hpay.
  destruct (Js.is_str "message_start" evt).
  { unfold on_message_start.
    destruct (Js.get data "message") as [msg|]; [|exact Hst].
    change (default JUndefined (Some msg)) with msg in Hpay.
    destruct (Js.truthy msg); [|exact Hst].
    apply andb_prop in Hpay as [Hmodel Husage].
    set (st1 := if Js.truthy (default JUndefined (Js.get msg "id"))
                then set_messageId (default JUndefined (Js.get msg "id")) st else st).
    assert (H1 : typed_state st1 = true).
    { subst st1. now destruct (Js.truthy (default JUndefined (Js.get msg "id"))). }
    set (st2 := if Js.truthy (default JUndefined (Js.get msg "model"))
                then set_model (default JUndefined (Js.get msg "model")) st1 else st1).
    assert (H2 : typed_state st2 = true).
    { subst st2. destruct (Js.truthy (default JUndefined (Js.get msg "model"))) eqn:E; [|exact H1].
      destruct (default JUndefined (Js.get msg "model")); try discriminate.
      unfold typed_state in *. cbn [model usage contentBlocks set_model Js.is_string].
      apply andb_prop in H1 as [H1 Hb]. apply andb_prop in H1 as [_ Hu]. now rewrite Hu, Hb. }
    cbv zeta.
    match goal with |- context [updateLiveStatus ?s] => destruct (updateLiveStatus s) end;
      cbn [outcome fst];
      (destruct (Js.truthy (default JUndefined (Js.get msg "usage"))); [|exact H2];
       apply andb_prop in Husage as [Husage Hcr]; apply andb_prop in Husage as [Husage Hcw];
       apply andb_prop in Husage as [Hi Ho];
       unfold typed_state in *; cbn [model usage contentBlocks set_usage];
       apply andb_prop in H2 as [H2 Hblocks]; apply andb_prop in H2 as [Hm _];
       rewrite Hm, Hblocks; unfold typed_usage;
       cbn [input_tokens output_tokens cache_creation_input_tokens cache_read_input_tokens];
       rewrite (or_zero_is_num _ Hi), (or_zero_is_num _ Ho);
       apply or_zero_is_num in Hcw, Hcr;
       destruct (Js.or (default JUndefined (Js.get (default JUndefined (Js.get msg "usage"))
                                              "cache_creation_input_tokens")) (JNum 0));
       try discriminate;
       destruct (Js.or (default JUndefined (Js.get (default JUndefined (Js.get msg "usage"))
                                              "cache_read_input_tokens")) (JNum 0));
       try discriminate; reflexivity). }
  destruct (Js.is_str "content_block_start" evt).
  { unfold on_content_block_start.
    destruct (Js.get data "content_block") as [block|]; [|exact Hst].
    destruct (Js.get data "index") as [i|]; [|exact Hst].
    destruct (Js.truthy block); [|exact Hst]. cbn [outcome fst].
    unfold typed_state in *. cbn [model usage contentBlocks set_contentBlocks].
    apply andb_prop in Hst as [Hst Hblocks]. rewrite Hst, forallb_app, Hblocks. reflexivity. }
  destruct (Js.is_str "content_block_delta" evt).
  { unfold on_content_block_delta.
    destruct (Js.get data "index") as [idx|]; [|exact Hst].
    destruct (Js.get data "delta") as [delta|]; [|exact Hst].
    change (default JUndefined (Some delta)) with delta in Hpay.
    destruct (Js.truthy delta); [|exact Hst]. cbn [andb].
    destruct (negb (Js.strict_eq idx JUndefined)); [|exact Hst].
    destruct (find_block idx (contentBlocks st)) as [block|] eqn:Hfind; [|exact Hst].
    unfold typed_state in Hst. apply andb_prop in Hst as [Hst Hblocks].
    destruct (find_block_typed _ _ _ Hblocks Hfind) as [c Hc].
    destruct (text_length (delta_text delta)) as [| | | n | | | |]; try discriminate.
    rewrite Hc, js_add_int. cbn [outcome fst].
    unfold typed_state. cbn [model usage contentBlocks set_contentBlocks].
    now rewrite Hst, update_block_typed. }
  destruct (Js.is_str "message_delta" evt); [|exact Hst].
  unfold on_message_delta.
  destruct (Js.get data "usage") as [du|]; [|exact Hst].
  destruct (Js.get data "delta") as [d|]; [|exact Hst].
  change (default JUndefined (Some du)) with du in Hpay.
  cbn [outcome fst].
  set (st1 := if Js.truthy du
              then set_usage (set_output_tokens
                     (Js.nullish (default JUndefined (Js.get du "output_tokens"))
                                 (output_tokens (usage st))) (usage st)) st
              else st).
  assert (H1 : typed_state st1 = true).
  { subst st1. destruct (Js.truthy du); [|exact Hst].
    unfold typed_state, typed_usage in *.
    cbn [model usage contentBlocks set_usage set_output_tokens
         input_tokens output_tokens cache_creation_input_tokens cache_read_input_tokens].
    apply andb_prop in Hst as [Hst Hblocks]. apply andb_prop in Hst as [Hm Hu].
    apply andb_prop in Hu as [Hu Hcr]. apply andb_prop in Hu as [Hu Hcw].
    apply andb_prop in Hu as [Hi Ho]. rewrite Hm, Hblocks, Hi, Hcw, Hcr.
    destruct (default JUndefined (Js.get du "output_tokens")); try discriminate;
      cbn [Js.nullish is_num]; rewrite ?Ho; reflexivity. }
  destruct (Js.truthy d); [|exact H1].
  now destruct (Js.truthy (default JUndefined (Js.get d "stop_reason"))).
Qed.

Lemma run_events_typed events : forall st ses,
  typed_state st = true ->
  Forall (fun e => typed_payload (fst e) (snd e) = true) events ->
  typed_state (fst (run_events events (st, ses))) = true.
Proof using js_add_int.
  induction events as [|[evt data] events IH]; intros st ses Hst Hall; [exact Hst|].
  inversion Hall as [|? ? Hpay Hrest]; subst. cbn [fst snd] in Hpay.
  rewrite run_events_cons.
  pose proof (processSSEEvent_typed evt data st ses Hst Hpay) as H1.
  destruct (outcome (processSSEEvent evt data st ses)) as [st1 ses1]. now apply IH.
Qed.

(** ** The live totals *)

Lemma same_totals_refl s : same_totals s s.
Proof. now repeat split. Qed.

Lemma same_totals_trans s1 s2 s3 : same_totals s1 s2 -> same_totals s2 s3 -> same_totals s1 s3.
Proof. unfold same_totals. intuition congruence. Qed.

Lemma processSSEEvent_totals evt data st ses :
  same_totals ses (snd (outcome (processSSEEvent evt data st ses))).
Proof.
  pose proof (same_totals_refl ses) as Hrefl. unfold processSSEEvent.
  destruct (Js.is_str "message_start" evt).
  { unfold on_message_start. destruct (Js.get data "message") as [msg|]; [|exact Hrefl].
    destruct (Js.truthy msg); [|exact Hrefl]. cbv zeta.
    match goal with |- context [updateLiveStatus ?s] => destruct (updateLiveStatus s) end;
      now repeat split. }
  destruct (Js.is_str "content_block_start" evt).
  { unfold on_content_block_start.
    destruct (Js.get data "content_block") as [block|]; [|exact Hrefl].
    destruct (Js.get data "index") as [i|]; [|exact Hrefl].
    destruct (Js.truthy block); exact Hrefl. }
  destruct (Js.is_str "content_block_delta" evt).
  { unfold on_content_block_delta.
    destruct (Js.get data "index") as [idx|]; [|exact Hrefl].
    destruct (Js.get data "delta") as [delta|]; [|exact Hrefl].
    destruct (Js.truthy delta && negb (Js.strict_eq idx JUndefined)); [|exact Hrefl].
    destruct (find_block idx (contentBlocks st)) as [block|]; [|exact Hrefl].
    destruct (js_add (charCount block) (text_length (delta_text delta))); exact Hrefl. }
  destruct (Js.is_str "message_delta" evt); [|exact Hrefl].
  unfold on_message_delta.
  destruct (Js.get data "usage") as [du|]; [|exact Hrefl].
  destruct (Js.get data "delta") as [d|]; exact Hrefl.
Qed.

Lemma processLine_totals l pending ses :
  same_totals ses (snd (processLine l (pending, ses))).
Proof.
  pose proof (same_totals_refl ses) as Hrefl. unfold processLine.
  destruct (startsWith "event: " l); [exact Hrefl|].
  destruct (startsWith "data: " l).
  - destruct (String.eqb (slice 6 l) "[DONE]"); [exact Hrefl|].
    destruct (JSON_parse (slice 6 l)) as [parsed|]; [|exact Hrefl].
    destruct (if Js.truthy (JStr (eventType pending)) then Some (JStr (eventType pending))
              else Js.get parsed "type") as [evt|]; [|exact Hrefl].
    pose proof (processSSEEvent_totals evt parsed (state pending) ses) as Hs.
    now destruct (outcome (processSSEEvent evt parsed (state pending) ses)).
  - destruct (String.eqb (trim l) ""); exact Hrefl.
Qed.

Lemma process_lines_totals ls : forall pending ses,
  same_totals ses (snd (process_lines ls (pending, ses))).
Proof.
  induction ls as [|l ls IH]; intros pending ses; [apply same_totals_refl|].
  change (process_lines (l :: ls) (pending, ses))
    with (process_lines ls (processLine l (pending, ses))).
  pose proof (processLine_totals l pending ses) as Hl.
  destruct (processLine l (pending, ses)) as [p1 s1]. cbn [snd] in Hl.
  exact (same_totals_trans _ _ _ Hl (IH p1 s1)).
Qed.

(** A chunk changes no total of the session. *)
Lemma feed_totals t text w : same_totals (session w) (session (feed t text w)).
Proof.
  destruct (heap w !! t) as [pending|] eqn:Hp.
  - rewrite (feed_spec _ _ _ _ Hp), absorb_cut. cbn [session set_session snd].
    apply process_lines_totals.
  - rewrite feed_none by assumption. apply same_totals_refl.
Qed.

Lemma feed_pricing t text w :
  loaded_pricing (feed t text w) = loaded_pricing w /\
  userPricing (feed t text w) = userPricing w /\
  bundledPricing (feed t text w) = bundledPricing w /\
  sessionId (feed t text w) = sessionId w /\
  turnCounter (feed t text w) = turnCounter w.
Proof.
  destruct (heap w !! t) as [pending|] eqn:Hp.
  - now rewrite (feed_spec _ _ _ _ Hp).
  - now rewrite feed_none.
Qed.

Lemma ledger_same_totals start (w w' : World) :
  records w' = records w -> same_totals (session w) (session w') ->
  ledger_matches start w -> ledger_matches start w'.
Proof.
  unfold ledger_matches, same_totals. intros -> (-> & -> & -> & -> & -> & -> & _). tauto.
Qed.

Lemma sum_of_app f rs r : sum_of f (rs ++ [r]) = sum_of f rs + num_of (f r).
Proof.
  unfold sum_of. induction rs as [|r0 rs IH]; cbn [app fold_right]; [lia|].
  rewrite IH. lia.
Qed.

Lemma update_session_exact cost st s ti to tr tw i o cr cw :
  totalInput s = ANum ti -> totalOutput s = ANum to ->
  totalCacheRead s = ANum tr -> totalCacheWrite s = ANum tw ->
  input_tokens (usage st) = JNum i -> output_tokens (usage st) = JNum o ->
  Js.or (cache_read_input_tokens (usage st)) (JNum 0) = JNum cr ->
  Js.or (cache_creation_input_tokens (usage st)) (JNum 0) = JNum cw ->
  update_session cost st s =
  Normal {| totalCost := cost_add (totalCost s) cost; totalInput := ANum (ti + i);
            totalOutput := ANum (to + o); totalCacheRead := ANum (tr + cr);
            totalCacheWrite := ANum (tw + cw); turns := turns s + 1;
            lastModel := model st; lastTurnCost := cost |}.
Proof using js_add_int.
  intros Hti Hto Htr Htw Hi Ho Hcr Hcw. unfold update_session.
  cbn [totalInput totalOutput totalCacheRead totalCacheWrite totalCost turns lastModel
       lastTurnCost].
  rewrite Hti, Hi, js_add_int. cbn [totalInput totalOutput totalCacheRead totalCacheWrite
       totalCost turns lastModel lastTurnCost].
  rewrite Hto, Ho, js_add_int. cbn [totalInput totalOutput totalCacheRead totalCacheWrite
       totalCost turns lastModel lastTurnCost].
  rewrite Htr, Hcr, js_add_int. cbn [totalInput totalOutput totalCacheRead totalCacheWrite
       totalCost turns lastModel lastTurnCost].
  rewrite Htw, Hcw, js_add_int. reflexivity.
Qed.

Lemma update_session_turns cost st s s' :
  update_session cost st s = Normal s' -> turns s' = turns s + 1.
Proof.
  unfold update_session.
  cbn [totalInput totalOutput totalCacheRead totalCacheWrite totalCost turns lastModel
       lastTurnCost].
  destruct (js_add (totalInput s) _); [|discriminate].
  destruct (js_add (totalOutput s) _); [|discriminate].
  destruct (js_add (totalCacheRead s) _); [|discriminate].
  destruct (js_add (totalCacheWrite s) _); [|discriminate].
  intros [= <-]. reflexivity.
Qed.

(** Finalizing a stream whose usage counters are numbers, in a session
    whose totals are the sums over the records, appends its record and
    adds exactly its counts to the totals. *)
Lemma finalizeStream_ledger start env pending w r :
  ledger_matches start w ->
  typed_usage (usage (state pending)) = true ->
  record_of env w pending = Some r ->
  exists w', finalizeStream env pending w = Normal w' /\
    records w' = (records w ++ [r])%list /\
    sink w' = (if sink_ok env then (sink w ++ [r])%list else sink w) /\
    ledger_matches start w'.
Proof using js_add_int.
  intros Hl Htyped Hrec. unfold record_of in Hrec.
  destruct (sum_chars (contentBlocks (state pending)) (ANum 0, ANum 0, ANum 0))
    as [[[thinkingChars textChars] toolUseChars]|] eqn:Hsum; [|discriminate].
  destruct (fst (stream_cost w (state pending))) as [cost|] eqn:Hcost; [|discriminate].
  injection Hrec as <-.
  destruct Hl as (HI & HO & HR & HW & HT & HC).
  unfold typed_usage in Htyped. rewrite !andb_true_iff in Htyped.
  destruct Htyped as [[[Hi Ho] Hcw] Hcr].
  destruct (input_tokens (usage (state pending))) as [| | |i| | | |] eqn:Ei; try discriminate Hi.
  destruct (output_tokens (usage (state pending))) as [| | |o| | | |] eqn:Eo; try discriminate Ho.
  destruct (or_zero_num _ Hcw) as [cw Ecw]. destruct (or_zero_num _ Hcr) as [cr Ecr].
  assert (Hmodel : Js.is_string (model (state pending)) = true).
  { unfold stream_cost in Hcost. rewrite calculateCost_fst in Hcost.
    destruct (model (state pending)); try reflexivity;
      now destruct (fst (loadPricing _ _ _)) as [[|]|]. }
  unfold finalizeStream. rewrite Hsum, Hcost. cbv zeta.
  change (session (push_record ?r (set_pricingConfig ?c w))) with (session w).
  rewrite (update_session_exact cost (state pending) _ _ _ _ _ i o cr cw HI HO HR HW Ei Eo Ecr Ecw).
  unfold updateLiveStatus. cbn [lastModel]. rewrite Hmodel.
  eexists. split; [reflexivity|].
  split; [destruct (sink_ok env); unfold make_record; rewrite Ei, Eo; reflexivity|].
  split; [destruct (sink_ok env); unfold make_record; rewrite Ei, Eo; reflexivity|].
  unfold ledger_matches.
  destruct (sink_ok env);
    cbn [session records set_session push_record append_sink set_pricingConfig totalInput
         totalOutput totalCacheRead totalCacheWrite turns totalCost];
    rewrite !sum_of_app, fold_left_app, length_app, HC;
    cbn [make_record rec_input_tokens rec_output_tokens rec_cache_read_input_tokens
         rec_cache_creation_input_tokens cost_usd fold_left List.length];
    rewrite Ei, Eo, Ecr, Ecw; cbn [num_of]; repeat split; lia.
Qed.

Lemma flush_all_ledger start env_at l : forall w,
  buffers_ok w -> ledger_matches start w ->
  (forall t, In t l -> exists pending table,
      heap w !! t = Some pending /\ typed_state (state pending) = true /\
      loaded_pricing w = Some (Table table)) ->
  ledger_matches start (fold_left (flush_one env_at) l w).
Proof using js_add_int cost_formula_int.
  induction l as [|t l IH]; intros w Hok Hl Hall; [exact Hl|].
  cbn [fold_left].
  destruct (Hall t (or_introl eq_refl)) as (pending & table & Hp & Hst & Hload).
  destruct (flush_one_idle env_at w t Hok) as (_ & Hheap & Hcfg & _).
  apply IH.
  - intros k p. rewrite Hheap. apply Hok.
  - unfold flush_one. rewrite (process_in_heap_idle t w Hok), Hp.
    destruct (record_of_typed (env_at t) w table pending Hst Hload) as (cost & _ & Hrec).
    assert (Hu : typed_usage (usage (state pending)) = true).
    { unfold typed_state in Hst. rewrite !andb_true_iff in Hst. tauto. }
    destruct (finalizeStream_ledger start (env_at t) pending w _ Hl Hu Hrec)
      as (w' & Hfin & _ & _ & Hl').
    now rewrite Hfin.
  - intros k Hk. rewrite Hheap, Hcfg. apply Hall. now right.
Qed.

(** ** Finalizing once *)

Lemma finalizeStream_normal_built env pending w w' :
  finalizeStream env pending w = Normal w' ->
  exists r, record_of env w pending = Some r /\
    records w' = (records w ++ [r])%list /\
    sink w' = (if sink_ok env then (sink w ++ [r])%list else sink w) /\
    turns (session w') = turns (session w) + 1.
Proof.
  unfold finalizeStream, record_of.
  destruct (sum_chars _ _) as [chars|]; [|discriminate].
  destruct (fst (stream_cost w (state pending))) as [cost|]; [|discriminate]. cbv zeta.
  destruct (update_session cost (state pending) _) as [s|s] eqn:Hupd; [|discriminate].
  apply update_session_turns in Hupd.
  destruct (updateLiveStatus s); [|discriminate].
  intros [= <-]. eexists. split; [reflexivity|].
  destruct (sink_ok env); cbn; auto.
Qed.

Lemma flush_one_new env_at w t :
  heap_ok w ->
  exists new sunk,
    records (flush_one env_at w t) = (records w ++ new)%list /\
    sink (flush_one env_at w t) = (sink w ++ sunk)%list /\
    Forall (fun r => turn_number r = t) new /\
    Forall (fun r => turn_number r = t) sunk /\
    heap_ok (flush_one env_at w t).
Proof.
  intros Hok. unfold flush_one. rewrite process_in_heap_feed.
  destruct (feed_frame t "" w) as (Hrec & _ & Hsink & Hok1). specialize (Hok1 Hok).
  destruct (heap (feed t "" w) !! t) as [pending|] eqn:Hp.
  - rewrite finalizeStream_records, Hrec.
    destruct (finalizeStream_frame (env_at t) pending (feed t "" w)) as (Hheap & _).
    assert (Hok2 : heap_ok (outcome (finalizeStream (env_at t) pending (feed t "" w)))).
    { intros k p. rewrite Hheap. apply Hok1. }
    assert (Hturn : forall r, record_of (env_at t) (feed t "" w) pending = Some r ->
                              turn_number r = t).
    { intros r Hr. rewrite (record_of_turn _ _ _ _ Hr). now apply Hok1. }
    assert (Hnew : exists new,
               match record_of (env_at t) (feed t "" w) pending with
               | Some r => [r] | None => [] end = new /\
               Forall (fun r => turn_number r = t) new).
    { destruct (record_of (env_at t) (feed t "" w) pending) as [r|]; eexists; split;
        try reflexivity; repeat constructor. now apply Hturn. }
    destruct Hnew as (new & -> & Hnew).
    destruct (finalizeStream_sink (env_at t) pending (feed t "" w)) as [Hs|(r & Hr & Hs)].
    + exists new, []. rewrite Hs, Hsink, app_nil_r. repeat split; try assumption. constructor.
    + exists new, [r]. rewrite Hs, Hsink. repeat split; try assumption.
      repeat constructor. now apply Hturn.
  - exists [], []. rewrite !app_nil_r. repeat split; try assumption; constructor.
Qed.

Lemma flush_all_new env_at l : forall w,
  heap_ok w ->
  exists new sunk,
    records (fold_left (flush_one env_at) l w) = (records w ++ new)%list /\
    sink (fold_left (flush_one env_at) l w) = (sink w ++ sunk)%list /\
    Forall (fun r => In (turn_number r) l) new /\
    Forall (fun r => In (turn_number r) l) sunk.
Proof.
  induction l as [|t l IH]; intros w Hok.
  - exists [], []. cbn. rewrite !app_nil_r. repeat split; constructor.
  - cbn [fold_left].
    destruct (flush_one_new env_at w t Hok) as (new1 & sunk1 & Hrec1 & Hsink1 & Hn1 & Hs1 & Hok1).
    destruct (IH _ Hok1) as (new2 & sunk2 & Hrec2 & Hsink2 & Hn2 & Hs2).
    exists (new1 ++ new2)%list, (sunk1 ++ sunk2)%list.
    rewrite Hrec2, Hrec1, Hsink2, Hsink1, <- !app_assoc.
    split; [reflexivity|]. split; [reflexivity|]. split; apply Forall_app; split.
    + eapply List.Forall_impl; [|exact Hn1]. intros r ->. now left.
    + eapply List.Forall_impl; [|exact Hn2]. intros r Hr. now right.
    + eapply List.Forall_impl; [|exact Hs1]. intros r ->. now left.
    + eapply List.Forall_impl; [|exact Hs2]. intros r Hr. now right.
Qed.

(** C3, as the code has it.  [finalizeStream] neither consults nor changes
    the pending set.  When the completion callback finalizes a stream
    without an exception, that same callback appends the record, hands it
    to the sink, counts the turn once in the session totals and deletes the
    turn from the pending set; the exit handler, which visits the pending
    set only, then emits nothing for that turn, neither to the records nor
    to the sink, and when no other stream is pending it changes nothing at
    all.  The session totals, once they are the sums over the records, are
    so after the callback and after the exit handler, the record of the
    turn counted once. *)
Theorem finalize_then_exit (t : nat) (tail : string) (env : Env) (env_at : nat -> Env)
    (w w2 : World) (pending : PendingStream) :
  heap_ok w ->
  heap (feed t tail w) !! t = Some pending ->
  finalizeStream env pending (feed t tail w) = Normal w2 ->
  (pendingStreams w2 = pendingStreams w /\
   forall l, finalizeStream env pending (set_pendingStreams l (feed t tail w)) =
             Normal (set_pendingStreams l w2)) /\
  ~ In t (pendingStreams (on_done t tail env w)) /\
  (exists r,
     records (on_done t tail env w) = (records w ++ [r])%list /\ turn_number r = t /\
     sink (on_done t tail env w) = (if sink_ok env then (sink w ++ [r])%list else sink w) /\
     turns (session (on_done t tail env w)) = turns (session w) + 1) /\
  (exists new sunk,
     records (exitHandler env_at (on_done t tail env w)) =
       (records (on_done t tail env w) ++ new)%list /\
     sink (exitHandler env_at (on_done t tail env w)) =
       (sink (on_done t tail env w) ++ sunk)%list /\
     Forall (fun r => turn_number r <> t) new /\
     Forall (fun r => turn_number r <> t) sunk) /\
  ((forall k, In k (pendingStreams w) -> k = t) ->
   exitHandler env_at (on_done t tail env w) = on_done t tail env w) /\
  (forall start,
     ledger_matches start w -> typed_usage (usage (state pending)) = true ->
     ledger_matches start (on_done t tail env w) /\
     (buffers_ok w ->
      (forall k, In k (pendingStreams w) -> k <> t -> exists other table,
          heap (feed t tail w) !! k = Some other /\ typed_state (state other) = true /\
          loaded_pricing w = Some (Table table)) ->
      ledger_matches start (exitHandler env_at (on_done t tail env w)))).
Proof using js_add_int cost_formula_int.
  intros Hok Hp Hfin.
  destruct (feed_frame t tail w) as (Hrec & Hpend & Hsink & Hok1). specialize (Hok1 Hok).
  destruct (finalizeStream_frame env pending (feed t tail w))
    as (Hheap & Hpending & Hload & _ & _ & _ & _).
  rewrite Hfin in Hheap, Hpending, Hload. cbn [outcome] in Hheap, Hpending, Hload.
  destruct (finalizeStream_normal_built _ _ _ _ Hfin) as (r & Hr & Hrecs & Hsunk & Hturns).
  rewrite Hrec in Hrecs. rewrite Hsink in Hsunk.
  assert (Hturns' : turns (session w2) = turns (session w) + 1).
  { rewrite Hturns. f_equal. apply (feed_totals t tail w). }
  assert (Hdone : on_done t tail env w = pending_delete t w2).
  { unfold on_done. now rewrite Hp, Hfin. }
  rewrite Hdone.
  assert (Hgone : ~ In t (pendingStreams (pending_delete t w2))).
  { unfold pending_delete. cbn [pendingStreams set_pendingStreams]. intros Hin.
    apply filter_In in Hin as [_ Hneq]. rewrite Nat.eqb_refl in Hneq. discriminate. }
  assert (Hok2 : heap_ok (pending_delete t w2)).
  { intros k p. cbn [heap pending_delete set_pendingStreams]. rewrite Hheap. apply Hok1. }
  split; [|split; [exact Hgone|split; [|split; [|split]]]].
  - split; [now rewrite Hpending|]. intros l.
    rewrite finalizeStream_pending_blind. now rewrite Hfin.
  - exists r. split; [exact Hrecs|]. split; [|split; [exact Hsunk|exact Hturns']].
    rewrite (record_of_turn _ _ _ _ Hr). now apply Hok1.
  - destruct (flush_all_new env_at (pendingStreams (pending_delete t w2)) (pending_delete t w2) Hok2)
      as (new & sunk & Hnew & Hs & Hturn & Hturns2).
    exists new, sunk. split; [exact Hnew|]. split; [exact Hs|].
    split; (eapply List.Forall_impl; [|eassumption]); intros r' Hin Heq; apply Hgone;
      cbv beta in Hin; rewrite Heq in Hin; exact Hin.
  - intros Honly. unfold exitHandler.
    assert (Hnone : pendingStreams (pending_delete t w2) = []).
    { unfold pending_delete. cbn [pendingStreams set_pendingStreams]. rewrite Hpending, Hpend.
      revert Honly. generalize (pendingStreams w). intros l.
      induction l as [|k l IH]; intros Honly; [reflexivity|]. cbn [List.filter].
      rewrite (Honly k (or_introl eq_refl)), Nat.eqb_refl. cbn [negb].
      apply IH. intros k' Hk'. apply Honly. now right. }
    rewrite Hnone. cbn [fold_left]. rewrite <- Hnone at 1.
    unfold set_pendingStreams. apply world_eta.
  - intros start Hl Htyped.
    assert (Hl1 : ledger_matches start (feed t tail w))
      by (apply (ledger_same_totals start w); [exact (proj1 (feed_frame t tail w))|apply feed_totals|exact Hl]).
    destruct (finalizeStream_ledger start env pending (feed t tail w) r Hl1 Htyped Hr)
      as (w' & Hfin' & _ & _ & Hl2).
    rewrite Hfin in Hfin'. injection Hfin' as <-.
    assert (Hl3 : ledger_matches start (pending_delete t w2)) by exact Hl2.
    split; [exact Hl3|]. intros Hbuf Hothers.
    unfold exitHandler.
    apply (ledger_same_totals start (fold_left (flush_one env_at)
             (pendingStreams (pending_delete t w2)) (pending_delete t w2)));
      [reflexivity|apply same_totals_refl|].
    apply flush_all_ledger; [|exact Hl3|].
    + intros k p. cbn [heap pending_delete set_pendingStreams]. rewrite Hheap.
      apply (buffers_ok_feed t tail w Hbuf).
    + intros k Hk. unfold pending_delete in Hk. cbn [pendingStreams set_pendingStreams] in Hk.
      apply filter_In in Hk. destruct Hk as [Hk Hne]. rewrite Hpending, Hpend in Hk.
      assert (Hkt : k <> t) by (intros ->; rewrite Nat.eqb_refl in Hne; discriminate).
      destruct (Hothers k Hk Hkt) as (other & table & Ho & Hst & Hlo).
      exists other, table. cbn [heap pending_delete set_pendingStreams].
      rewrite Hheap. split; [exact Ho|]. split; [exact Hst|].
      change (loaded_pricing (pending_delete t w2)) with (loaded_pricing w2).
      rewrite Hload. now rewrite (proj1 (feed_pricing t tail w)).
Qed.

(** ** The final record *)

(** C1.  A stream whose [message_start] carries the usage
    [{input_tokens: 100, output_tokens: 0}] and whose later [message_delta]
    carries [{output_tokens: 50}], with any content or unknown events
    between and after, ends in a state with [input_tokens = 100] and
    [output_tokens = 50]; and when the payloads have the types of the wire
    format and the pricing table loads, finalizing the stream appends
    exactly one record, which carries [input_tokens = 100] and
    [output_tokens = 50] and goes to the sink when the write succeeds, also
    when the finalizer is run by the completion callback.  In general a
    [message_delta] whose usage carries an output token count overwrites
    the stored one with it, and a stop reason that is present (truthy) is
    stored. *)
Theorem correction_semantics :
  (forall (st : StreamState) (ses : Session) (start_data msg u delta_data du : JsValue)
          (between after : list (JsValue * JsValue)),
     Js.get start_data "message" = Some msg ->
     Js.get msg "usage" = Some u ->
     Js.get u "input_tokens" = Some (JNum 100) ->
     Js.get u "output_tokens" = Some (JNum 0) ->
     Js.get delta_data "usage" = Some du ->
     Js.get du "output_tokens" = Some (JNum 50) ->
     Forall (fun e => fst e <> JStr "message_start" /\ fst e <> JStr "message_delta") between ->
     Forall (fun e => fst e <> JStr "message_start" /\ fst e <> JStr "message_delta") after ->
     let events := (JStr "message_start", start_data) :: between ++
                   (JStr "message_delta", delta_data) :: after in
     let final := fst (run_events events (st, ses)) in
     input_tokens (usage final) = JNum 100 /\ output_tokens (usage final) = JNum 50 /\
     (typed_state st = true ->
      Forall (fun e => typed_payload (fst e) (snd e) = true) events ->
      forall (env : Env) (w : World) (pending : PendingStream) (table : PricingConfig),
        state pending = final ->
        loaded_pricing w = Some (Table table) ->
        exists r,
          records (outcome (finalizeStream env pending w)) = (records w ++ [r])%list /\
          rec_input_tokens r = JNum 100 /\ rec_output_tokens r = JNum 50 /\
          turn_number r = turnNum pending /\
          sink (outcome (finalizeStream env pending w)) =
            (if sink_ok env then (sink w ++ [r])%list else sink w) /\
          (forall t, heap w !! t = Some pending -> no_line_break (buffer pending) = true ->
             records (on_done t "" env w) = (records w ++ [r])%list /\
             sink (on_done t "" env w) =
               (if sink_ok env then (sink w ++ [r])%list else sink w)))) /\
  (forall (st : StreamState) (ses : Session) (data du v : JsValue),
     Js.get data "usage" = Some du -> Js.get du "output_tokens" = Some v ->
     v <> JUndefined -> v <> JNull ->
     output_tokens (usage (fst (outcome (processSSEEvent (JStr "message_delta") data st ses)))) = v) /\
  (forall (st : StreamState) (ses : Session) (data d reason : JsValue),
     Js.get data "delta" = Some d -> Js.get d "stop_reason" = Some reason ->
     Js.truthy reason = true ->
     stopReason (fst (outcome (processSSEEvent (JStr "message_delta") data st ses))) = reason).
Proof using js_add_int js_add_number cost_formula_int.
  split; [|split; [exact message_delta_writes|exact message_delta_stop_reason]].
  intros st ses start_data msg u delta_data du between after
         Hmsg Hu Hin Hout Hdu Hdout Hbetween Hafter.
  cbv zeta.
  destruct (correction_events st ses start_data msg u delta_data du between after
              Hmsg Hu Hin Hout Hdu Hdout Hbetween Hafter) as [Hi Ho].
  split; [exact Hi|]. split; [exact Ho|].
  intros Hst Hev env w pending table Hstate Hload.
  pose proof (run_events_typed _ st ses Hst Hev) as Hfinal.
  rewrite <- Hstate in Hfinal, Hi, Ho.
  destruct (record_of_typed env w table pending Hfinal Hload) as (cost & _ & Hrec).
  destruct (finalizeStream_numbers env pending w _ Hfinal Hrec) as (w' & Hfin & Hrecs & Hsink).
  eexists. rewrite Hfin. cbn [outcome].
  split; [exact Hrecs|]. split; [exact Hi|]. split; [exact Ho|]. split; [reflexivity|].
  split; [exact Hsink|].
  intros t Hp Hnl.
  assert (Hfeed : feed t "" w = w).
  { rewrite (feed_spec _ _ _ _ Hp), (absorb_nothing _ _ Hnl).
    unfold set_session, set_heap. cbn. rewrite (insert_id _ _ _ Hp). apply world_eta. }
  unfold on_done. rewrite Hfeed, Hp, Hfin.
  cbn [pending_delete records sink set_pendingStreams]. now split.
Qed.

End CostLaw.

End Properties.

(** * The statements at work on the sample stream *)

Lemma sample_js_add_int : forall a b,
  js_add (Host := Sample.host) (ANum a) (JNum b) = Some (ANum (a + b)).
Proof. reflexivity. Qed.

Lemma sample_cost_formula_int : forall pricing a b c d,
  exists cost,
    cost_formula (Host := Sample.host) pricing (JNum a) (JNum b) (JNum c) (JNum d) = Some cost.
Proof. intros [p|] a b c d; eexists; reflexivity. Qed.

Lemma sample_decode_app : forall (d : DecoderState (Host := Sample.host)) a b,
  decode (Host := Sample.host) d (a ++ b)%list =
  (fst (decode (fst (decode d a)) b),
   (snd (decode d a) ++ snd (decode (fst (decode d a)) b))%string).
Proof.
  intros d a b. cbn. f_equal.
  unfold string_of_list_byte.
  induction a as [|x a IH]; [reflexivity|]. cbn [app List.map string_of_list_ascii].
  append_step. rewrite IH. reflexivity.
Qed.

Lemma sample_started_invariants :
  buffers_ok (H := Sample.host) Sample.started /\ heap_ok (H := Sample.host) Sample.started.
Proof.
  destruct (empty_heap_invariants (H := Sample.host) Sample.world0 eq_refl) as [Hb Hh].
  split; [now apply buffers_ok_fetch | now apply heap_ok_fetch].
Qed.

Lemma unknown_event_ignored_witness :
  processSSEEvent (H := Sample.host) (JStr "ping") Sample.ping_json
    Sample.state1 Sample.session0 = Normal (Sample.state1, Sample.session0) /\
  run_events (H := Sample.host)
    ([(JStr "content_block_delta", Sample.delta_json "Hello")] ++
     (JStr "ping", Sample.ping_json) :: [(JStr "content_block_delta", Sample.delta_json ", world")])
    (Sample.state1, Sample.session0) =
  run_events (H := Sample.host)
    ([(JStr "content_block_delta", Sample.delta_json "Hello")] ++
     [(JStr "content_block_delta", Sample.delta_json ", world")])
    (Sample.state1, Sample.session0).
Proof.
  apply (unknown_event_ignored (H := Sample.host)).
  intros name Hin. simpl in Hin.
  destruct Hin as [<- | [<- | [<- | [<- | []]]]]; discriminate.
Defined.

Lemma message_delta_frame_witness :
  output_tokens (usage (fst (outcome
    (processSSEEvent (H := Sample.host) (JStr "message_delta") Sample.usage_without_output
       Sample.state1 Sample.session0)))) = JNum 0.
Proof.
  destruct (message_delta_frame (H := Sample.host) Sample.usage_without_output
              Sample.state1 Sample.session0) as (_ & _ & _ & _ & _ & _ & _ & Hout).
  apply (Hout (JObj [("input_tokens", JNum 7)])); reflexivity.
Defined.

Lemma sample_js_add_number : forall a n,
  exists a', js_add (Host := Sample.host) a (JNum n) = Some a'.
Proof. intros [x| |x] n; eexists; reflexivity. Qed.

Lemma correction_semantics_witness :
  (let final := fst (run_events (H := Sample.host) Sample.corrected_events
                       (state (new_pending (JStr "claude-opus-4-6") 1 1000), Sample.session0)) in
   input_tokens (usage final) = JNum 100 /\ output_tokens (usage final) = JNum 50) /\
  (exists r,
     records (outcome (finalizeStream (H := Sample.host) Sample.env0 Sample.corrected_stream
                         Sample.world0)) = [r] /\
     rec_input_tokens r = JNum 100 /\ rec_output_tokens r = JNum 50 /\
     sink (outcome (finalizeStream (H := Sample.host) Sample.env0 Sample.corrected_stream
                      Sample.world0)) = [r]) /\
  output_tokens (usage (fst (outcome
    (processSSEEvent (H := Sample.host) (JStr "message_delta") Sample.message_delta_json
       Sample.state1 Sample.session0)))) = JNum 50 /\
  stopReason (fst (outcome
    (processSSEEvent (H := Sample.host) (JStr "message_delta") Sample.message_delta_json
       Sample.state1 Sample.session0))) = JStr "end_turn".
Proof.
  destruct (correction_semantics (H := Sample.host) sample_js_add_int sample_cost_formula_int
              sample_js_add_number) as (Hscenario & Hwrite & Hstop).
  destruct (Hscenario (state (new_pending (JStr "claude-opus-4-6") 1 1000)) Sample.session0
              Sample.message_start_json
              (JObj [("id", JStr "msg_1"); ("model", JStr "claude-opus-4-6");
                     ("usage", JObj [("input_tokens", JNum 100); ("output_tokens", JNum 0)])])
              (JObj [("input_tokens", JNum 100); ("output_tokens", JNum 0)])
              Sample.message_delta_json
              (JObj [("output_tokens", JNum 50)])
              [(JStr "content_block_start", Sample.block_start_json);
               (JStr "content_block_delta", Sample.delta_json "Hello")]
              [(JStr "message_stop", JObj [("type", JStr "message_stop")])])
    as (Hin & Hout & Hrecord); try reflexivity;
    [repeat constructor; discriminate | repeat constructor; discriminate |].
  split; [split; assumption|]. split; [|split].
  - destruct (Hrecord eq_refl) with (env := Sample.env0) (w := Sample.world0)
        (pending := Sample.corrected_stream)
        (table := inline_fallback (H := Sample.host))
      as (r & Hrecs & Hri & Hro & _ & Hsink & _); try reflexivity;
      [repeat constructor|].
    exists r. split; [exact Hrecs|]. split; [exact Hri|]. split; [exact Hro|exact Hsink].
  - apply (Hwrite Sample.state1 Sample.session0 Sample.message_delta_json
             (JObj [("output_tokens", JNum 50)]) (JNum 50)); try reflexivity; discriminate.
  - apply (Hstop Sample.state1 Sample.session0 Sample.message_delta_json
             (JObj [("stop_reason", JStr "end_turn")]) (JStr "end_turn")); reflexivity.
Defined.

Lemma block_accumulation_witness :
  find_block (JNum 0)
    (contentBlocks (fst (run_events (H := Sample.host)
       [(JStr "content_block_delta", Sample.delta_json "Hello");
        (JStr "content_block_delta", Sample.delta_json ", world")]
       (Sample.state1, Sample.session0)))) =
    Some {| index := JNum 0; type := JStr "text"; charCount := ANum 15 |} /\
  processSSEEvent (H := Sample.host) (JStr "content_block_delta") (Sample.delta_json "Hello")
    Sample.state1 Sample.session0 =
    Normal (set_contentBlocks
              [ {| index := JNum 0; type := JStr "text"; charCount := ANum 8 |} ] Sample.state1,
            Sample.session0) /\
  processSSEEvent (H := Sample.host) (JStr "content_block_delta")
    (JObj [("index", JNum 4); ("delta", JObj [("text", JStr "lost")])])
    Sample.state1 Sample.session0 = Normal (Sample.state1, Sample.session0).
Proof.
  destruct (block_accumulation (H := Sample.host) sample_js_add_int) as (Htwo & Hone & Hnone).
  split; [|split].
  - apply (Htwo Sample.state1 Sample.session0 (JNum 0)
             (Sample.delta_json "Hello") (Sample.delta_json ", world")
             (JObj [("type", JStr "text_delta"); ("text", JStr "Hello")])
             (JObj [("type", JStr "text_delta"); ("text", JStr ", world")])
             "Hello" ", world"
             {| index := JNum 0; type := JStr "text"; charCount := ANum 3 |} 3);
      reflexivity.
  - apply (Hone Sample.state1 Sample.session0 (JNum 0) (Sample.delta_json "Hello")
             (JObj [("type", JStr "text_delta"); ("text", JStr "Hello")])
             "text" "Hello"
             {| index := JNum 0; type := JStr "text"; charCount := ANum 3 |} 3);
      try reflexivity.
    + simpl. auto.
    + intros other Hin Hne. simpl in Hin.
      destruct Hin as [<- | [<- | [<- | []]]]; [contradiction | reflexivity | reflexivity].
  - apply (Hnone Sample.state1 Sample.session0 (JNum 4)); reflexivity.
Defined.

Lemma content_block_start_appends_witness :
  processSSEEvent (H := Sample.host) (JStr "content_block_start") Sample.block_start_json
    Sample.state1 Sample.session0 =
    Normal (set_contentBlocks
              [ {| index := JNum 0; type := JStr "text"; charCount := ANum 3 |};
                {| index := JNum 0; type := JStr "text"; charCount := ANum 0 |} ] Sample.state1,
            Sample.session0) /\
  find_block (JNum 0)
    [ {| index := JNum 0; type := JStr "text"; charCount := ANum 3 |};
      {| index := JNum 0; type := JStr "text"; charCount := ANum 0 |} ] =
    Some {| index := JNum 0; type := JStr "text"; charCount := ANum 3 |}.
Proof.
  destruct (content_block_start_appends (H := Sample.host) Sample.block_start_json
              (JObj [("type", JStr "text"); ("text", JStr "")]) (JNum 0)
              Sample.state1 Sample.session0 eq_refl eq_refl eq_refl) as [Hstep Hfind].
  split; [exact Hstep|].
  apply (Hfind (JNum 0) {| index := JNum 0; type := JStr "text"; charCount := ANum 3 |}).
  reflexivity.
Defined.

(** C8, as the claim states it, fails: with a block tracked at index 0, a
    second [content_block_start] for index 0 changes the stream state. *)
Lemma second_block_start_changes_state :
  find_block (JNum 0) (contentBlocks Sample.state1) =
    Some {| index := JNum 0; type := JStr "text"; charCount := ANum 3 |} /\
  fst (outcome (processSSEEvent (H := Sample.host) (JStr "content_block_start")
                  Sample.block_start_json Sample.state1 Sample.session0)) <> Sample.state1.
Proof.
  split; [reflexivity|]. intros Heq.
  apply (f_equal (fun st => List.length (contentBlocks st))) in Heq.
  vm_compute in Heq. discriminate.
Qed.

Lemma chunk_boundary_invariance_witness :
  end_of_stream (H := Sample.host) Sample.env0
    (stream_chunks Sample.three_chunks Sample.env0 (Sample.reader1, Sample.started)) =
  end_of_stream (H := Sample.host) Sample.env0
    (stream_chunks [Sample.bytes Sample.full_transcript] Sample.env0
       (Sample.reader1, Sample.started)) /\
  records (snd (end_of_stream (H := Sample.host) Sample.env0
    (stream_chunks Sample.three_chunks Sample.env0 (Sample.reader1, Sample.started)))) =
  records (snd (end_of_stream (H := Sample.host) Sample.env0
    (stream_chunks [Sample.bytes Sample.full_transcript] Sample.env0
       (Sample.reader1, Sample.started)))).
Proof.
  apply (chunk_boundary_invariance (H := Sample.host) sample_decode_app).
  - discriminate.
  - vm_compute. reflexivity.
Defined.

Lemma unparseable_line_skipped_witness :
  feed (H := Sample.host) 1
    (Sample.before_broken ++ (Sample.broken_line ++ String LF Sample.after_broken))
    Sample.started =
  feed (H := Sample.host) 1 (Sample.before_broken ++ Sample.after_broken) Sample.started.
Proof.
  apply (unparseable_line_skipped (H := Sample.host) 1 Sample.started
           (new_pending (JStr "claude-opus-4-6") 1 1000)).
  - vm_compute. reflexivity.
  - vm_compute. reflexivity.
  - vm_compute. reflexivity.
  - vm_compute. reflexivity.
  - vm_compute. reflexivity.
Defined.

Lemma sample_three_pending_buffers : buffers_ok (H := Sample.host) Sample.three_pending.
Proof.
  unfold Sample.three_pending. apply stream_chunks_invariants, stream_chunks_invariants.
  apply buffers_ok_fetch, buffers_ok_fetch, buffers_ok_fetch.
  apply (empty_heap_invariants (H := Sample.host) Sample.world0 eq_refl).
Qed.

Lemma exit_flush_witness :
  let after := exitHandler (H := Sample.host) (fun _ => Sample.env0) Sample.three_pending in
  pendingStreams Sample.three_pending = [1%nat; 2%nat; 3%nat] /\
  pendingStreams after = [] /\
  List.map turn_number (records after) = [2%nat; 3%nat] /\
  List.map rec_input_tokens (records after) = [JNum 100; JNum 100] /\
  (exists r, In r (sink after) /\ turn_number r = 3%nat /\
     rec_input_tokens r = JNum 100 /\ rec_output_tokens r = JNum 0 /\
     stop_reason r = JNull /\ text_chars r = ANum 12 /\
     thinking_chars r = ANum 0 /\ tool_use_chars r = ANum 0) /\
  record_for (H := Sample.host) (fun _ => Sample.env0) Sample.three_pending 1 = None.
Proof.
  cbv zeta.
  destruct (exit_flush (H := Sample.host) sample_js_add_int sample_cost_formula_int
              sample_js_add_number (fun _ => Sample.env0) Sample.three_pending
              sample_three_pending_buffers)
    as (Hempty & Hrecords & _ & Hstate & Hbad & _).
  split; [vm_compute; reflexivity|]. split; [exact Hempty|]. rewrite Hrecords.
  split; [vm_compute; reflexivity|]. split; [vm_compute; reflexivity|]. split.
  - destruct (Hstate 3%nat
                (set_state (fst (run_events (H := Sample.host)
                                   [(JStr "message_start", Sample.message_start_json);
                                    (JStr "content_block_start", Sample.block_start_json);
                                    (JStr "content_block_delta", Sample.delta_json "Hello");
                                    (JStr "content_block_delta", Sample.delta_json ", world")]
                                   (state (new_pending (JStr "claude-opus-4-6") 3 1100),
                                    Sample.session0)))
                   (new_pending (JStr "claude-opus-4-6") 3 1100))
                (inline_fallback (H := Sample.host)))
      as (r & _ & Ht & _ & _ & Hi & Ho & _ & _ & Hs & Hth & Htx & Htu & Hin);
      [vm_compute; reflexivity | vm_compute; reflexivity | vm_compute; reflexivity |].
    exists r. split; [apply Hin; [vm_compute; tauto | reflexivity]|].
    split; [exact Ht|]. split; [exact Hi|]. split; [exact Ho|]. split; [exact Hs|].
    split; [exact Htx|]. split; [exact Hth|exact Htu].
  - apply (Hbad 1%nat (new_pending (JNum 5) 1 900)); vm_compute; reflexivity.
Defined.

Lemma sample_streamed_heap_ok : heap_ok (H := Sample.host) Sample.streamed.
Proof.
  unfold Sample.streamed. apply stream_chunks_invariants. apply sample_started_invariants.
Qed.

Lemma finalize_then_exit_witness :
  let done := on_done (H := Sample.host) 1 "" Sample.env0 Sample.streamed in
  ~ In 1%nat (pendingStreams done) /\
  (exists r,
     records done = (records Sample.streamed ++ [r])%list /\ turn_number r = 1%nat /\
     sink done = (sink Sample.streamed ++ [r])%list /\
     turns (session done) = turns (session Sample.streamed) + 1) /\
  exitHandler (H := Sample.host) (fun _ => Sample.env0) done = done /\
  ledger_matches (H := Sample.host) (cost_zero (Host := Sample.host)) done.
Proof.
  cbv zeta.
  destruct (heap Sample.streamed !! 1%nat) as [pending|] eqn:Hp; [|vm_compute in Hp; discriminate].
  assert (Hfed : feed (H := Sample.host) 1 "" Sample.streamed = Sample.streamed)
    by (vm_compute; reflexivity).
  destruct (finalizeStream (H := Sample.host) Sample.env0 pending Sample.streamed) as [w2|w2] eqn:Hfin;
    [|vm_compute in Hp; injection Hp as <-; vm_compute in Hfin; discriminate].
  destruct (finalize_then_exit (H := Sample.host) sample_js_add_int sample_cost_formula_int
              1 "" Sample.env0 (fun _ => Sample.env0) Sample.streamed w2 pending)
    as (_ & Hgone & Hrec & _ & Honly & Hledger).
  - exact sample_streamed_heap_ok.
  - now rewrite Hfed.
  - now rewrite Hfed.
  - split; [exact Hgone|]. split; [exact Hrec|]. split.
    + apply Honly. intros k Hk. vm_compute in Hk. destruct Hk as [<-|[]]. reflexivity.
    + assert (Hstart : ledger_matches (H := Sample.host) (cost_zero (Host := Sample.host))
                         Sample.streamed)
        by (vm_compute; repeat split; reflexivity).
      assert (Husage : typed_usage (usage (state pending)) = true)
        by (vm_compute in Hp; injection Hp as <-; vm_compute; reflexivity).
      exact (proj1 (Hledger _ Hstart Husage)).
Defined.

(** C3, as the claim states it, fails: once turn 1 is finalized and out of
    the pending set, a second completion signal on the same reader appends
    a second record for turn 1. *)
Lemma second_completion_duplicates :
  let once := end_of_stream (H := Sample.host) Sample.env0 (Sample.reader1, Sample.streamed) in
  let twice := end_of_stream (H := Sample.host) Sample.env0 once in
  pendingStreams (snd once) = [] /\
  List.map turn_number (records (snd once)) = [1%nat] /\
  List.map turn_number (records (snd twice)) = [1%nat; 1%nat] /\
  List.map turn_number (sink (snd twice)) = [1%nat; 1%nat].
Proof. vm_compute. repeat split; reflexivity. Qed.

(** The sample stream end to end: the record of the completed stream, and
    the record the exit handler writes for the stream cut off after
    [message_start] and two deltas. *)
Example sample_record :
  List.map (fun r => (rec_input_tokens r, rec_output_tokens r, text_chars r, stop_reason r))
    (records (snd (end_of_stream (H := Sample.host) Sample.env0
                     (Sample.reader1, Sample.streamed)))) =
  [(JNum 100, JNum 50, ANum 12, JStr "end_turn")].
Proof. vm_compute. reflexivity. Qed.

Example sample_exit_record :
  List.map (fun r => (turn_number r, rec_input_tokens r, rec_output_tokens r, stop_reason r))
    (records (exitHandler (H := Sample.host) (fun _ => Sample.env0) Sample.cut_off)) =
  [(1%nat, JNum 100, JNum 0, JNull)] /\
  pendingStreams (exitHandler (H := Sample.host) (fun _ => Sample.env0) Sample.cut_off) = [].
Proof. vm_compute. split; reflexivity. Qed.

Example split_lines_ex :
  split_lines ("a" ++ String LF ("b" ++ String LF "c")) = ["a"; "b"; "c"].
Proof. reflexivity. Qed.

Example trim_ex : trim ("  message_start" ++ String "013"%char "") = "message_start".
Proof. reflexivity. Qed.

Example normalizeModelId_ex :
  normalizeModelId "claude-opus-4-6-20250610" = "claude-opus-4-6".
Proof. reflexivity. Qed.

(** C6 on inputs the interceptor can receive.  The fallback table has no
    entry for [gpt-4o], and for that id the cost is 0, as the claim has it.
    It has none for [constructor] either, yet the lookup answers with the
    member every object inherits under that name: the cost handed on is
    the formula's value on prices that read [undefined], which is [NaN],
    and the record and the session total carry it.  And when the user's
    pricing file parses to something that is no table, or the bundled file
    is there but does not parse, computing the cost throws before any
    record is built: the stream of the unknown model leaves no record at
    all. *)
Lemma unknown_model_cost_diverges :
  own_entry "constructor" (models (inline_fallback (H := Sample.host))) = None /\
  family_match families "constructor" (models (inline_fallback (H := Sample.host))) = None /\
  resolve_in_table (H := Sample.host) (inline_fallback (H := Sample.host)) "gpt-4o" = None /\
  resolve_in_table (H := Sample.host) (inline_fallback (H := Sample.host)) "constructor" = Some None /\
  fst (calculateCost (H := Sample.host) FileAbsent FileAbsent None (JStr "gpt-4o")
         (JNum 100) (JNum 50) (JNum 0) (JNum 0)) = Some (Some 0) /\
  fst (calculateCost (H := Sample.host) FileAbsent FileAbsent None (JStr "constructor")
         (JNum 100) (JNum 50) (JNum 0) (JNum 0)) = Some None /\
  List.map cost_usd
    (records (outcome (finalizeStream (H := Sample.host) Sample.env0 Sample.constructor_stream
                         Sample.world0))) = [None] /\
  totalCost (session (outcome (finalizeStream (H := Sample.host) Sample.env0
                                 Sample.constructor_stream Sample.world0))) = None /\
  fst (calculateCost (H := Sample.host) (FileHolds (NoTable true)) FileAbsent None
         (JStr "gpt-4o") (JNum 100) (JNum 50) (JNum 0) (JNum 0)) = None /\
  fst (calculateCost (H := Sample.host) FileAbsent FileBroken None (JStr "gpt-4o")
         (JNum 100) (JNum 50) (JNum 0) (JNum 0)) = None /\
  finalizeStream (H := Sample.host) Sample.env0 Sample.unknown_stream Sample.broken_bundle =
    Throw Sample.broken_bundle.
Proof. do 10 (split; [vm_compute; reflexivity|]). vm_compute. reflexivity. Qed.

(** * Further properties *)

(** ** Substrings *)

Lemma prefix_app (p s : string) : String.prefix p (p ++ s) = true.
Proof.
  induction p as [|c p IH]; [now destruct s|].
  append_step. cbn [String.prefix]. destruct (ascii_dec c c); [exact IH|congruence].
Qed.

Lemma prefix_split (p s : string) :
  String.prefix p s = true -> exists post, s = p ++ post.
Proof.
  revert s. induction p as [|c p IH]; intros s Hp.
  - exists s. reflexivity.
  - destruct s as [|c' s]; [discriminate|]. cbn [String.prefix] in Hp.
    destruct (ascii_dec c c') as [->|]; [|discriminate].
    destruct (IH s Hp) as [post ->]. exists post. reflexivity.
Qed.

Lemma includes_unfold (sub s : string) :
  includes sub s =
  String.prefix sub s || match s with EmptyString => false | String _ s' => includes sub s' end.
Proof. destruct s; reflexivity. Qed.

Lemma includes_app (sub pre post : string) : includes sub (pre ++ (sub ++ post)) = true.
Proof.
  induction pre as [|c pre IH].
  - append_step. rewrite includes_unfold, prefix_app. reflexivity.
  - append_step. rewrite includes_unfold, IH. apply orb_true_r.
Qed.

Lemma includes_split (sub s : string) :
  includes sub s = true -> exists pre post, s = pre ++ (sub ++ post).
Proof.
  induction s as [|c s IH]; rewrite includes_unfold; intros Hi.
  - rewrite orb_false_r in Hi. destruct (prefix_split _ _ Hi) as [post ->].
    exists EmptyString, post. reflexivity.
  - apply orb_true_iff in Hi. destruct Hi as [Hp|Hi].
    + destruct (prefix_split _ _ Hp) as [post ->]. exists EmptyString, post. reflexivity.
    + destruct (IH Hi) as (pre & post & ->). exists (String c pre), post. reflexivity.
Qed.

(** [includes] decides the presence of a substring. *)
Lemma includes_iff (sub s : string) :
  includes sub s = true <-> exists pre post, s = pre ++ (sub ++ post).
Proof.
  split; [apply includes_split|]. intros (pre & post & ->). apply includes_app.
Qed.

(** X1 ([isAnthropicMessagesCall]): a call is observed exactly when its URL
    contains [/v1/messages] somewhere and [/v1/messages/batches] nowhere,
    whatever stands before and after: host, query string and further path
    segments play no part. *)
Theorem observed_urls (url : string) :
  isAnthropicMessagesCall url = true <->
  (exists pre post, url = pre ++ ("/v1/messages" ++ post)) /\
  ~ (exists pre post, url = pre ++ ("/v1/messages/batches" ++ post)).
Proof.
  unfold isAnthropicMessagesCall. rewrite andb_true_iff, negb_true_iff.
  rewrite <- (includes_iff "/v1/messages" url), <- (includes_iff "/v1/messages/batches" url).
  split; intros [Ha Hb]; split; try assumption.
  - rewrite Hb. discriminate.
  - destruct (includes "/v1/messages/batches" url); [now destruct Hb|reflexivity].
Qed.

(** ** Model ids *)

Lemma string_length_app (a b : string) :
  String.length (a ++ b) = (String.length a + String.length b)%nat.
Proof. induction a as [|c a IH]; [reflexivity|]. append_step. cbn. now rewrite IH. Qed.

Lemma normalizeModelId_unfold (m : string) :
  normalizeModelId m =
  if is_date_suffix m then EmptyString
  else match m with
       | EmptyString => EmptyString
       | String c s' => String c (normalizeModelId s')
       end.
Proof. destruct m; reflexivity. Qed.

Lemma date_suffix_is (d : string) :
  String.length d = 8%nat -> all_digits d = true -> is_date_suffix (String "-" d) = true.
Proof. intros Hl Hd. cbn. now rewrite Hl, Hd. Qed.

Lemma date_suffix_inv (s : string) :
  is_date_suffix s = true ->
  exists d, s = String "-" d /\ String.length d = 8%nat /\ all_digits d = true.
Proof.
  destruct s as [|c d]; [discriminate|]. cbn [is_date_suffix].
  rewrite !andb_true_iff. intros [[Hc Hl] Hd].
  apply Ascii.eqb_eq in Hc. apply Nat.eqb_eq in Hl. subst c. now exists d.
Qed.

Lemma normalizeModelId_dated (m d : string) :
  String.length d = 8%nat -> all_digits d = true ->
  normalizeModelId (m ++ String "-" d) = m.
Proof.
  intros Hl Hd. induction m as [|c m IH].
  - append_step. rewrite normalizeModelId_unfold, date_suffix_is by assumption. reflexivity.
  - append_step. rewrite normalizeModelId_unfold.
    replace (is_date_suffix (String c (m ++ String "-" d))) with false; [now rewrite IH|].
    symmetry. cbn [is_date_suffix].
    replace (String.length (m ++ String "-" d) =? 8)%nat with false;
      [now rewrite andb_false_r|].
    symmetry. apply Nat.eqb_neq. rewrite string_length_app. cbn. lia.
Qed.

(** X2 ([normalizeModelId]): a date suffix, a hyphen and eight digits at the
    very end, is removed, once; an id comes back either unchanged or
    without exactly such a suffix. *)
Theorem normalizeModelId_strips_one_date :
  (forall m d, String.length d = 8%nat -> all_digits d = true ->
     normalizeModelId (m ++ String "-" d) = m) /\
  (forall m, normalizeModelId m = m \/
     exists d, String.length d = 8%nat /\ all_digits d = true /\
               m = normalizeModelId m ++ String "-" d).
Proof.
  split; [apply normalizeModelId_dated|].
  induction m as [|c m IH]; [now left|].
  rewrite normalizeModelId_unfold.
  destruct (is_date_suffix (String c m)) eqn:Hs.
  - right. destruct (date_suffix_inv _ Hs) as (d & Heq & Hl & Hd).
    exists d. rewrite Heq. now repeat split.
  - destruct IH as [IH|(d & Hl & Hd & IH)].
    + left. now rewrite IH.
    + right. exists d. repeat split; try assumption. append_step. now rewrite <- IH.
Qed.


Lemma slice_app (p s : string) : slice (String.length p) (p ++ s) = s.
Proof. induction p as [|c p IH]; [now destruct s|]. append_step. exact IH. Qed.




(** ** Padding *)

Lemma spaces_length (n : nat) : String.length (spaces n) = n.
Proof. induction n as [|n IH]; [reflexivity|]. cbn. now rewrite IH. Qed.

(** X4 ([padRight]): the text is never cut: it is a prefix of the result,
    only spaces follow it, and the result is as long as the longer of the
    text and the asked width, also for a width of zero or below. *)
Theorem padRight_pads (s : string) (len : Z) :
  (exists k, padRight s len = s ++ spaces k) /\
  String.prefix s (padRight s len) = true /\
  Z.of_nat (String.length (padRight s len)) = Z.max (Z.of_nat (String.length s)) len.
Proof.
  assert (Hk : exists k, padRight s len = s ++ spaces k /\
                         Z.of_nat (String.length s + k) = Z.max (Z.of_nat (String.length s)) len).
  { unfold padRight. destruct (Z.geb_spec (Z.of_nat (String.length s)) len) as [Hge|Hlt].
    - exists 0%nat. split; [|lia]. cbn [spaces]. symmetry. apply string_app_nil_r.
    - exists (Z.to_nat (len - Z.of_nat (String.length s))). split; [reflexivity|lia]. }
  destruct Hk as (k & Hk & Hlen). rewrite Hk. split; [now exists k|]. split.
  - apply prefix_app.
  - now rewrite string_length_app, spaces_length.
Qed.

(** ** The pricing table *)

Section MorePricing.
Context `{Host}.

Lemma own_entry_In key ms (p : ModelPricing) : own_entry key ms = Some p -> In (key, p) ms.
Proof.
  induction ms as [|[k q] ms IH]; [discriminate|]. cbn [own_entry].
  destruct (String.eqb_spec key k) as [->|_].
  - intros [= ->]. now left.
  - intros Hp. right. now apply IH.
Qed.

Lemma first_of_family_In family ms (p : ModelPricing) :
  first_of_family family ms = Some p ->
  exists key, In (key, p) ms /\ includes family key = true.
Proof.
  induction ms as [|[k q] ms IH]; [discriminate|]. cbn [first_of_family].
  destruct (includes family k) eqn:Hk.
  - intros [= ->]. exists k. split; [now left|assumption].
  - intros Hp. destruct (IH Hp) as (key & Hin & Hkey). exists key. split; [now right|assumption].
Qed.

Lemma first_of_family_first family before key (p : ModelPricing) after :
  (forall k q, In (k, q) before -> includes family k = false) ->
  includes family key = true ->
  first_of_family family (before ++ (key, p) :: after)%list = Some p.
Proof.
  intros Hb Hk. induction before as [|[k q] before IH].
  - cbn. now rewrite Hk.
  - cbn. rewrite (Hb k q) by now left. apply IH. intros k' q' Hin. apply (Hb k' q'). now right.
Qed.

Lemma first_of_family_none family (ms : list (string * ModelPricing)) :
  (forall k q, In (k, q) ms -> includes family k = false) -> first_of_family family ms = None.
Proof.
  intros Hb. induction ms as [|[k q] ms IH]; [reflexivity|]. cbn.
  rewrite (Hb k q) by now left. apply IH. intros k' q' Hin. apply (Hb k' q'). now right.
Qed.

Lemma family_match_In fams normalized ms (p : ModelPricing) :
  family_match fams normalized ms = Some p ->
  exists family key, In family fams /\ includes family normalized = true /\
                     includes family key = true /\ In (key, p) ms.
Proof.
  induction fams as [|family fams IH]; [discriminate|]. cbn [family_match].
  destruct (includes family normalized) eqn:Hn.
  - destruct (first_of_family family ms) as [q|] eqn:Hf.
    + intros [= ->]. destruct (first_of_family_In _ _ _ Hf) as (key & Hin & Hkey).
      exists family, key. repeat split; try assumption. now left.
    + intros Hp. destruct (IH Hp) as (f & key & Hf' & H1 & H2 & H3).
      exists f, key. repeat split; try assumption. now right.
  - intros Hp. destruct (IH Hp) as (f & key & Hf' & H1 & H2 & H3).
    exists f, key. repeat split; try assumption. now right.
Qed.

Lemma family_match_skips earlier family later normalized ms (p : ModelPricing) :
  (forall e, In e earlier ->
     includes e normalized = false \/ forall k q, In (k, q) ms -> includes e k = false) ->
  includes family normalized = true ->
  first_of_family family ms = Some p ->
  family_match (earlier ++ family :: later)%list normalized ms = Some p.
Proof.
  intros He Hn Hf. induction earlier as [|e earlier IH].
  - cbn. now rewrite Hn, Hf.
  - cbn. assert (IH' := IH (fun e' Hin => He e' (or_intror Hin))).
    destruct (He e (or_introl eq_refl)) as [Hen|Hek].
    + now rewrite Hen.
    + rewrite (first_of_family_none _ _ Hek). now destruct (includes e normalized).
Qed.

Lemma models_get_own config key (p : ModelPricing) :
  own_entry key (models config) = Some p -> models_get config key = Some (Some p).
Proof. unfold models_get. now intros ->. Qed.

Lemma models_get_inv config key r :
  models_get config key = Some r ->
  match r with
  | Some p => In (key, p) (models config)
  | None => In key object_prototype_keys
  end.
Proof.
  unfold models_get. destruct (own_entry key (models config)) as [p|] eqn:Ho.
  - intros [= <-]. now apply own_entry_In.
  - destruct (existsb (String.eqb key) object_prototype_keys) eqn:He; [|discriminate].
    intros [= <-]. apply existsb_exists in He. destruct He as (k & Hin & Hk).
    apply String.eqb_eq in Hk. now subst k.
Qed.

(** What [resolvePricing] returns once the table is loaded. *)
Lemma resolvePricing_fst user bundled cache (id : string) :
  fst (resolvePricing user bundled cache (JStr id)) =
  match fst (loadPricing user bundled cache) with
  | Some (Table config) => Some (resolve_in_table config id)
  | _ => None
  end.
Proof.
  unfold resolvePricing.
  now destruct (loadPricing user bundled cache) as [[[config|truthy]|] cache'].
Qed.

(** X5 ([resolvePricing], [normalizeModelId]): an id with a date suffix is
    priced by the entry the loaded table lists under the undated id. *)
Theorem dated_id_resolves (user bundled : PricingFile) (cache : option PricingValue)
    (config : PricingConfig) (m d : string) (p : ModelPricing) :
  fst (loadPricing user bundled cache) = Some (Table config) ->
  own_entry m (models config) = Some p ->
  String.length d = 8%nat -> all_digits d = true ->
  fst (resolvePricing user bundled cache (JStr (m ++ String "-" d))) = Some (Some (Some p)).
Proof.
  intros Hload Ho Hl Hd. rewrite resolvePricing_fst, Hload. unfold resolve_in_table.
  rewrite normalizeModelId_dated by assumption. now rewrite (models_get_own _ _ _ Ho).
Qed.

(** X6 ([resolvePricing]): a price the resolver returns is listed in the
    loaded table, under the id without its date, under the id itself, or
    under a key that shares a family name with the id; and what it returns
    that is no price is a member every object inherits, named by the id. *)
Theorem resolved_price_is_listed (user bundled : PricingFile) (cache : option PricingValue)
    (id : string) :
  (forall p, fst (resolvePricing user bundled cache (JStr id)) = Some (Some (Some p)) ->
     exists config key,
       fst (loadPricing user bundled cache) = Some (Table config) /\
       In (key, p) (models config) /\
       (key = normalizeModelId id \/ key = id \/
        exists family, In family families /\
          includes family (normalizeModelId id) = true /\ includes family key = true)) /\
  (fst (resolvePricing user bundled cache (JStr id)) = Some (Some None) ->
     In (normalizeModelId id) object_prototype_keys \/ In id object_prototype_keys).
Proof.
  rewrite resolvePricing_fst.
  destruct (fst (loadPricing user bundled cache)) as [[config|truthy]|];
    [|split; [intros p|]; discriminate|split; [intros p|]; discriminate].
  unfold resolve_in_table. split.
  - intros p.
    destruct (models_get config (normalizeModelId id)) as [r|] eqn:H1.
    { intros Heq. assert (r = Some p) by congruence. subst r.
      exists config, (normalizeModelId id). split; [reflexivity|]. split; [|now left].
      exact (models_get_inv _ _ _ H1). }
    destruct (models_get config id) as [r|] eqn:H2.
    { intros Heq. assert (r = Some p) by congruence. subst r.
      exists config, id. split; [reflexivity|]. split; [|now right; left].
      exact (models_get_inv _ _ _ H2). }
    destruct (family_match families (normalizeModelId id) (models config)) as [q|] eqn:H3;
      [|discriminate].
    intros Heq. assert (q = p) by congruence. subst q.
    destruct (family_match_In _ _ _ _ H3) as (f & key & Hf & Hn & Hk & Hin).
    exists config, key. split; [reflexivity|]. split; [assumption|]. right; right. now exists f.
  - destruct (models_get config (normalizeModelId id)) as [r|] eqn:H1.
    { intros Heq. assert (r = None) by congruence. subst r.
      left. exact (models_get_inv _ _ _ H1). }
    destruct (models_get config id) as [r|] eqn:H2.
    { intros Heq. assert (r = None) by congruence. subst r.
      right. exact (models_get_inv _ _ _ H2). }
    now destruct (family_match families (normalizeModelId id) (models config)).
Qed.

(** X7 ([resolvePricing]): without an exact entry, the id is priced by the
    first key of the loaded table, in the order the table lists them, that
    contains the first family name, in the order opus, sonnet, haiku, that
    the id contains and some key of the table contains. *)
Theorem family_fallback_first_listed (user bundled : PricingFile) (cache : option PricingValue)
    (config : PricingConfig) (id family key : string)
    (earlier later : list string) (before after : list (string * ModelPricing))
    (p : ModelPricing) :
  fst (loadPricing user bundled cache) = Some (Table config) ->
  models_get config (normalizeModelId id) = None ->
  models_get config id = None ->
  families = (earlier ++ family :: later)%list ->
  (forall e, In e earlier ->
     includes e (normalizeModelId id) = false \/
     forall k q, In (k, q) (models config) -> includes e k = false) ->
  includes family (normalizeModelId id) = true ->
  models config = (before ++ (key, p) :: after)%list ->
  (forall k q, In (k, q) before -> includes family k = false) ->
  includes family key = true ->
  fst (resolvePricing user bundled cache (JStr id)) = Some (Some (Some p)).
Proof.
  intros Hload H1 H2 Hfam He Hn Hms Hb Hk. rewrite resolvePricing_fst, Hload.
  unfold resolve_in_table. rewrite H1, H2, Hfam.
  rewrite (family_match_skips earlier family later _ _ p); try assumption; [reflexivity|].
  rewrite Hms. now apply first_of_family_first.
Qed.

(** X8 ([loadPricing], [clearPricingCache]): the table is read once: after a
    load that returned a value that counts as true, every later load
    returns that value whatever the files have become, until the cache is
    cleared; a user file that cannot be read counts as absent; the only
    load that throws is the one that finds no cached value, no usable user
    file and a bundled file it cannot read, and it leaves the cache as it
    was, so the next load tries again; and after the cache is cleared the
    user file is read anew. *)
Theorem loadPricing_reads_once (user bundled : PricingFile) (cache : option PricingValue) :
  (forall value cache',
     loadPricing user bundled cache = (Some value, cache') ->
     pricing_truthy value = true ->
     cache' = Some value /\
     forall user' bundled', loadPricing user' bundled' cache' = (Some value, cache')) /\
  loadPricing FileBroken bundled cache = loadPricing FileAbsent bundled cache /\
  (forall cache',
     loadPricing user bundled cache = (None, cache') <->
     cache' = cache /\ bundled = FileBroken /\
     (user = FileAbsent \/ user = FileBroken) /\
     (cache = None \/ exists value, cache = Some value /\ pricing_truthy value = false)) /\
  (forall value,
     user = FileHolds value ->
     fst (loadPricing user bundled (clearPricingCache cache)) = Some value).
Proof.
  split; [|split; [|split]].
  - intros value cache' Hl Ht.
    assert (cache' = Some value).
    { destruct cache as [[c|[|]]|], user as [| |[cu|[|]]], bundled as [| |[cb|[|]]];
        cbn in Hl; try discriminate; injection Hl as <- <-; cbn in Ht;
        try reflexivity; discriminate. }
    subst cache'. split; [reflexivity|]. intros user' bundled'.
    unfold loadPricing. now rewrite Ht.
  - destruct cache as [[c|[|]]|]; reflexivity.
  - intros cache'. split.
    + intros Hl.
      destruct cache as [[c|[|]]|], user as [| |[cu|[|]]], bundled as [| |[cb|[|]]];
        cbn in Hl; try discriminate; injection Hl as <-;
        (split; [reflexivity|]); (split; [reflexivity|]);
        (split; [first [now left | now right]|]);
        first [now left | right; eexists; split; reflexivity].
    + intros (-> & -> & [-> | ->] & [-> | (value & -> & Hf)]); try reflexivity;
        destruct value as [c|[|]]; try discriminate; reflexivity.
  - intros value ->. reflexivity.
Qed.

End MorePricing.

(** ** The request entry of the log *)






(** ** The stream state machine, over whole streams *)

Section MoreInterceptor.
Context `{Host}.

Lemma parse_request_truthy (body : option string) :
  Js.truthy (fst (parse_request body)) = true.
Proof.
  unfold parse_request. destruct body as [text|]; [|reflexivity].
  destruct (JSON_parse text) as [parsed|]; [|reflexivity].
  destruct (Js.get parsed "model") as [m|]; [|reflexivity].
  cbn [fst]. unfold Js.or. destruct (Js.truthy m) eqn:Hm; [exact Hm|reflexivity].
Qed.

Lemma present_or_zero (v : JsValue) : present (Js.or v (JNum 0)) = true.
Proof.
  unfold Js.or. destruct v as [| |[]|n| |s|items|fields]; cbn; try reflexivity.
  - now destruct (n =? 0).
  - now destruct (String.eqb s "").
Qed.

Lemma present_nullish (a b : JsValue) : present b = true -> present (Js.nullish a b) = true.
Proof. destruct a; cbn; auto. Qed.

Lemma processSSEEvent_present evt data st ses :
  fields_present st = true ->
  fields_present (fst (outcome (processSSEEvent evt data st ses))) = true.
Proof.
  intros Hp. pose proof Hp as Hp'. unfold fields_present in Hp'.
  apply andb_true_iff in Hp'. destruct Hp' as [Hp' Ho].
  apply andb_true_iff in Hp'. destruct Hp' as [Hm Hi].
  unfold processSSEEvent.
  destruct (Js.is_str "message_start" evt).
  { unfold on_message_start. destruct (Js.get data "message") as [msg|]; [|exact Hp].
    destruct (Js.truthy msg); [|exact Hp]. cbv zeta.
    match goal with |- context [updateLiveStatus ?s] => destruct (updateLiveStatus s) end;
      cbn [outcome fst];
      destruct (Js.truthy (default JUndefined (Js.get msg "id")));
      destruct (Js.truthy (default JUndefined (Js.get msg "model"))) eqn:Hmodel;
      destruct (Js.truthy (default JUndefined (Js.get msg "usage")));
      unfold fields_present; cbn; rewrite ?present_or_zero, ?Hmodel, ?Hm, ?Hi, ?Ho; reflexivity. }
  destruct (Js.is_str "content_block_start" evt).
  { unfold on_content_block_start.
    destruct (Js.get data "content_block") as [block|]; [|exact Hp].
    destruct (Js.get data "index") as [i|]; [|exact Hp].
    destruct (Js.truthy block); exact Hp. }
  destruct (Js.is_str "content_block_delta" evt).
  { unfold on_content_block_delta.
    destruct (Js.get data "index") as [idx|]; [|exact Hp].
    destruct (Js.get data "delta") as [delta|]; [|exact Hp].
    destruct (Js.truthy delta && negb (Js.strict_eq idx JUndefined)); [|exact Hp].
    destruct (find_block idx (contentBlocks st)) as [block|]; [|exact Hp].
    destruct (js_add (charCount block) (text_length (delta_text delta))); exact Hp. }
  destruct (Js.is_str "message_delta" evt); [|exact Hp].
  unfold on_message_delta.
  destruct (Js.get data "usage") as [du|]; [|exact Hp].
  destruct (Js.get data "delta") as [d|]; [|exact Hp].
  cbn [outcome fst].
  destruct (Js.truthy du); destruct (Js.truthy d);
    try destruct (Js.truthy (default JUndefined (Js.get d "stop_reason")));
    unfold fields_present; cbn; rewrite ?Hm, ?Hi, ?Ho, ?present_nullish; auto.
Qed.

Lemma run_events_present events : forall st ses,
  fields_present st = true ->
  fields_present (fst (run_events events (st, ses))) = true.
Proof.
  induction events as [|[evt data] events IH]; intros st ses Hp; [exact Hp|].
  rewrite run_events_cons.
  pose proof (processSSEEvent_present evt data st ses Hp) as Hp1.
  destruct (outcome (processSSEEvent evt data st ses)) as [st1 ses1]. now apply IH.
Qed.

(** X10 ([interceptedFetch], [processSSEEvent], [finalizeStream]): a record
    never lacks its model or a token count.  The model of a stream starts
    as the request's model or as the text unknown and is only ever replaced
    by a truthy one; the counters start at zero and every event stores a
    value that is there; so whatever the body of the request and whatever
    events arrive, what the finalizer appends to the records has a truthy
    model and four counters that are neither [undefined] nor [null]. *)
Theorem record_fields_present (body : option string) (t : nat) (start : Z)
    (events : list (JsValue * JsValue)) (ses : Session) :
  let final :=
    fst (run_events events (state (new_pending (fst (parse_request body)) t start), ses)) in
  fields_present final = true /\
  forall env w pending,
    state pending = final ->
    exists new,
      records (outcome (finalizeStream env pending w)) = (records w ++ new)%list /\
      Forall (fun r =>
                Js.truthy (rec_model r) = true /\
                present (rec_input_tokens r) = true /\ present (rec_output_tokens r) = true /\
                present (rec_cache_creation_input_tokens r) = true /\
                present (rec_cache_read_input_tokens r) = true) new.
Proof.
  cbv zeta.
  assert (Hfinal : fields_present
            (fst (run_events events
                    (state (new_pending (fst (parse_request body)) t start), ses))) = true).
  { apply run_events_present. unfold fields_present. cbn.
    now rewrite parse_request_truthy. }
  split; [exact Hfinal|]. intros env w pending Hst.
  rewrite finalizeStream_records.
  destruct (record_of env w pending) as [r|] eqn:Hr; [|exists []; split; constructor].
  exists [r]. split; [reflexivity|]. constructor; [|constructor].
  unfold record_of in Hr.
  destruct (sum_chars _ _) as [[[a b] c]|]; [|discriminate].
  destruct (fst (stream_cost w (state pending))) as [cost|]; [|discriminate].
  apply (f_equal (fun o => match o with Some x => x | None => r end)) in Hr.
  cbv beta iota in Hr. subst r. cbn. rewrite Hst, !present_or_zero.
  unfold fields_present in Hfinal. rewrite !andb_true_iff in Hfinal. tauto.
Qed.

End MoreInterceptor.

(** ** Streams side by side *)

Section Isolation.
Context `{Host}.

Lemma processSSEEvent_state_only evt data st ses ses' :
  fst (outcome (processSSEEvent evt data st ses)) =
  fst (outcome (processSSEEvent evt data st ses')).
Proof.
  unfold processSSEEvent.
  destruct (Js.is_str "message_start" evt).
  { unfold on_message_start. destruct (Js.get data "message") as [msg|]; [|reflexivity].
    destruct (Js.truthy msg); [|reflexivity]. cbv zeta.
    repeat match goal with |- context [updateLiveStatus ?s] => destruct (updateLiveStatus s) end;
      reflexivity. }
  destruct (Js.is_str "content_block_start" evt).
  { unfold on_content_block_start.
    destruct (Js.get data "content_block") as [block|]; [|reflexivity].
    destruct (Js.get data "index") as [i|]; [|reflexivity].
    destruct (Js.truthy block); reflexivity. }
  destruct (Js.is_str "content_block_delta" evt).
  { unfold on_content_block_delta.
    destruct (Js.get data "index") as [idx|]; [|reflexivity].
    destruct (Js.get data "delta") as [delta|]; [|reflexivity].
    destruct (Js.truthy delta && negb (Js.strict_eq idx JUndefined)); [|reflexivity].
    destruct (find_block idx (contentBlocks st)) as [block|]; [|reflexivity].
    destruct (js_add (charCount block) (text_length (delta_text delta))); reflexivity. }
  destruct (Js.is_str "message_delta" evt); [|reflexivity].
  unfold on_message_delta.
  destruct (Js.get data "usage") as [du|]; [|reflexivity].
  destruct (Js.get data "delta") as [d|]; reflexivity.
Qed.

Lemma processLine_pending_only l pending ses ses' :
  fst (processLine l (pending, ses)) = fst (processLine l (pending, ses')).
Proof.
  unfold processLine.
  destruct (startsWith "event: " l); [reflexivity|].
  destruct (startsWith "data: " l).
  - destruct (String.eqb (slice 6 l) "[DONE]"); [reflexivity|].
    destruct (JSON_parse (slice 6 l)) as [parsed|]; [|reflexivity].
    destruct (if Js.truthy (JStr (eventType pending)) then Some (JStr (eventType pending))
              else Js.get parsed "type") as [evt|]; [|reflexivity].
    pose proof (processSSEEvent_state_only evt parsed (state pending) ses ses') as Hs.
    destruct (outcome (processSSEEvent evt parsed (state pending) ses)) as [st1 s1].
    destruct (outcome (processSSEEvent evt parsed (state pending) ses')) as [st2 s2].
    cbn in Hs. now subst st2.
  - destruct (String.eqb (trim l) ""); reflexivity.
Qed.

Lemma process_lines_pending_only ls : forall pending ses ses',
  fst (process_lines ls (pending, ses)) = fst (process_lines ls (pending, ses')).
Proof.
  induction ls as [|l ls IH]; intros pending ses ses'; [reflexivity|].
  change (process_lines (l :: ls) (pending, ses))
    with (process_lines ls (processLine l (pending, ses))).
  change (process_lines (l :: ls) (pending, ses'))
    with (process_lines ls (processLine l (pending, ses'))).
  pose proof (processLine_pending_only l pending ses ses') as Hl.
  destruct (processLine l (pending, ses)) as [p1 s1].
  destruct (processLine l (pending, ses')) as [p2 s2].
  cbn in Hl. subst p2. apply IH.
Qed.

Lemma absorb_pending_only text pending ses ses' :
  fst (absorb text (pending, ses)) = fst (absorb text (pending, ses')).
Proof.
  rewrite !absorb_cut. cbn [fst]. f_equal. apply process_lines_pending_only.
Qed.

Lemma feed_lookup_other t t' text w :
  t <> t' -> heap (feed t text w) !! t' = heap w !! t'.
Proof.
  intros Hne. destruct (heap w !! t) as [pending|] eqn:Hp.
  - rewrite (feed_spec _ _ _ _ Hp). cbn. now rewrite lookup_insert_ne.
  - now rewrite feed_none.
Qed.

Lemma feed_lookup_same t text w w' :
  heap w !! t = heap w' !! t ->
  heap (feed t text w) !! t = heap (feed t text w') !! t.
Proof.
  intros Heq. destruct (heap w !! t) as [pending|] eqn:Hp.
  - symmetry in Heq. rewrite (feed_spec _ _ _ _ Hp), (feed_spec _ _ _ _ Heq). cbn.
    rewrite !lookup_insert. rewrite !decide_True by reflexivity.
    f_equal. apply absorb_pending_only.
  - symmetry in Heq. now rewrite !feed_none, Hp, Heq.
Qed.

Lemma feed_chunks_cons chunk chunks w :
  feed_chunks (chunk :: chunks) w = feed_chunks chunks (feed (fst chunk) (snd chunk) w).
Proof. reflexivity. Qed.

Lemma feed_chunks_own t chunks : forall w w',
  heap w !! t = heap w' !! t ->
  heap (feed_chunks chunks w) !! t =
  heap (feed_chunks (List.filter (fun chunk => Nat.eqb (fst chunk) t) chunks) w') !! t.
Proof.
  induction chunks as [|[t' text] chunks IH]; intros w w' Heq; [exact Heq|].
  rewrite feed_chunks_cons. cbn [List.filter fst snd].
  destruct (Nat.eqb_spec t' t) as [->|Hne].
  - rewrite feed_chunks_cons. apply IH. now apply feed_lookup_same.
  - apply IH. now rewrite feed_lookup_other.
Qed.

(** X11 ([processPendingBuffer], the wrapped [read] and [next]): streams in
    flight do not disturb one another.  However the chunks of several
    streams are interleaved, what a stream has accumulated (state, retained
    text, event name) is what its own chunks alone give it; and chunks
    touch neither the records, nor the JSONL file, nor the pending set. *)
Theorem streams_do_not_interfere (chunks : list (nat * string)) (w : World) (t : nat) :
  heap (feed_chunks chunks w) !! t =
  heap (feed_chunks (List.filter (fun chunk => Nat.eqb (fst chunk) t) chunks) w) !! t /\
  records (feed_chunks chunks w) = records w /\
  sink (feed_chunks chunks w) = sink w /\
  pendingStreams (feed_chunks chunks w) = pendingStreams w.
Proof.
  split; [now apply feed_chunks_own|].
  revert w. induction chunks as [|[t' text] chunks IH]; intros w; [now repeat split|].
  rewrite feed_chunks_cons. cbn [fst snd].
  destruct (IH (feed t' text w)) as (Hr & Hs & Hp).
  destruct (feed_frame t' text w) as (Hr' & Hp' & Hs' & _).
  rewrite Hr, Hs, Hp. now repeat split.
Qed.

(** ** The text after the last line break *)

Lemma record_of_same_state env (w : World) (pending pending' : PendingStream) :
  state pending' = state pending -> turnNum pending' = turnNum pending ->
  startTime pending' = startTime pending ->
  record_of env w pending' = record_of env w pending.
Proof.
  intros Hs Ht Hst. unfold record_of, make_record. now rewrite Hs, Ht, Hst.
Qed.

(** X12 ([processPendingBuffer], the completion branch of [wrapReader]): a
    last line that no line break ends is never interpreted.  While the
    retained text and what arrives hold no line break, the state of the
    stream does not move; and when the stream completes in that condition
    the record is the one of the state reached before, whatever the text
    says. *)
Theorem unterminated_tail_is_not_parsed (t : nat) (tail : string) (env : Env) (w : World)
    (pending : PendingStream) :
  heap w !! t = Some pending ->
  no_line_break (buffer pending ++ tail) = true ->
  heap (feed t tail w) !! t = Some (set_buffer (buffer pending ++ tail) pending) /\
  session (feed t tail w) = session w /\
  records (on_done t tail env w) =
    (records w ++ match record_of env w pending with Some r => [r] | None => [] end)%list.
Proof.
  intros Hp Hnl.
  assert (Hfeed : feed t tail w =
            set_session (session w) (set_heap t (set_buffer (buffer pending ++ tail) pending) w)).
  { rewrite (feed_spec _ _ _ _ Hp), absorb_cut, (cut_no_line_break _ Hnl). reflexivity. }
  assert (Hl : heap (feed t tail w) !! t = Some (set_buffer (buffer pending ++ tail) pending)).
  { rewrite Hfeed. cbn. rewrite lookup_insert. now rewrite decide_True. }
  split; [exact Hl|]. split; [now rewrite Hfeed|].
  unfold on_done. rewrite Hl.
  pose proof (finalizeStream_records env (set_buffer (buffer pending ++ tail) pending)
                (feed t tail w)) as Hr.
  assert (Hrec : record_of env (feed t tail w) (set_buffer (buffer pending ++ tail) pending) =
                 record_of env w pending).
  { rewrite (record_of_same_state env _ pending (set_buffer (buffer pending ++ tail) pending))
      by reflexivity.
    destruct (feed_pricing t tail w) as (Hlo & Hu & Hb & Hid & _).
    now apply record_of_same_base. }
  rewrite Hrec in Hr. destruct (feed_frame t tail w) as (Hfr & _).
  rewrite Hfr in Hr.
  destruct (finalizeStream env _ (feed t tail w)) as [w2|w2]; cbn [outcome] in Hr; exact Hr.
Qed.

End Isolation.

(** ** Which event a data line belongs to *)

Section EventNames.
Context `{Host}.

Lemma processLine_event_line name pending ses :
  processLine ("event: " ++ name) (pending, ses) = (set_eventType (trim name) pending, ses).
Proof.
  unfold processLine, startsWith. rewrite prefix_app.
  change 7%nat with (String.length "event: "). now rewrite slice_app.
Qed.

Lemma processLine_data_line payload parsed pending ses :
  JSON_parse payload = Some parsed -> payload <> "[DONE]" ->
  processLine ("data: " ++ payload) (pending, ses) =
  match (if Js.truthy (JStr (eventType pending)) then Some (JStr (eventType pending))
         else Js.get parsed "type") with
  | Some evt =>
      (set_state (fst (outcome (processSSEEvent evt parsed (state pending) ses))) pending,
       snd (outcome (processSSEEvent evt parsed (state pending) ses)))
  | None => (pending, ses)
  end.
Proof.
  intros Hparse Hdone. unfold processLine.
  rewrite (data_line_is_no_event_line ("data: " ++ payload)) by apply prefix_app.
  unfold startsWith at 1. rewrite prefix_app.
  change 6%nat with (String.length "data: "). rewrite slice_app.
  destruct (String.eqb_spec payload "[DONE]") as [Heq|_]; [contradiction|].
  rewrite Hparse.
  destruct (if Js.truthy (JStr (eventType pending)) then Some (JStr (eventType pending))
            else Js.get parsed "type") as [evt|]; [|reflexivity].
  now destruct (outcome (processSSEEvent evt parsed (state pending) ses)).
Qed.

Lemma processLine_blank pending ses :
  processLine "" (pending, ses) = (set_eventType "" pending, ses).
Proof. reflexivity. Qed.

(** X13 ([processPendingBuffer]): the name on an [event:] line decides how
    the data lines after it are interpreted, whatever type their payload
    declares; it stays in force over every data line up to the next blank
    line, which clears it; and a data line that no [event:] line precedes
    is interpreted by the [type] of its own payload. *)
Theorem event_line_names_the_event (pending : PendingStream) (ses : Session)
    (name payload : string) (parsed : JsValue) :
  JSON_parse payload = Some parsed -> payload <> "[DONE]" ->
  (trim name <> "" ->
   let after := outcome (processSSEEvent (JStr (trim name)) parsed (state pending) ses) in
   process_lines ["event: " ++ name; "data: " ++ payload] (pending, ses) =
     (set_eventType (trim name) (set_state (fst after) pending), snd after) /\
   process_lines ["event: " ++ name; "data: " ++ payload; ""] (pending, ses) =
     (set_eventType "" (set_state (fst after) pending), snd after)) /\
  (eventType pending = "" ->
   forall type,
     Js.get parsed "type" = Some type ->
     let after := outcome (processSSEEvent type parsed (state pending) ses) in
     process_lines ["data: " ++ payload] (pending, ses) =
       (set_state (fst after) pending, snd after)).
Proof.
  intros Hparse Hdone. split.
  - intros Hname. cbv zeta. unfold process_lines. cbn [fold_left].
    rewrite processLine_event_line.
    rewrite (processLine_data_line _ _ _ _ Hparse Hdone).
    cbn [eventType set_eventType state Js.truthy].
    destruct (String.eqb_spec (trim name) "") as [Heq|_]; [contradiction|].
    cbn [negb]. split; [reflexivity|].
    rewrite processLine_blank. reflexivity.
  - intros Hno type Htype. cbv zeta. unfold process_lines. cbn [fold_left].
    rewrite (processLine_data_line _ _ _ _ Hparse Hdone), Hno. cbn [Js.truthy String.eqb negb].
    now rewrite Htype.
Qed.

End EventNames.

(** ** The blocks of a stream *)

Section Blocks.
Context `{Host}.
Hypothesis js_add_int : forall a b, js_add (ANum a) (JNum b) = Some (ANum (a + b)).

Lemma block_le_refl b : is_anum (charCount b) = true -> block_le b b.
Proof.
  unfold block_le. destruct (charCount b) as [c| |s] eqn:Hc; try discriminate.
  intros _. repeat split. exists c, c. repeat split. lia.
Qed.

Lemma block_le_trans b1 b2 b3 : block_le b1 b2 -> block_le b2 b3 -> block_le b1 b3.
Proof.
  intros (Hi & Ht & c1 & c2 & Hc1 & Hc2 & Hle) (Hi' & Ht' & c2' & c3 & Hc2' & Hc3 & Hle').
  rewrite Hc2 in Hc2'. injection Hc2' as <-.
  repeat split; [congruence|congruence|]. exists c1, c3. repeat split; [assumption..|lia].
Qed.

Lemma blocks_le_refl bs :
  forallb (fun b => is_anum (charCount b)) bs = true -> Forall2 block_le bs bs.
Proof.
  induction bs as [|b bs IH]; [constructor|]. cbn [forallb]. rewrite andb_true_iff.
  intros [Hb Hbs]. constructor; [now apply block_le_refl|now apply IH].
Qed.

Lemma blocks_le_trans bs1 : forall bs2 bs3,
  Forall2 block_le bs1 bs2 -> Forall2 block_le bs2 bs3 -> Forall2 block_le bs1 bs3.
Proof.
  induction bs1 as [|b1 bs1 IH]; intros bs2 bs3 H12 H23.
  - inversion H12; subst. inversion H23; subst. constructor.
  - inversion H12 as [|? b2 ? bs2' Hb12 Hbs12]; subst.
    inversion H23 as [|? b3 ? bs3' Hb23 Hbs23]; subst.
    constructor; [now apply (block_le_trans b1 b2 b3)|now apply (IH bs2')].
Qed.

Lemma blocks_le_typed bs : forall bs',
  Forall2 block_le bs bs' -> forallb (fun b => is_anum (charCount b)) bs' = true.
Proof.
  induction bs as [|b bs IH]; intros bs' Hle; inversion Hle as [|? b' ? bs'' Hb Hbs]; subst.
  - reflexivity.
  - cbn [forallb]. rewrite (IH _ Hbs), andb_true_r.
    destruct Hb as (_ & _ & c & c' & _ & -> & _). reflexivity.
Qed.

Lemma blocks_extend_refl bs :
  forallb (fun b => is_anum (charCount b)) bs = true -> blocks_extend bs bs.
Proof.
  intros Hbs. exists bs, []. split; [now rewrite app_nil_r|now apply blocks_le_refl].
Qed.

Lemma blocks_extend_trans bs1 bs2 bs3 :
  blocks_extend bs1 bs2 -> blocks_extend bs2 bs3 -> blocks_extend bs1 bs3.
Proof.
  intros (kept & extra & -> & Hle) (kept' & extra' & -> & Hle').
  apply Forall2_app_inv_l in Hle'. destruct Hle' as (k1 & k2 & Hk1 & Hk2 & ->).
  exists k1, (k2 ++ extra')%list. split; [now rewrite <- app_assoc|].
  now apply (blocks_le_trans bs1 kept k1).
Qed.

Lemma update_block_le idx c' bs : forall b c,
  forallb (fun b => is_anum (charCount b)) bs = true ->
  find_block idx bs = Some b -> charCount b = ANum c -> c <= c' ->
  Forall2 block_le bs (update_block idx (ANum c') bs).
Proof.
  induction bs as [|b0 bs IH]; intros b c Hbs Hf Hc Hle; [discriminate|].
  cbn [forallb] in Hbs. apply andb_true_iff in Hbs. destruct Hbs as [Hb0 Hbs].
  unfold find_block in Hf. cbn [List.find] in Hf. cbn [update_block].
  destruct (Js.strict_eq (index b0) idx).
  - injection Hf as <-. constructor; [|now apply blocks_le_refl].
    repeat split. exists c, c'. now repeat split.
  - constructor; [now apply block_le_refl|]. now apply (IH b c).
Qed.

Lemma countable_length delta :
  match delta_text delta with JStr _ | JArr _ => true | _ => false end = true ->
  exists n, text_length (delta_text delta) = JNum n /\ 0 <= n.
Proof.
  destruct (delta_text delta) as [| |b|n| |s|items|fields]; try discriminate; intros _.
  - exists (Z.of_nat (String.length s)). split; [reflexivity|lia].
  - exists (Z.of_nat (List.length items)). split; [reflexivity|lia].
Qed.

Lemma processSSEEvent_blocks evt data st ses :
  forallb (fun b => is_anum (charCount b)) (contentBlocks st) = true ->
  countable_delta evt data = true ->
  blocks_extend (contentBlocks st)
                (contentBlocks (fst (outcome (processSSEEvent evt data st ses)))).
Proof using js_add_int.
  intros Hbs Hcount. pose proof (blocks_extend_refl _ Hbs) as Hrefl.
  unfold processSSEEvent. unfold countable_delta in Hcount.
  destruct (Js.is_str "message_start" evt) eqn:E1.
  { unfold on_message_start. destruct (Js.get data "message") as [msg|]; [|exact Hrefl].
    destruct (Js.truthy msg); [|exact Hrefl]. cbv zeta.
    match goal with |- context [updateLiveStatus ?s] => destruct (updateLiveStatus s) end;
      cbn [outcome fst];
      destruct (Js.truthy (default JUndefined (Js.get msg "id")));
      destruct (Js.truthy (default JUndefined (Js.get msg "model")));
      destruct (Js.truthy (default JUndefined (Js.get msg "usage"))); exact Hrefl. }
  destruct (Js.is_str "content_block_start" evt) eqn:E2.
  { unfold on_content_block_start.
    destruct (Js.get data "content_block") as [block|]; [|exact Hrefl].
    destruct (Js.get data "index") as [i|]; [|exact Hrefl].
    destruct (Js.truthy block); [|exact Hrefl]. cbn [outcome fst contentBlocks set_contentBlocks].
    eexists (contentBlocks st), _. split; [reflexivity|now apply blocks_le_refl]. }
  destruct (Js.is_str "content_block_delta" evt) eqn:E3.
  { unfold on_content_block_delta.
    destruct (Js.get data "index") as [idx|]; [|exact Hrefl].
    destruct (Js.get data "delta") as [delta|]; [|exact Hrefl].
    change (default JUndefined (Some delta)) with delta in Hcount.
    destruct (Js.truthy delta); [|exact Hrefl]. cbn [andb].
    destruct (negb (Js.strict_eq idx JUndefined)); [|exact Hrefl].
    destruct (find_block idx (contentBlocks st)) as [block|] eqn:Hf; [|exact Hrefl].
    destruct (find_block_typed _ _ _ Hbs Hf) as [c Hc].
    destruct (countable_length _ Hcount) as (n & Hn & Hpos).
    rewrite Hc, Hn, js_add_int. cbn [outcome fst contentBlocks set_contentBlocks].
    exists (update_block idx (ANum (c + n)) (contentBlocks st)), [].
    split; [now rewrite app_nil_r|]. apply (update_block_le _ _ _ block c); try assumption. lia. }
  destruct (Js.is_str "message_delta" evt); [|exact Hrefl].
  unfold on_message_delta.
  destruct (Js.get data "usage") as [du|]; [|exact Hrefl].
  destruct (Js.get data "delta") as [d|]; [|exact Hrefl].
  cbn [outcome fst].
  destruct (Js.truthy du); destruct (Js.truthy d);
    try destruct (Js.truthy (default JUndefined (Js.get d "stop_reason"))); exact Hrefl.
Qed.

Lemma processSSEEvent_counts evt data st ses :
  forallb (fun b => is_anum (charCount b)) (contentBlocks st) = true ->
  countable_delta evt data = true ->
  forallb (fun b => is_anum (charCount b))
          (contentBlocks (fst (outcome (processSSEEvent evt data st ses)))) = true.
Proof using js_add_int.
  intros Hbs Hcount.
  unfold processSSEEvent. unfold countable_delta in Hcount.
  destruct (Js.is_str "message_start" evt) eqn:E1.
  { unfold on_message_start. destruct (Js.get data "message") as [msg|]; [|exact Hbs].
    destruct (Js.truthy msg); [|exact Hbs]. cbv zeta.
    match goal with |- context [updateLiveStatus ?s] => destruct (updateLiveStatus s) end;
      cbn [outcome fst];
      destruct (Js.truthy (default JUndefined (Js.get msg "id")));
      destruct (Js.truthy (default JUndefined (Js.get msg "model")));
      destruct (Js.truthy (default JUndefined (Js.get msg "usage"))); exact Hbs. }
  destruct (Js.is_str "content_block_start" evt) eqn:E2.
  { unfold on_content_block_start.
    destruct (Js.get data "content_block") as [block|]; [|exact Hbs].
    destruct (Js.get data "index") as [i|]; [|exact Hbs].
    destruct (Js.truthy block); [|exact Hbs]. cbn [outcome fst contentBlocks set_contentBlocks].
    rewrite forallb_app, Hbs. reflexivity. }
  destruct (Js.is_str "content_block_delta" evt) eqn:E3.
  { unfold on_content_block_delta.
    destruct (Js.get data "index") as [idx|]; [|exact Hbs].
    destruct (Js.get data "delta") as [delta|]; [|exact Hbs].
    change (default JUndefined (Some delta)) with delta in Hcount.
    destruct (Js.truthy delta); [|exact Hbs]. cbn [andb].
    destruct (negb (Js.strict_eq idx JUndefined)); [|exact Hbs].
    destruct (find_block idx (contentBlocks st)) as [block|] eqn:Hf; [|exact Hbs].
    destruct (find_block_typed _ _ _ Hbs Hf) as [c Hc].
    destruct (countable_length _ Hcount) as (n & Hn & Hpos).
    rewrite Hc, Hn, js_add_int. cbn [outcome fst contentBlocks set_contentBlocks].
    now apply update_block_typed. }
  destruct (Js.is_str "message_delta" evt); [|exact Hbs].
  unfold on_message_delta.
  destruct (Js.get data "usage") as [du|]; [|exact Hbs].
  destruct (Js.get data "delta") as [d|]; [|exact Hbs].
  cbn [outcome fst].
  destruct (Js.truthy du); destruct (Js.truthy d);
    try destruct (Js.truthy (default JUndefined (Js.get d "stop_reason"))); exact Hbs.
Qed.

(** X14 ([processSSEEvent]): the tracked blocks of a stream only grow.
    Whatever events arrive, as long as the text of the deltas has a length
    that is a natural number (a string or an array), the blocks tracked
    before are still there afterwards, in the same places, each with the
    index and the type it was given and a character count that has not gone
    down; new blocks come behind them. *)
Theorem blocks_only_grow (events : list (JsValue * JsValue)) (st : StreamState) (ses : Session) :
  forallb (fun b => is_anum (charCount b)) (contentBlocks st) = true ->
  Forall (fun e => countable_delta (fst e) (snd e) = true) events ->
  blocks_extend (contentBlocks st) (contentBlocks (fst (run_events events (st, ses)))).
Proof using js_add_int.
  intros Hbs Hev. revert st ses Hbs.
  induction Hev as [|[evt data] events Hcount Hev IH]; intros st ses Hbs.
  - now apply blocks_extend_refl.
  - rewrite run_events_cons. cbn [fst snd] in Hcount.
    pose proof (processSSEEvent_blocks evt data st ses Hbs Hcount) as Hstep.
    pose proof (processSSEEvent_counts evt data st ses Hbs Hcount) as Htyped.
    destruct (outcome (processSSEEvent evt data st ses)) as [st1 ses1].
    cbn [fst] in Hstep, Htyped.
    apply (blocks_extend_trans _ (contentBlocks st1)); [exact Hstep|now apply IH].
Qed.

End Blocks.

(** ** The live totals *)

Section Ledger.
Context `{Host}.
Hypothesis js_add_int : forall a b, js_add (ANum a) (JNum b) = Some (ANum (a + b)).

(** X15 ([finalizeStream], [processPendingBuffer]): the live totals are the
    sums over the records.  Chunks of any streams, however interleaved,
    leave the totals and the records alone; finalizing a stream whose
    usage counters are numbers appends its record and adds exactly the
    record's four token counts and its cost to the totals and one to the
    number of turns.  So once the totals equal the sums over the records
    emitted so far, they do after every chunk and every such
    finalization. *)
Theorem ledger_is_sum_of_records (start : Cost) (w : World) :
  ledger_matches start w ->
  (forall chunks, ledger_matches start (feed_chunks chunks w)) /\
  (forall env pending r,
     typed_usage (usage (state pending)) = true ->
     record_of env w pending = Some r ->
     exists w', finalizeStream env pending w = Normal w' /\
       records w' = (records w ++ [r])%list /\
       ledger_matches start w').
Proof using js_add_int.
  intros Hl. split.
  - intros chunks. revert w Hl.
    induction chunks as [|[t text] chunks IH]; intros w Hl; [exact Hl|].
    rewrite feed_chunks_cons. apply IH.
    apply (ledger_same_totals start w); [apply feed_frame|apply feed_totals|exact Hl].
  - intros env pending r Htyped Hrec.
    destruct (finalizeStream_ledger js_add_int start env pending w r Hl Htyped Hrec)
      as (w' & Hfin & Hrecs & _ & Hl').
    now exists w'.
Qed.

End Ledger.

(** ** Turn numbers *)

Section Turns.
Context `{Host}.













End Turns.

(** ** The environment hand-off *)

Lemma eqb_other (a b : string) : a <> b -> String.eqb a b = false.
Proof. intros Hne. now apply String.eqb_neq. Qed.

(** X17 ([runClaude], the loader): what the launcher decides reaches the
    interceptor unchanged.  The options the loader reads from the
    environment of the child are the session id, the verbosity and the
    database switch the launcher was given (an empty session id reads
    [unknown]); [CLAUDECODE] is unset in the child whatever the launcher's
    own environment holds, also a stale [CLAUDEOO_] variable; and every
    other variable is inherited. *)
Theorem env_hand_off (parent : EnvVars) (sessionId : string) (verbose noDb : bool) :
  loader_options (child_env parent sessionId verbose noDb) =
    (if String.eqb sessionId "" then "unknown" else sessionId, verbose, noDb) /\
  child_env parent sessionId verbose noDb "CLAUDECODE" = None /\
  (forall name,
     name <> "CLAUDECODE" -> name <> "CLAUDEOO_NO_DB" -> name <> "CLAUDEOO_VERBOSE" ->
     name <> "CLAUDEOO_SESSION_ID" ->
     child_env parent sessionId verbose noDb name = parent name).
Proof.
  split; [|split].
  - unfold loader_options, child_env. cbn. now destruct verbose, noDb.
  - reflexivity.
  - intros name H1 H2 H3 H4. unfold child_env.
    now rewrite !eqb_other by assumption.
Qed.

(** ** The command line *)

Lemma strip_flags_filter (args : list string) :
  strip_flags args =
  List.filter (fun a => negb (String.eqb a "--coo-verbose") && negb (String.eqb a "--coo-no-db"))
              args.
Proof.
  induction args as [|a args IH]; [reflexivity|]. cbn [strip_flags List.filter].
  destruct (String.eqb a "--coo-verbose"); [exact IH|].
  destruct (String.eqb a "--coo-no-db"); [exact IH|]. cbn. now rewrite IH.
Qed.

Lemma strip_flags_sublist (args : list string) : sublist (strip_flags args) args.
Proof.
  induction args as [|a args IH]; [constructor|]. cbn [strip_flags].
  destruct (String.eqb a "--coo-verbose"); [now apply sublist_cons|].
  destruct (String.eqb a "--coo-no-db"); [now apply sublist_cons|now apply sublist_skip].
Qed.

Lemma existsb_eqb_In (flag : string) (args : list string) :
  existsb (String.eqb flag) args = true <-> In flag args.
Proof.
  rewrite existsb_exists. split.
  - intros (x & Hx & Heq). apply String.eqb_eq in Heq. now subst x.
  - intros Hin. exists flag. split; [assumption|apply String.eqb_refl].
Qed.

Lemma parseArgs_flags (argv : list string) :
  verbose (parseArgs argv) = existsb (String.eqb "--coo-verbose") (skipn 2 argv) /\
  noDb (parseArgs argv) = existsb (String.eqb "--coo-no-db") (skipn 2 argv) /\
  (claudeArgs (parseArgs argv) = [] \/
   command (parseArgs argv) = CmdRun /\ claudeArgs (parseArgs argv) = strip_flags (skipn 2 argv)).
Proof.
  unfold parseArgs.
  destruct (strip_flags (skipn 2 argv)) as [|first rest]; [now repeat split; left|].
  repeat match goal with
         | |- context [if ?b then _ else _] => destruct b
         | |- context [let (_, _) := ?p in _] => destruct p
         end; cbn; repeat split; auto.
Qed.

Lemma parse_limit_nonzero (s : string) : parse_limit s <> 0.
Proof.
  unfold parse_limit. destruct (parseInt s) as [n|]; [|discriminate].
  destruct (Z.eqb_spec n 0); [discriminate|assumption].
Qed.

Lemma sessions_loop_nonzero (rest : list string) (limit : Z) :
  limit <> 0 -> sessions_loop rest limit <> 0.
Proof.
  assert (Hall : forall n rest limit,
            (List.length rest <= n)%nat -> limit <> 0 -> sessions_loop rest limit <> 0).
  { clear. induction n as [|n IH]; intros rest limit Hlen Hl.
    - destruct rest; [exact Hl|cbn in Hlen; lia].
    - destruct rest as [|arg rest]; [exact Hl|]. cbn [sessions_loop].
      destruct rest as [|next rest']; [exact Hl|].
      destruct (String.eqb arg "--limit" && negb (String.eqb next "")).
      + apply IH; [cbn in *; lia|apply parse_limit_nonzero].
      + apply IH; [cbn in *; lia|exact Hl]. }
  apply (Hall (List.length rest)). lia.
Qed.

(** X18 ([parseArgs]): claudeoo's own flags are taken out wherever they
    stand on the command line.  [verbose] and [noDb] say whether the flag
    occurs among the arguments; the arguments handed to Claude hold neither
    flag and are, in order, arguments of the command line; when the
    command is [run] and something is handed on, it is everything but the
    two flags.  The limit of [sessions] is never 0: a limit that is no
    number, or 0, reads 10. *)
Theorem parseArgs_own_flags (node script : string) (args : list string) :
  (verbose (parseArgs (node :: script :: args)) = true <-> In "--coo-verbose" args) /\
  (noDb (parseArgs (node :: script :: args)) = true <-> In "--coo-no-db" args) /\
  ~ In "--coo-verbose" (claudeArgs (parseArgs (node :: script :: args))) /\
  ~ In "--coo-no-db" (claudeArgs (parseArgs (node :: script :: args))) /\
  sublist (claudeArgs (parseArgs (node :: script :: args))) args /\
  (claudeArgs (parseArgs (node :: script :: args)) <> [] ->
   command (parseArgs (node :: script :: args)) = CmdRun /\
   claudeArgs (parseArgs (node :: script :: args)) =
     List.filter (fun a => negb (String.eqb a "--coo-verbose") && negb (String.eqb a "--coo-no-db"))
                 args) /\
  sessionsLimit (parseArgs (node :: script :: args)) <> 0.
Proof.
  destruct (parseArgs_flags (node :: script :: args)) as (Hv & Hn & Hc).
  change (skipn 2 (node :: script :: args)) with args in Hv, Hn, Hc.
  split; [rewrite Hv; apply existsb_eqb_In|]. split; [rewrite Hn; apply existsb_eqb_In|].
  assert (Hkept : forall flag, (flag = "--coo-verbose" \/ flag = "--coo-no-db") ->
                    ~ In flag (strip_flags args)).
  { intros flag Hflag Hin. rewrite strip_flags_filter in Hin. apply filter_In in Hin.
    destruct Hin as [_ Hb]. apply andb_true_iff in Hb. destruct Hb as [Hb1 Hb2].
    destruct Hflag as [-> | ->]; [now rewrite String.eqb_refl in Hb1|now rewrite String.eqb_refl in Hb2]. }
  split; [|split; [|split; [|split]]].
  - destruct Hc as [-> | [_ ->]]; [intros []|apply Hkept; now left].
  - destruct Hc as [-> | [_ ->]]; [intros []|apply Hkept; now right].
  - destruct Hc as [-> | [_ ->]]; [apply sublist_nil_l|apply strip_flags_sublist].
  - intros Hne. destruct Hc as [Hnil | [Hrun Hargs]]; [contradiction|].
    split; [exact Hrun|]. rewrite Hargs. apply strip_flags_filter.
  - unfold parseArgs. change (skipn 2 (node :: script :: args)) with args.
    destruct (strip_flags args) as [|first rest]; [cbv zeta beta; cbn [sessionsLimit]; discriminate|].
    repeat match goal with
           | |- context [if ?b then _ else _] => destruct b
           | |- context [let (_, _) := ?p in _] => destruct p
           end; cbv zeta beta; cbn [sessionsLimit]; try discriminate.
    apply sessions_loop_nonzero. discriminate.
Qed.

(** ** Where a record goes *)

Section Recorder.
Context `{Host}.

Lemma session_calls_insert (sid : string) (record : ApiCallRecord) (db : Database) :
  session_calls sid (insertApiCall record db) =
  (session_calls sid db ++ if String.eqb (session_id record) sid then [record] else [])%list.
Proof.
  unfold session_calls, insertApiCall. cbn [api_calls]. rewrite List.filter_app. cbn [List.filter].
  now destruct (String.eqb (session_id record) sid).
Qed.

Lemma session_calls_upsert (sid : string) (record : ApiCallRecord) (db : Database) :
  session_calls sid (upsertSession record db) = session_calls sid db.
Proof. unfold session_calls, upsertSession. now destruct (select_session _ db). Qed.

Lemma summary_of_snoc (sid : string) (calls : list ApiCallRecord) (row : SessionRow)
    (record : ApiCallRecord) :
  summary_of sid calls = Some row ->
  summary_of sid (calls ++ [record]) =
  Some {| row_session_id := row_session_id row;
          first_seen := first_seen row;
          last_seen := timestamp record;
          row_cwd := row_cwd row;
          total_calls := total_calls row + 1;
          total_cost := cost_add (total_cost row) (cost_usd record) |}.
Proof.
  destruct calls as [|first rest]; [discriminate|]. cbn [summary_of].
  intros Hrow. apply (f_equal (fun o => match o with Some r => r | None => row end)) in Hrow.
  cbv beta iota in Hrow. subst row.
  change ((first :: rest) ++ [record])%list with (first :: (rest ++ [record]))%list.
  cbn [summary_of row_session_id first_seen row_cwd total_calls total_cost].
  rewrite List.last_last, fold_left_app. cbn [fold_left List.length].
  rewrite length_app. cbn [List.length]. do 2 f_equal. lia.
Qed.

Lemma select_session_Some (sid : string) (db : Database) (row : SessionRow) :
  select_session sid db = Some row -> In row (sessions db) /\ row_session_id row = sid.
Proof.
  unfold select_session. intros Hf. apply List.find_some in Hf.
  destruct Hf as [Hin Heq]. split; [assumption|now apply String.eqb_eq].
Qed.

Lemma select_session_None (sid : string) (db : Database) :
  select_session sid db = None -> ~ In sid (List.map row_session_id (sessions db)).
Proof.
  unfold select_session. intros Hf Hin. apply in_map_iff in Hin.
  destruct Hin as (row & Hid & Hin).
  pose proof (List.find_none _ _ Hf row Hin) as Hne. cbv beta in Hne.
  rewrite Hid, String.eqb_refl in Hne. discriminate.
Qed.

(** The summaries stay the sums of the calls when a record is inserted and
    its session upserted. *)
Lemma insert_upsert_consistent (record : ApiCallRecord) (db : Database) :
  db_consistent db -> db_consistent (upsertSession record (insertApiCall record db)).
Proof.
  intros (Hnd & Hrows & Hcalls).
  pose (bump := fun row : SessionRow =>
          if String.eqb (row_session_id row) (session_id record) then
            {| row_session_id := row_session_id row;
               first_seen := first_seen row;
               last_seen := timestamp record;
               row_cwd := row_cwd row;
               total_calls := total_calls row + 1;
               total_cost := cost_add (total_cost row) (cost_usd record) |}
          else row).
  pose (fresh := {| row_session_id := session_id record;
                    first_seen := timestamp record;
                    last_seen := timestamp record;
                    row_cwd := cwd record;
                    total_calls := 1;
                    total_cost := cost_usd record |}).
  assert (Hsc : forall k, session_calls k (upsertSession record (insertApiCall record db)) =
                  (session_calls k db ++
                   if String.eqb (session_id record) k then [record] else [])%list).
  { intros k. now rewrite session_calls_upsert, session_calls_insert. }
  assert (Hapi : api_calls (upsertSession record (insertApiCall record db)) =
                 (api_calls db ++ [record])%list).
  { unfold upsertSession. now destruct (select_session _ _). }
  assert (Hses : sessions (upsertSession record (insertApiCall record db)) =
                 match select_session (session_id record) db with
                 | Some _ => List.map bump (sessions db)
                 | None => (sessions db ++ [fresh])%list
                 end).
  { unfold upsertSession.
    change (select_session (session_id record) (insertApiCall record db))
      with (select_session (session_id record) db).
    now destruct (select_session (session_id record) db). }
  unfold db_consistent.
  generalize dependent (upsertSession record (insertApiCall record db)).
  intros new Hsc Hapi Hses. rewrite Hapi, Hses. clear Hapi Hses.
  destruct (select_session (session_id record) db) as [row0|] eqn:Hfind.
  - destruct (select_session_Some _ _ _ Hfind) as [Hin0 Hid0].
    assert (Hids : List.map row_session_id (List.map bump (sessions db)) =
                   List.map row_session_id (sessions db)).
    { rewrite List.map_map. apply List.map_ext. intros row. unfold bump.
      now destruct (String.eqb (row_session_id row) (session_id record)). }
    rewrite Hids. split; [exact Hnd|]. split.
    + intros row Hin. apply in_map_iff in Hin. destruct Hin as (old & Hrow & Hold).
      pose proof (Hrows old Hold) as Hsum. unfold bump in Hrow.
      destruct (String.eqb_spec (row_session_id old) (session_id record)) as [Heq|Hne];
        subst row; cbn [row_session_id]; rewrite Hsc.
      * rewrite <- Heq, String.eqb_refl. now apply summary_of_snoc.
      * rewrite (proj2 (String.eqb_neq _ _)) by congruence. now rewrite app_nil_r.
    + intros r Hr. apply in_app_or in Hr. destruct Hr as [Hr|[<-|[]]]; [now apply Hcalls|].
      rewrite <- Hid0. now apply in_map.
  - pose proof (select_session_None _ _ Hfind) as Hfresh.
    rewrite List.map_app. cbn [List.map row_session_id fresh]. split; [|split].
    + apply NoDup_app. split; [exact Hnd|]. split; [|apply NoDup_singleton].
      intros x Hx Hx'. apply list_elem_of_singleton in Hx'. subst x.
      apply Hfresh. now apply list_elem_of_In.
    + intros row Hin. apply in_app_or in Hin. destruct Hin as [Hold|[<-|[]]].
      * rewrite Hsc. rewrite (proj2 (String.eqb_neq _ _)).
        -- rewrite app_nil_r. now apply Hrows.
        -- intros Heq. apply Hfresh. rewrite Heq. now apply in_map.
      * cbn [row_session_id fresh]. rewrite Hsc, String.eqb_refl.
        assert (Hnone : session_calls (session_id record) db = []).
        { destruct (session_calls (session_id record) db) as [|r rest] eqn:Hc; [reflexivity|].
          exfalso. assert (Hr : In r (session_calls (session_id record) db))
            by (rewrite Hc; now left).
          unfold session_calls in Hr. apply filter_In in Hr. destruct Hr as [Hr Heq].
          apply String.eqb_eq in Heq. apply Hfresh. rewrite <- Heq. now apply Hcalls. }
        rewrite Hnone. reflexivity.
    + intros r Hr. apply in_or_app. apply in_app_or in Hr.
      destruct Hr as [Hr|[<-|[]]]; [left; now apply Hcalls|right; now left].
Qed.

(** X19 ([writeRecord], [insertApiCall], [upsertSession]): the JSONL line
    comes first and does not depend on SQLite.  When the file can be
    written the call returns and the file has the record as its last line,
    whatever SQLite does; when it cannot, the call throws and nothing is
    stored.  With the database switched off or the insert failing the
    database is left as it was.  When both statements run, the call is
    added to [api_calls], and the session rows remain what they were
    before: one row per session with calls, holding the first and last
    timestamp, the number and the summed cost of its calls.  When the
    insert runs and the upsert fails, the call is stored without its
    session row being touched. *)
Theorem writeRecord_keeps_summaries (record : ApiCallRecord) (noDb : bool) (faults : Faults)
    (s : Store) :
  db_consistent (database s) ->
  (fs_ok faults = true ->
     exists s', writeRecord record noDb faults s = Normal s' /\
                jsonl s' = (jsonl s ++ [record])%list) /\
  (fs_ok faults = false -> writeRecord record noDb faults s = Throw s) /\
  (noDb = true \/ insert_ok faults = false ->
     database (outcome (writeRecord record noDb faults s)) = database s) /\
  (fs_ok faults = true -> noDb = false -> insert_ok faults = true ->
     api_calls (database (outcome (writeRecord record noDb faults s))) =
       (api_calls (database s) ++ [record])%list /\
     (upsert_ok faults = true ->
        db_consistent (database (outcome (writeRecord record noDb faults s))) /\
        exists row,
          select_session (session_id record)
            (database (outcome (writeRecord record noDb faults s))) = Some row /\
          last_seen row = timestamp record /\
          total_calls row =
            Z.of_nat (List.length (session_calls (session_id record) (database s))) + 1) /\
     (upsert_ok faults = false ->
        sessions (database (outcome (writeRecord record noDb faults s))) =
          sessions (database s))).
Proof.
  intros Hdb. unfold writeRecord. split; [|split; [|split]].
  - intros ->. destruct noDb; [eexists; split; reflexivity|].
    destruct (insert_ok faults); [|eexists; split; reflexivity].
    destruct (upsert_ok faults); eexists; split; reflexivity.
  - intros ->. reflexivity.
  - intros [-> | ->]; destruct (fs_ok faults); try reflexivity. now destruct noDb.
  - intros -> -> ->. cbn [outcome database jsonl].
    split; [|split].
    + destruct (upsert_ok faults); cbn [outcome database]; [|reflexivity].
      unfold upsertSession. now destruct (select_session _ _).
    + intros ->. cbn [outcome database].
      pose proof (insert_upsert_consistent record (database s) Hdb) as Hnew.
      split; [exact Hnew|].
      destruct Hnew as (_ & Hrows & Hcalls).
      assert (Hin : In (session_id record)
                      (List.map row_session_id
                         (sessions (upsertSession record (insertApiCall record (database s)))))).
      { apply Hcalls. unfold upsertSession. destruct (select_session _ _);
          cbn [api_calls insertApiCall]; apply in_or_app; right; now left. }
      apply in_map_iff in Hin. destruct Hin as (row & Hid & Hrow).
      destruct (select_session (session_id record)
                  (upsertSession record (insertApiCall record (database s)))) as [found|] eqn:Hsel.
      * destruct (select_session_Some _ _ _ Hsel) as [Hfin Hfid].
        pose proof (Hrows found Hfin) as Hsum. rewrite Hfid in Hsum.
        rewrite session_calls_upsert, session_calls_insert, String.eqb_refl in Hsum.
        exists found. split; [reflexivity|].
        destruct (session_calls (session_id record) (database s)) as [|first rest].
        -- cbn in Hsum. injection Hsum as <-. split; reflexivity.
        -- change (((first :: rest) ++ [record])%list) with (first :: (rest ++ [record]))%list in Hsum.
           cbn [summary_of] in Hsum. injection Hsum as <-.
           cbn [last_seen total_calls]. rewrite List.last_last. split; [reflexivity|].
           cbn [List.length]. rewrite length_app. cbn [List.length]. lia.
      * exfalso. apply (select_session_None _ _ Hsel). rewrite <- Hid. now apply in_map.
    + intros ->. reflexivity.
Qed.

End Recorder.

(** ** The CSV export *)




Section Csv.
Variable js_String : JsValue -> string.


End Csv.

(** * The further properties at work on the samples *)

Lemma dated_id_resolves_witness :
  fst (resolvePricing (H := Sample.host) FileAbsent FileAbsent None
         (JStr ("claude-opus-4-6" ++ String "-" "20250610"))) =
  Some (Some (Some (Sample.opus : ModelPricing (Host := Sample.host)))).
Proof.
  apply (dated_id_resolves (H := Sample.host) FileAbsent FileAbsent None
           (inline_fallback (H := Sample.host)) "claude-opus-4-6" "20250610"); reflexivity.
Defined.

Lemma family_fallback_first_listed_witness :
  fst (resolvePricing (H := Sample.host) FileAbsent FileAbsent None
         (JStr "claude-3-5-sonnet-20241022")) =
  Some (Some (Some (Sample.sonnet : ModelPricing (Host := Sample.host)))).
Proof.
  apply (family_fallback_first_listed (H := Sample.host) FileAbsent FileAbsent None
           (inline_fallback (H := Sample.host)) "claude-3-5-sonnet-20241022"
           "sonnet" "claude-sonnet-4-6" ["opus"] ["haiku"]
           [("claude-opus-4-6", Sample.opus : ModelPricing (Host := Sample.host))]
           [("claude-haiku-4-5", Sample.haiku : ModelPricing (Host := Sample.host))]);
    try reflexivity.
  - intros e [<-|[]]. left. reflexivity.
  - intros k q [Heq|[]]. injection Heq as <- _. reflexivity.
Defined.


Lemma unterminated_tail_is_not_parsed_witness :
  heap (feed (H := Sample.host) 1 ("data: " ++ Sample.message_start_text) Sample.started) !! 1%nat =
    Some (set_buffer ("data: " ++ Sample.message_start_text)
            (new_pending (JStr "claude-opus-4-6") 1 1000)) /\
  session (feed (H := Sample.host) 1 ("data: " ++ Sample.message_start_text) Sample.started) =
    session Sample.started /\
  List.map rec_input_tokens
    (records (on_done (H := Sample.host) 1 ("data: " ++ Sample.message_start_text)
                Sample.env0 Sample.started)) = [JNum 0].
Proof.
  destruct (unterminated_tail_is_not_parsed (H := Sample.host) 1
              ("data: " ++ Sample.message_start_text) Sample.env0 Sample.started
              (new_pending (JStr "claude-opus-4-6") 1 1000))
    as (Hheap & Hses & Hrec); [vm_compute; reflexivity..|].
  split; [exact Hheap|]. split; [exact Hses|]. rewrite Hrec. vm_compute. reflexivity.
Defined.

Lemma event_line_names_the_event_witness :
  process_lines (H := Sample.host)
    ["event: " ++ "content_block_start"; "data: " ++ Sample.ping_text; ""]
    (new_pending (JStr "claude-opus-4-6") 1 1000, Sample.session0) =
  (set_eventType ""
     (set_state
        (fst (outcome (processSSEEvent (H := Sample.host) (JStr "content_block_start")
                         Sample.ping_json
                         (state (new_pending (JStr "claude-opus-4-6") 1 1000))
                         Sample.session0)))
        (new_pending (JStr "claude-opus-4-6") 1 1000)),
   snd (outcome (processSSEEvent (H := Sample.host) (JStr "content_block_start")
                   Sample.ping_json
                   (state (new_pending (JStr "claude-opus-4-6") 1 1000))
                   Sample.session0))).
Proof.
  destruct (event_line_names_the_event (H := Sample.host)
              (new_pending (JStr "claude-opus-4-6") 1 1000) Sample.session0
              "content_block_start" Sample.ping_text Sample.ping_json)
    as (Hnamed & _); [reflexivity | discriminate |].
  destruct Hnamed as (_ & Hblank); [discriminate|]. exact Hblank.
Defined.

Lemma blocks_only_grow_witness :
  blocks_extend
    (contentBlocks Sample.state1)
    (contentBlocks (fst (run_events (H := Sample.host)
       [(JStr "content_block_delta", Sample.delta_json "Hello");
        (JStr "content_block_start", Sample.block_start_json);
        (JStr "content_block_delta", Sample.delta_json ", world")]
       (Sample.state1, Sample.session0)))).
Proof.
  apply (blocks_only_grow (H := Sample.host) sample_js_add_int).
  - reflexivity.
  - repeat constructor.
Defined.

Lemma ledger_is_sum_of_records_witness :
  ledger_matches (H := Sample.host) (cost_zero (Host := Sample.host))
    (feed_chunks (H := Sample.host) [(1%nat, Sample.full_transcript)] Sample.started) /\
  exists w',
    finalizeStream (H := Sample.host) Sample.env0 Sample.corrected_stream Sample.started =
      Normal w' /\
    List.map rec_output_tokens (records w') = [JNum 50] /\
    ledger_matches (H := Sample.host) (cost_zero (Host := Sample.host)) w'.
Proof.
  destruct (ledger_is_sum_of_records (H := Sample.host) sample_js_add_int
              (cost_zero (Host := Sample.host)) Sample.started)
    as (Hchunks & Hfin); [vm_compute; repeat split; reflexivity|].
  split; [apply Hchunks|].
  destruct (record_of (H := Sample.host) Sample.env0 Sample.started Sample.corrected_stream)
    as [r|] eqn:Hr; [|vm_compute in Hr; discriminate].
  destruct (Hfin Sample.env0 Sample.corrected_stream r eq_refl Hr) as (w' & Hw' & Hrecs & Hl).
  exists w'. split; [exact Hw'|]. split; [|exact Hl].
  rewrite Hrecs. vm_compute in Hr. injection Hr as <-. reflexivity.
Defined.



Lemma sample_empty_store_consistent :
  db_consistent (H := Sample.host) (database Sample.empty_store).
Proof. split; [constructor|]. split; intros ? []. Qed.

Lemma writeRecord_keeps_summaries_witness :
  (exists s',
     writeRecord (H := Sample.host) Sample.first_record false Sample.no_faults
       Sample.empty_store = Normal s' /\
     jsonl s' = [Sample.first_record]) /\
  api_calls (database (outcome (writeRecord (H := Sample.host) Sample.first_record false
                                  Sample.no_faults Sample.empty_store))) =
    [Sample.first_record] /\
  db_consistent (H := Sample.host)
    (database (outcome (writeRecord (H := Sample.host) Sample.first_record false
                          Sample.no_faults Sample.empty_store))) /\
  exists row,
    select_session (H := Sample.host) "session-1"
      (database (outcome (writeRecord (H := Sample.host) Sample.first_record false
                            Sample.no_faults Sample.empty_store))) = Some row /\
    total_calls row = 1.
Proof.
  destruct (writeRecord_keeps_summaries (H := Sample.host) Sample.first_record false
              Sample.no_faults Sample.empty_store sample_empty_store_consistent)
    as (Hfile & _ & _ & Hdb).
  destruct (Hdb eq_refl eq_refl eq_refl) as (Hcalls & Hboth & _).
  destruct (Hboth eq_refl) as (Hok & row & Hrow & _ & Hn).
  split; [exact (Hfile eq_refl)|]. split; [exact Hcalls|]. split; [exact Hok|].
  exists row. split; [exact Hrow|exact Hn].
Defined.
